(** * SignalWire telephony bridge: codec, queues, provider link, registry

    A shallow embedding of the audio core of [pkg/telephony]:
    - [audio-converter.go]: G.711 mu-law codec and linear resampler;
    - [signalwire-audio-bridge.go]: the per-call WebSocket session;
    - the stream bridge (registry of [BridgeSession]s and its routers).

    Go values are modelled as follows.  Fixed-width integers are [Z] with
    the wrap-around written out ([i16], [i64], [u8], [u16]).  Byte slices
    are [list Z] with every element in [0, 256).  A buffered channel is a
    record holding the queued frames, the capacity and the closed flag;
    sending on a closed channel and closing a closed channel panic, as the
    Go runtime does.  A function that may return an [error] or panic
    returns an [outcome]. *)

From Stdlib Require Import ZArith QArith Qround Ascii.
From stdpp Require Import gmap strings list fin_maps.

Local Open Scope Z_scope.

(** ** Results of Go calls *)

Inductive outcome (A : Type) : Type :=
| Ok (a : A)
| Err (msg : string)
| GoPanic (msg : string).

Arguments Ok {A} a.
Arguments Err {A} msg.
Arguments GoPanic {A} msg.

#[global] Instance outcome_ret : MRet outcome := fun A a => Ok a.

#[global] Instance outcome_bind : MBind outcome := fun A B k m =>
  match m with
  | Ok a => k a
  | Err e => Err e
  | GoPanic p => GoPanic p
  end.

(** ** Machine integers *)

Module GoInt.

Definition u8 (z : Z) : Z := z mod 256.
Definition u16 (z : Z) : Z := z mod 65536.

(** [int16(z)]: two's complement wrap into [-32768, 32767]. *)
Definition i16 (z : Z) : Z := (z + 32768) mod 65536 - 32768.

(** [int64(z)], also Go's [int] on the 64-bit targets. *)
Definition i64 (z : Z) : Z :=
  (z + 9223372036854775808) mod 18446744073709551616 - 9223372036854775808.

Definition MaxInt16 : Z := 32767.
Definition MinInt16 : Z := -32768.

(** [runtime.maxAlloc] on the 64-bit targets (48 address bits):
    [make([]byte, n)] panics when [n] is negative or larger.  An allocation
    within the limit is taken to succeed. *)
Definition maxAlloc : Z := 2 ^ 48.

(** [binary.LittleEndian.PutUint16] and [binary.LittleEndian.Uint16]. *)
Definition PutUint16 (v : Z) : list Z := [u8 v; u8 (Z.shiftr (u16 v) 8)].
Definition Uint16 (lo hi : Z) : Z := Z.lor lo (Z.shiftl hi 8).

End GoInt.
Import GoInt.

(** ** audio-converter.go *)

Module Codec.

(** One iteration of the loop of [decodeMulaw]: the 16-bit sample of a
    mu-law byte. *)
Definition decodeMulawSample (mulawByte : Z) : Z :=
  let mulawByte := Z.lxor mulawByte 0xFF in
  let sign := if Z.land mulawByte 0x80 =? 0 then 1 else -1 in
  let exponent := Z.land (Z.shiftr mulawByte 4) 0x07 in
  let mantissa := Z.land mulawByte 0x0F in
  i16 (sign * i16 (Z.shiftl (i16 (i16 (Z.shiftl mantissa 3) + 0x84)) exponent)).

Definition decodeMulaw (mulawData : list Z) : outcome (list Z) :=
  Ok (flat_map (fun b => PutUint16 (u16 (decodeMulawSample b))) mulawData).

(** The exponent search of [linearToMulaw]:
    [for exp := 0; exp < 7; exp++ { if sample <= 1 << (exp+5) {...; break} }]
    with [exponent] initialised to 7. *)
Fixpoint exponentLoop (fuel : nat) (exp sample : Z) : Z :=
  match fuel with
  | O => 7
  | S fuel' =>
      if exp <? 7 then
        if sample <=? i16 (Z.shiftl 1 (exp + 5)) then exp
        else exponentLoop fuel' (exp + 1) sample
      else 7
  end.

(** The magnitude after the sign test and the clamp. *)
Definition magnitude (sample : Z) : Z :=
  let sample := if sample <? 0 then i16 (- sample) else sample in
  if sample >? 32635 then 32635 else sample.

Definition linearToMulaw (sample : Z) : Z :=
  let sign := if sample <? 0 then -1 else 1 in
  let sample := magnitude sample in
  let exponent := exponentLoop 7 0 sample in
  let mantissa := Z.shiftr sample (exponent + 1) in
  let mulawByte := u8 (Z.lor (i16 (Z.shiftl exponent 4)) mantissa) in
  let mulawByte := if sign <? 0 then Z.lor mulawByte 0x80 else mulawByte in
  Z.lxor mulawByte 0xFF.

(** Little-endian 16-bit samples of an even-length frame. *)
Fixpoint samplesLE (pcmData : list Z) : list Z :=
  match pcmData with
  | lo :: hi :: rest => i16 (Uint16 lo hi) :: samplesLE rest
  | _ => []
  end.

Definition encodeMulaw (pcmData : list Z) : outcome (list Z) :=
  if negb (Z.of_nat (length pcmData) mod 2 =? 0) then
    Err "PCM data length must be even (16-bit samples)"
  else Ok (map linearToMulaw (samplesLE pcmData)).

(** [int16(binary.LittleEndian.Uint16(pcmData[k*2 : (k+1)*2]))]; the slice
    expression panics when a bound is negative or past the end of the
    slice (the frame is taken to have no spare capacity). *)
Definition readSample (pcmData : list Z) (k : Z) : outcome Z :=
  if (k * 2 <? 0) || (Z.of_nat (length pcmData) <? (k + 1) * 2) then
    GoPanic "slice bounds out of range"
  else
    match pcmData !! Z.to_nat (k * 2), pcmData !! Z.to_nat (k * 2 + 1) with
    | Some lo, Some hi => Ok (i16 (Uint16 lo hi))
    | _, _ => GoPanic "slice bounds out of range"
    end.

(** [int(x)] on a float: truncation toward zero. *)
Definition truncQ (x : Q) : Z :=
  if Qle_bool 0 x then Qfloor x else - Qfloor (- x).

(** The clamped source index of output sample [i]. *)
Definition srcIndexOf (numInputSamples : Z) (srcPos : Q) : Z :=
  let srcIndex := truncQ srcPos in
  if srcIndex >=? numInputSamples - 1 then numInputSamples - 2 else srcIndex.

(** The body of the loop of [resamplePCM16] for output index [i].  The
    float64 arithmetic is carried out over the rationals: for the rates
    and sample values used below (ratio 1/2 or 2, 16-bit samples) every
    intermediate value is a dyadic rational that binary64 represents
    exactly, so both computations agree. *)
Definition resampleAt (pcmData : list Z) (numInputSamples : Z) (ratio : Q)
    (i : Z) : outcome (list Z) :=
  let srcPos := (inject_Z i * ratio)%Q in
  let srcIndex := srcIndexOf numInputSamples srcPos in
  let fraction := (srcPos - inject_Z srcIndex)%Q in
  sample1 ← readSample pcmData srcIndex;
  sample2 ← readSample pcmData (srcIndex + 1);
  let interpolated :=
    (inject_Z sample1 * (1 - fraction) + inject_Z sample2 * fraction)%Q in
  let interpolated :=
    if Qle_bool interpolated (inject_Z MaxInt16) then
      if Qle_bool (inject_Z MinInt16) interpolated then interpolated
      else inject_Z MinInt16
    else inject_Z MaxInt16 in
  Ok (PutUint16 (u16 (i16 (truncQ interpolated)))).

Fixpoint resampleLoop (pcmData : list Z) (numInputSamples : Z) (ratio : Q)
    (idx : list Z) : outcome (list Z) :=
  match idx with
  | [] => Ok []
  | i :: rest =>
      out ← resampleAt pcmData numInputSamples ratio i;
      outs ← resampleLoop pcmData numInputSamples ratio rest;
      Ok (out ++ outs)
  end.

Definition resamplePCM16 (pcmData : list Z) (fromRate toRate : Z)
    : outcome (list Z) :=
  if negb (Z.of_nat (length pcmData) mod 2 =? 0) then
    Err "PCM data length must be even (16-bit samples)"
  else
    let numInputSamples := Z.of_nat (length pcmData) / 2 in
    if fromRate =? 0 then GoPanic "integer divide by zero"
    else
      let numOutputSamples :=
        i64 (Z.quot (i64 (numInputSamples * toRate)) fromRate) in
      let outputLen := i64 (numOutputSamples * 2) in
      if (outputLen <? 0) || (maxAlloc <? outputLen) then
        GoPanic "makeslice: len out of range"
      else
        let ratio := (inject_Z fromRate / inject_Z toRate)%Q in
        resampleLoop pcmData numInputSamples ratio
          (map Z.of_nat (seq 0 (Z.to_nat numOutputSamples))).

(** The little-endian PCM16 frame holding the given samples. *)
Definition pcm16 (samples : list Z) : list Z :=
  flat_map (fun s => PutUint16 (u16 s)) samples.

End Codec.

(** ** encoding/base64, standard alphabet with padding *)

Module Base64.

Definition alphabet : list ascii :=
  String.list_ascii_of_string
    "ABCDEFGHIJKLMNOPQRSTUVWXYZabcdefghijklmnopqrstuvwxyz0123456789+/".

Definition isPad (c : ascii) : bool := Ascii.eqb c "="%char.

Fixpoint indexOf (c : ascii) (l : list ascii) (i : Z) : option Z :=
  match l with
  | [] => None
  | x :: l' => if Ascii.eqb c x then Some i else indexOf c l' (i + 1)
  end.

Definition value (c : ascii) : option Z := indexOf c alphabet 0.

Definition symbol (v : Z) : ascii := nth (Z.to_nat v) alphabet "="%char.

Definition byte0 (a b : Z) : Z := u8 (Z.lor (Z.shiftl a 2) (Z.shiftr b 4)).
Definition byte1 (b c : Z) : Z := u8 (Z.lor (Z.shiftl b 4) (Z.shiftr c 2)).
Definition byte2 (c d : Z) : Z := u8 (Z.lor (Z.shiftl c 6) d).

Fixpoint decodeQuanta (cs : list ascii) : option (list Z) :=
  match cs with
  | [] => Some []
  | a :: b :: c :: d :: rest =>
      match value a, value b with
      | Some va, Some vb =>
          if isPad c then
            if isPad d && bool_decide (rest = []) then Some [byte0 va vb]
            else None
          else
            match value c with
            | Some vc =>
                if isPad d then
                  if bool_decide (rest = []) then
                    Some [byte0 va vb; byte1 vb vc]
                  else None
                else
                  match value d with
                  | Some vd =>
                      tl ← decodeQuanta rest;
                      Some (byte0 va vb :: byte1 vb vc :: byte2 vc vd :: tl)
                  | None => None
                  end
            | None => None
            end
      | _, _ => None
      end
  | _ => None
  end.

Definition isNewline (c : ascii) : bool :=
  Ascii.eqb c "010"%char || Ascii.eqb c "013"%char.

(** [base64.StdEncoding.DecodeString]: line breaks are skipped, the
    rest is decoded four symbols at a time; [None] is a
    [CorruptInputError]. *)
Definition DecodeString (s : string) : option (list Z) :=
  decodeQuanta
    (List.filter (fun c => negb (isNewline c)) (String.list_ascii_of_string s)).

Fixpoint encodeQuanta (bs : list Z) : list ascii :=
  match bs with
  | [] => []
  | [x] =>
      [symbol (Z.shiftr x 2); symbol (Z.shiftl (Z.land x 3) 4);
       "="%char; "="%char]
  | [x; y] =>
      [symbol (Z.shiftr x 2);
       symbol (Z.lor (Z.shiftl (Z.land x 3) 4) (Z.shiftr y 4));
       symbol (Z.shiftl (Z.land y 15) 2); "="%char]
  | x :: y :: z :: rest =>
      symbol (Z.shiftr x 2)
      :: symbol (Z.lor (Z.shiftl (Z.land x 3) 4) (Z.shiftr y 4))
      :: symbol (Z.lor (Z.shiftl (Z.land y 15) 2) (Z.shiftr z 6))
      :: symbol (Z.land z 63) :: encodeQuanta rest
  end.

Definition EncodeToString (bs : list Z) : string :=
  String.string_of_list_ascii (encodeQuanta bs).

End Base64.

(** ** Decoded JSON values ([map[string]interface{}]) *)

Local Set Warnings "-register-all".

Inductive json : Type :=
| JNull
| JBool (b : bool)
| JNumber (n : Z)
| JString (s : string)
| JArray (l : list json)
| JObject (m : gmap string json).

(** ** Buffered channels of frames *)

Module Chan.

Record chan : Type := Mk {
  buf : list (list Z);
  cap : nat;
  closed : bool
}.

(** [make(chan []byte, n)] *)
Definition make (n : nat) : chan := {| buf := []; cap := n; closed := false |}.

(** The outcome of
    [select { case ch <- v: ...  case <-time.After(10 * time.Millisecond): ... }]
    while no receiver takes from [ch]: the send case runs when the buffer
    has room, the timer case when it is still full after the grace period. *)
Inductive sent : Type :=
| Sent (c : chan)
| TimedOut.

Definition trySend (c : chan) (v : list Z) : outcome sent :=
  if closed c then GoPanic "send on closed channel"
  else if (length (buf c) <? cap c)%nat then
    Ok (Sent {| buf := buf c ++ [v]; cap := cap c; closed := closed c |})
  else Ok TimedOut.

(** [close(ch)] *)
Definition close (c : chan) : outcome chan :=
  if closed c then GoPanic "close of closed channel"
  else Ok {| buf := buf c; cap := cap c; closed := true |}.

(** [v, ok := <-ch]; [None] when the receive would block. *)
Definition recv (c : chan) : option (list Z * bool * chan) :=
  match buf c with
  | v :: rest => Some (v, true, {| buf := rest; cap := cap c; closed := closed c |})
  | [] => if closed c then Some ([], false, c) else None
  end.

(** The bound every channel value is expected to satisfy. *)
Definition bounded (c : chan) : Prop := (length (buf c) <= cap c)%nat.

End Chan.

(** The result of a method that returns an [error] and mutates its
    receiver: the receiver afterwards and the error ([None] is [nil]), or a
    panic. *)
Inductive ret (S : Type) : Type :=
| Return (s : S) (err : option string)
| Panic (msg : string).

Arguments Return {S} s err.
Arguments Panic {S} msg.

(** ** signalwire-audio-bridge.go *)

Module Link.

Inductive wsMessage : Type :=
| TextMessage (data : gmap string json)
| CloseMessage (code : Z) (text : string)
| PingMessage.

(** The connection as the session sees it: the frames written so far and
    whether [Close] was called on it. *)
Record wsConn : Type := MkConn {
  written : list wsMessage;
  connClosed : bool
}.

(** [Conn.WriteMessage]: fails once the connection is closed. *)
Definition WriteMessage (c : wsConn) (m : wsMessage) : wsConn * option string :=
  if connClosed c then (c, Some "use of closed network connection")
  else ({| written := written c ++ [m]; connClosed := connClosed c |}, None).

Definition ConnClose (c : wsConn) : wsConn :=
  {| written := written c; connClosed := true |}.

(** [SignalWireCallSession]; the timestamps and the context handle play
    no part in the methods below and are left out. *)
Record SignalWireCallSession : Type := MkSession {
  ID : string;
  SessionID : string;
  SignalWireCallSID : string;
  Conn : option wsConn;
  AudioInChan : Chan.chan;
  AudioOutChan : Chan.chan;
  Closed : bool;
  ClosedCount : Z
}.

Definition setConn (cs : SignalWireCallSession) (c : option wsConn) :=
  MkSession (ID cs) (SessionID cs) (SignalWireCallSID cs) c
    (AudioInChan cs) (AudioOutChan cs) (Closed cs) (ClosedCount cs).

Definition setAudioInChan (cs : SignalWireCallSession) (c : Chan.chan) :=
  MkSession (ID cs) (SessionID cs) (SignalWireCallSID cs) (Conn cs)
    c (AudioOutChan cs) (Closed cs) (ClosedCount cs).

Definition setAudioOutChan (cs : SignalWireCallSession) (c : Chan.chan) :=
  MkSession (ID cs) (SessionID cs) (SignalWireCallSID cs) (Conn cs)
    (AudioInChan cs) c (Closed cs) (ClosedCount cs).

Definition setClosed (cs : SignalWireCallSession) (b : bool) (n : Z) :=
  MkSession (ID cs) (SessionID cs) (SignalWireCallSID cs) (Conn cs)
    (AudioInChan cs) (AudioOutChan cs) b n.

(** The session that [HandleWebSocketConnection] builds. *)
Definition newCallSession (id sessionID callSID : string) (conn : wsConn) :=
  MkSession id sessionID callSID (Some conn)
    (Chan.make 100) (Chan.make 100) false 0.

(** A write through [cs.Conn]; a nil connection is a nil dereference. *)
Definition connWrite (cs : SignalWireCallSession) (m : wsMessage)
    : ret SignalWireCallSession :=
  match Conn cs with
  | None => Panic "invalid memory address or nil pointer dereference"
  | Some c =>
      let '(c', err) := WriteMessage c m in
      Return (setConn cs (Some c')) err
  end.

Definition streamAudioToSignalWire (cs : SignalWireCallSession)
    (audioData : list Z) : ret SignalWireCallSession :=
  if Closed cs then Return cs (Some "session closed")
  else
    let encoded := Base64.EncodeToString audioData in
    let msg : gmap string json :=
      <["event" := JString "media"]>
        (<["media" := JObject (<["track" := JString "outbound"]>
                                 (<["payload" := JString encoded]> ∅))]> ∅) in
    match connWrite cs (TextMessage msg) with
    | Return cs' (Some _) => Return cs' (Some "failed to send media message")
    | r => r
    end.

Definition SendEvent (cs : SignalWireCallSession) (eventType : string)
    (data : gmap string json) : ret SignalWireCallSession :=
  if Closed cs then Return cs (Some "session closed")
  else
    let msg : gmap string json := data ∪ <["event" := JString eventType]> ∅ in
    connWrite cs (TextMessage msg).

Definition Close (cs : SignalWireCallSession) : ret SignalWireCallSession :=
  if Closed cs then Return cs None
  else
    let cs := setClosed cs true (i64 (ClosedCount cs + 1)) in
    match Chan.close (AudioInChan cs) with
    | Ok cin =>
        let cs := setAudioInChan cs cin in
        match Chan.close (AudioOutChan cs) with
        | Ok cout =>
            let cs := setAudioOutChan cs cout in
            let conn :=
              match Conn cs with
              | Some c =>
                  Some (ConnClose (fst (WriteMessage c (CloseMessage 1000 EmptyString))))
              | None => None
              end in
            Return (setConn cs conn) None
        | Err e => Panic e
        | GoPanic p => Panic p
        end
    | Err e => Panic e
    | GoPanic p => Panic p
    end.

Definition handleMediaEvent (cs : SignalWireCallSession)
    (msg : gmap string json) : ret SignalWireCallSession :=
  match msg !! "media" with
  | Some (JObject media) =>
      match media !! "track" with
      | Some (JString track) =>
          if negb (String.eqb track "inbound") then Return cs None
          else
            match media !! "payload" with
            | Some (JString payload) =>
                match Base64.DecodeString payload with
                | Some audioData =>
                    match Chan.trySend (AudioInChan cs) audioData with
                    | Ok (Chan.Sent c) => Return (setAudioInChan cs c) None
                    | Ok Chan.TimedOut => Return cs None
                    | Err e => Panic e
                    | GoPanic p => Panic p
                    end
                | None => Return cs (Some "failed to decode audio payload")
                end
            | _ => Return cs (Some "media event missing payload")
            end
      | _ => Return cs (Some "media event missing track")
      end
  | _ => Return cs (Some "media event missing payload")
  end.

(** The control events answer with a local event whose write error is
    dropped; [now] is [time.Now().Unix()]. *)
Definition controlEvent (cs : SignalWireCallSession) (name : string)
    (now : Z) : ret SignalWireCallSession :=
  let data : gmap string json :=
    <["call_sid" := JString (SignalWireCallSID cs)]>
      (<["timestamp" := JNumber now]> ∅) in
  match SendEvent cs name data with
  | Return cs' _ => Return cs' None
  | Panic p => Panic p
  end.

Definition handleConnectedEvent cs now := controlEvent cs "connection_ready" now.
Definition handleStartEvent cs now := controlEvent cs "stream_started" now.
Definition handleStopEvent cs now := controlEvent cs "stream_stopped" now.

(** [handleSignalWireMessage] after [json.Unmarshal]: [None] is a message
    that does not parse. *)
Definition handleSignalWireMessage (cs : SignalWireCallSession)
    (parsed : option (gmap string json)) (now : Z)
    : ret SignalWireCallSession :=
  match parsed with
  | None => Return cs (Some "failed to parse message")
  | Some msg =>
      match msg !! "event" with
      | Some (JString msgType) =>
          if String.eqb msgType "connected" then handleConnectedEvent cs now
          else if String.eqb msgType "start" then handleStartEvent cs now
          else if String.eqb msgType "media" then handleMediaEvent cs msg
          else if String.eqb msgType "stop" then handleStopEvent cs now
          else if String.eqb msgType "closed" then
            match Close cs with
            | Return cs' _ => Return cs' None
            | Panic p => Panic p
            end
          else Return cs None
      | _ => Return cs (Some "message missing event type")
      end
  end.

End Link.

(** ** The stream bridge: sessions, routers, metrics, registry *)

Module Bridge.

Record AudioFormat : Type := MkFormat {
  SampleRate : Z;
  Channels : Z;
  Encoding : string;
  BitDepth : Z
}.

Record BridgeMetrics : Type := MkMetrics {
  PhoneToAIPacketsSent : Z;
  PhoneToAIPacketsDropped : Z;
  AIToPhonePacketsSent : Z;
  AIToPhonePacketsDropped : Z;
  AverageLatencyUs : Z;
  MaxLatencyUs : Z;
  BytesReceived : Z;
  BytesSent : Z;
  DroppedPackets : Z;
  Overruns : Z;
  Underruns : Z
}.

(** [&BridgeMetrics{}] *)
Definition zeroMetrics : BridgeMetrics := MkMetrics 0 0 0 0 0 0 0 0 0 0 0.

(** [BridgeSession].  [SignalWireSession] holds the identifier of the
    linked call session ([None] is nil); [cancelled] records that the
    session's own [cancel] ran. *)
Record BridgeSession : Type := MkBridgeSession {
  ID : string;
  SessionID : string;
  SignalWireSession : option string;
  phoneToAIChan : Chan.chan;
  aiToPhoneChan : Chan.chan;
  InputFormat : AudioFormat;
  OutputFormat : AudioFormat;
  Active : bool;
  Streaming : bool;
  Metrics : BridgeMetrics;
  CreatedAt : Z;
  StartedAt : option Z;
  EndedAt : option Z;
  cancelled : bool
}.

Definition setMetrics (s : BridgeSession) (m : BridgeMetrics) : BridgeSession :=
  MkBridgeSession (ID s) (SessionID s) (SignalWireSession s) (phoneToAIChan s)
    (aiToPhoneChan s) (InputFormat s) (OutputFormat s) (Active s)
    (Streaming s) m (CreatedAt s) (StartedAt s) (EndedAt s) (cancelled s).

Definition setPhoneToAIChan (s : BridgeSession) (c : Chan.chan) : BridgeSession :=
  MkBridgeSession (ID s) (SessionID s) (SignalWireSession s) c
    (aiToPhoneChan s) (InputFormat s) (OutputFormat s) (Active s)
    (Streaming s) (Metrics s) (CreatedAt s) (StartedAt s) (EndedAt s)
    (cancelled s).

Definition setAIToPhoneChan (s : BridgeSession) (c : Chan.chan) : BridgeSession :=
  MkBridgeSession (ID s) (SessionID s) (SignalWireSession s) (phoneToAIChan s)
    c (InputFormat s) (OutputFormat s) (Active s)
    (Streaming s) (Metrics s) (CreatedAt s) (StartedAt s) (EndedAt s)
    (cancelled s).

(** [session.Active = false; session.cancel()] *)
Definition deactivate (s : BridgeSession) : BridgeSession :=
  MkBridgeSession (ID s) (SessionID s) (SignalWireSession s) (phoneToAIChan s)
    (aiToPhoneChan s) (InputFormat s) (OutputFormat s) false
    (Streaming s) (Metrics s) (CreatedAt s) (StartedAt s) (EndedAt s) true.

(** *** Metrics *)

Definition updateLatencyMetrics (m : BridgeMetrics) (latencyUs : Z)
    : BridgeMetrics :=
  let avg :=
    if AverageLatencyUs m =? 0 then latencyUs
    else i64 (Z.quot (i64 (i64 (AverageLatencyUs m * 9) + latencyUs)) 10) in
  let mx :=
    if latencyUs >? MaxLatencyUs m then latencyUs else MaxLatencyUs m in
  MkMetrics (PhoneToAIPacketsSent m) (PhoneToAIPacketsDropped m)
    (AIToPhonePacketsSent m) (AIToPhonePacketsDropped m) avg mx
    (BytesReceived m) (BytesSent m) (DroppedPackets m) (Overruns m)
    (Underruns m).

Definition updateLatency (session : BridgeSession) (latencyUs : Z)
    : BridgeSession :=
  setMetrics session (updateLatencyMetrics (Metrics session) latencyUs).

(** [PhoneToAIPacketsSent++; BytesReceived += n] *)
Definition countPhoneToAISent (m : BridgeMetrics) (n : Z) : BridgeMetrics :=
  MkMetrics (i64 (PhoneToAIPacketsSent m + 1)) (PhoneToAIPacketsDropped m)
    (AIToPhonePacketsSent m) (AIToPhonePacketsDropped m) (AverageLatencyUs m)
    (MaxLatencyUs m) (i64 (BytesReceived m + n)) (BytesSent m)
    (DroppedPackets m) (Overruns m) (Underruns m).

(** [PhoneToAIPacketsDropped++; DroppedPackets++] *)
Definition countPhoneToAIDropped (m : BridgeMetrics) : BridgeMetrics :=
  MkMetrics (PhoneToAIPacketsSent m) (i64 (PhoneToAIPacketsDropped m + 1))
    (AIToPhonePacketsSent m) (AIToPhonePacketsDropped m) (AverageLatencyUs m)
    (MaxLatencyUs m) (BytesReceived m) (BytesSent m)
    (i64 (DroppedPackets m + 1)) (Overruns m) (Underruns m).

(** [AIToPhonePacketsSent++; BytesSent += n] *)
Definition countAIToPhoneSent (m : BridgeMetrics) (n : Z) : BridgeMetrics :=
  MkMetrics (PhoneToAIPacketsSent m) (PhoneToAIPacketsDropped m)
    (i64 (AIToPhonePacketsSent m + 1)) (AIToPhonePacketsDropped m)
    (AverageLatencyUs m) (MaxLatencyUs m) (BytesReceived m)
    (i64 (BytesSent m + n)) (DroppedPackets m) (Overruns m) (Underruns m).

(** [AIToPhonePacketsDropped++; DroppedPackets++] *)
Definition countAIToPhoneDropped (m : BridgeMetrics) : BridgeMetrics :=
  MkMetrics (PhoneToAIPacketsSent m) (PhoneToAIPacketsDropped m)
    (AIToPhonePacketsSent m) (i64 (AIToPhonePacketsDropped m + 1))
    (AverageLatencyUs m) (MaxLatencyUs m) (BytesReceived m) (BytesSent m)
    (i64 (DroppedPackets m + 1)) (Overruns m) (Underruns m).

(** *** Routers *)

Definition processIncomingAudio (audioData : list Z) (session : BridgeSession)
    : outcome (list Z) := Ok audioData.

Definition processOutgoingAudio (audioData : list Z) (session : BridgeSession)
    : outcome (list Z) := Ok audioData.

(** The inner [select] of [routePhoneToAI]; [latency] is what
    [time.Since(startTime).Microseconds()] reads after the send. *)
Definition sendPhoneToAI (session : BridgeSession)
    (audioChunk processedAudio : list Z) (latency : Z) : ret BridgeSession :=
  match Chan.trySend (phoneToAIChan session) processedAudio with
  | Ok (Chan.Sent c) =>
      let session := setPhoneToAIChan session c in
      let session :=
        setMetrics session
          (countPhoneToAISent (Metrics session) (Z.of_nat (length audioChunk))) in
      Return (updateLatency session latency) None
  | Ok Chan.TimedOut =>
      Return (setMetrics session (countPhoneToAIDropped (Metrics session))) None
  | Err e => Panic e
  | GoPanic p => Panic p
  end.

(** The inner [select] run once per frame, in order, with nobody
    receiving from [phoneToAIChan] in between. *)
Fixpoint sendAllPhoneToAI (session : BridgeSession)
    (frames : list (list Z * Z)) : ret BridgeSession :=
  match frames with
  | [] => Return session None
  | (frame, latency) :: rest =>
      match sendPhoneToAI session frame frame latency with
      | Return session' _ => sendAllPhoneToAI session' rest
      | Panic p => Panic p
      end
  end.

(** One turn of the loop of [routePhoneToAI] on a chunk received from the
    link's [AudioInChan]. *)
Definition routePhoneToAIStep (session : BridgeSession) (audioChunk : list Z)
    (latency : Z) : ret BridgeSession :=
  if (length audioChunk =? 0)%nat then Return session None
  else
    match processIncomingAudio audioChunk session with
    | Ok processedAudio => sendPhoneToAI session audioChunk processedAudio latency
    | _ => Return session None
    end.

(** The loop over the chunks it receives, each with the latency measured
    for it. *)
Fixpoint routePhoneToAIRun (session : BridgeSession)
    (chunks : list (list Z * Z)) : ret BridgeSession :=
  match chunks with
  | [] => Return session None
  | (audioChunk, latency) :: rest =>
      match routePhoneToAIStep session audioChunk latency with
      | Return session' _ => routePhoneToAIRun session' rest
      | Panic p => Panic p
      end
  end.

(** One turn of the loop of [routeAIToPhone] on a chunk received from
    [aiToPhoneChan]; the send goes to the link's [AudioOutChan]. *)
Definition routeAIToPhoneStep (session : BridgeSession)
    (swSession : Link.SignalWireCallSession) (audioChunk : list Z)
    (latency : Z) : ret (BridgeSession * Link.SignalWireCallSession) :=
  if (length audioChunk =? 0)%nat then Return (session, swSession) None
  else
    match processOutgoingAudio audioChunk session with
    | Ok processedAudio =>
        match Chan.trySend (Link.AudioOutChan swSession) processedAudio with
        | Ok (Chan.Sent c) =>
            let session :=
              setMetrics session
                (countAIToPhoneSent (Metrics session)
                   (Z.of_nat (length processedAudio))) in
            Return (updateLatency session latency,
                    Link.setAudioOutChan swSession c) None
        | Ok Chan.TimedOut =>
            Return (setMetrics session (countAIToPhoneDropped (Metrics session)),
                    swSession) None
        | Err e => Panic e
        | GoPanic p => Panic p
        end
    | _ => Return (session, swSession) None
    end.

(** *** Registry *)

(** [AudioStreamBridge]: the map holds pointers, so the sessions live in
    [objects] under their address and [sessions] maps identifiers to
    addresses.  A session deleted from the map is still reachable by
    whoever kept the pointer. *)
Record AudioStreamBridge : Type := MkBridge {
  objects : gmap nat BridgeSession;
  sessions : gmap string nat;
  rootCancelled : bool
}.

Definition NewAudioStreamBridge : AudioStreamBridge := MkBridge ∅ ∅ false.

Definition telephonyFormat : AudioFormat := MkFormat 8000 1 "mulaw" 8.

Definition CreateSession (bridge : AudioStreamBridge) (sessionID : string)
    (now : Z) : outcome (nat * AudioStreamBridge) :=
  match sessions bridge !! sessionID with
  | Some _ => Err ("session already exists: " +:+ sessionID)
  | None =>
      let addr := fresh (dom (objects bridge)) in
      let session :=
        MkBridgeSession sessionID sessionID None (Chan.make 500) (Chan.make 500)
          telephonyFormat telephonyFormat true false zeroMetrics now None None
          (rootCancelled bridge) in
      Ok (addr, MkBridge (<[addr := session]> (objects bridge))
                  (<[sessionID := addr]> (sessions bridge))
                  (rootCancelled bridge))
  end.

(** [GetSession]: the pointer stored under the identifier, [None] for nil. *)
Definition GetSession (bridge : AudioStreamBridge) (sessionID : string)
    : option nat := sessions bridge !! sessionID.

Definition CloseSession (bridge : AudioStreamBridge) (sessionID : string)
    : ret AudioStreamBridge :=
  match sessions bridge !! sessionID with
  | None => Return bridge (Some ("session not found: " +:+ sessionID))
  | Some addr =>
      match objects bridge !! addr with
      | None => Panic "invalid memory address or nil pointer dereference"
      | Some session =>
          let session := deactivate session in
          match Chan.close (phoneToAIChan session) with
          | Ok c1 =>
              let session := setPhoneToAIChan session c1 in
              match Chan.close (aiToPhoneChan session) with
              | Ok c2 =>
                  let session := setAIToPhoneChan session c2 in
                  Return (MkBridge (<[addr := session]> (objects bridge))
                            (delete sessionID (sessions bridge))
                            (rootCancelled bridge)) None
              | Err e => Panic e
              | GoPanic p => Panic p
              end
          | Err e => Panic e
          | GoPanic p => Panic p
          end
      end
  end.

(** [CloseSession] called [n] times in a row; the errors of the calls are
    collected in order. *)
Fixpoint closeTimes (n : nat) (bridge : AudioStreamBridge) (sessionID : string)
    : outcome (AudioStreamBridge * list (option string)) :=
  match n with
  | O => Ok (bridge, [])
  | S n' =>
      match CloseSession bridge sessionID with
      | Return bridge' err =>
          '(b, errs) ← closeTimes n' bridge' sessionID;
          Ok (b, err :: errs)
      | Panic p => GoPanic p
      end
  end.

End Bridge.

(** ** The specification's wording, for comparison with the code *)

Module SpecWords.

(** "the magnitude fits the mantissa field": the mantissa
    [magnitude >> (exponent+1)] is a 4-bit value. *)
Definition fitsMantissa (mag e : Z) : bool := Z.shiftr mag (e + 1) <? 16.

(** "find the smallest exponent in [0,7] such that the magnitude fits the
    mantissa field". *)
Definition smallestExponent (mag : Z) : option Z :=
  List.find (fitsMantissa mag) [0; 1; 2; 3; 4; 5; 6; 7].

(** The encoder of one sample as the specification words it. *)
Definition encodeSample (sample : Z) : option Z :=
  let mag := Z.min (Z.abs sample) 32635 in
  e ← smallestExponent mag;
  let mantissa := Z.shiftr mag (e + 1) in
  let b := Z.lor (Z.shiftl e 4) mantissa in
  let b := if sample <? 0 then Z.lor b 0x80 else b in
  Some (Z.lxor b 0xFF).

Definition encodeClaim (sample : Z) : Prop :=
  encodeSample sample = Some (Codec.linearToMulaw sample).

(** "samples at even indices equal input; samples at odd indices equal the
    arithmetic mean of neighbours", read generously: an odd-index sample
    only has to be the mean of two samples of the input. *)
Definition doublingClaim (input output : list Z) : Prop :=
  length output = 8%nat /\
  (forall k x, input !! k = Some x -> output !! (2 * k)%nat = Some x) /\
  (forall k y, output !! (2 * k + 1)%nat = Some y ->
     exists a b, a ∈ input /\ b ∈ input /\ 2 * y = a + b).

(** "on first observation, set avg = x"; afterwards
    "new = (old*9 + x) / 10". *)
Fixpoint ewmaFrom (avg : Z) (xs : list Z) : Z :=
  match xs with
  | [] => avg
  | x :: rest => ewmaFrom ((avg * 9 + x) / 10) rest
  end.

Definition ewma (xs : list Z) : Z :=
  match xs with
  | [] => 0
  | x1 :: rest => ewmaFrom x1 rest
  end.

(** "max equals the running maximum of all observations so far". *)
Definition runningMax (xs : list Z) : Z :=
  match xs with
  | [] => 0
  | x1 :: rest => fold_left Z.max rest x1
  end.

(** The latency metrics after a run of observations on a fresh session. *)
Definition observe (xs : list Z) : Bridge.BridgeMetrics :=
  fold_left Bridge.updateLatencyMetrics xs Bridge.zeroMetrics.

(** The largest observation for which [avg*9 + x] cannot leave int64. *)
Definition latencyBound : Z := 922337203685477580.

Definition latencyClaim (xs : list Z) : Prop :=
  Bridge.AverageLatencyUs (observe xs) = ewma xs /\
  Bridge.MaxLatencyUs (observe xs) = runningMax xs.

(** Registry close "called N times has the same effect as once ... every
    subsequent call produces no error; afterwards GetSession(id) returns
    nil". *)
Definition closeIdempotentClaim (bridge : Bridge.AudioStreamBridge)
    (sessionID : string) (n : nat) : Prop :=
  exists b', Bridge.closeTimes n bridge sessionID = Ok (b', replicate n None)
             /\ Bridge.GetSession b' sessionID = None.

(** "a second call is a no-op that bumps close_count". *)
Definition secondCloseBumps (cs : Link.SignalWireCallSession) : Prop :=
  forall cs1 cs2 e1 e2,
    Link.Close cs = Return cs1 e1 ->
    Link.Close cs1 = Return cs2 e2 ->
    Link.ClosedCount cs2 = Link.ClosedCount cs1 + 1.

End SpecWords.

(** ** Fixtures *)

Module Fixtures.

Definition frame4 : list Z := [0; 10000; 0; -10000].

Definition link0 : Link.SignalWireCallSession :=
  Link.newCallSession "L1" "S1" "CA1" (Link.MkConn [] false).

Definition mediaMsg (track payload : string) : gmap string json :=
  <["event" := JString "media"]>
    (<["media" := JObject (<["track" := JString track]>
                             (<["payload" := JString payload]> ∅))]> ∅).

(** A bridge holding the one session "S1". *)
Definition bridge1 : Bridge.AudioStreamBridge :=
  match Bridge.CreateSession Bridge.NewAudioStreamBridge "S1" 0 with
  | Ok (_, b) => b
  | _ => Bridge.NewAudioStreamBridge
  end.

(** A session whose phone-to-pipeline queue has capacity 4. *)
Definition session4 : Bridge.BridgeSession :=
  Bridge.MkBridgeSession "S1" "S1" (Some "L1") (Chan.make 4) (Chan.make 4)
    Bridge.telephonyFormat Bridge.telephonyFormat true true
    Bridge.zeroMetrics 0 (Some 0) None false.

End Fixtures.

(** ** audio-converter.go: conversions, mixing and buffer helpers *)

Module Converter.

Import Codec.

(** [int32(z)] *)
Definition i32 (z : Z) : Z := (z + 2147483648) mod 4294967296 - 2147483648.

#[global] Instance AudioFormat_eq_dec : EqDecision Bridge.AudioFormat.
Proof. solve_decision. Defined.

Definition AudioFormatMulaw : Bridge.AudioFormat := Bridge.MkFormat 8000 1 "mulaw" 8.
Definition AudioFormatPCM : Bridge.AudioFormat := Bridge.MkFormat 16000 1 "pcm" 16.
Definition AudioFormatWAV : Bridge.AudioFormat := Bridge.MkFormat 16000 1 "wav" 16.

(** [fmt.Errorf("...: %w", err)] *)
Definition wrapErr {A} (prefix : string) (m : outcome A) : outcome A :=
  match m with
  | Err e => Err (prefix +:+ ": " +:+ e)
  | r => r
  end.

Definition MulawToPCM16kHz (mulawData : list Z) : outcome (list Z) :=
  pcm8kHz ← wrapErr "failed to decode mulaw" (decodeMulaw mulawData);
  pcm16kHz ← wrapErr "failed to resample" (resamplePCM16 pcm8kHz 8000 16000);
  Ok pcm16kHz.

Definition PCM16kHzToMulaw (pcmData : list Z) : outcome (list Z) :=
  pcm8kHz ← wrapErr "failed to resample" (resamplePCM16 pcmData 16000 8000);
  mulawData ← wrapErr "failed to encode mulaw" (encodeMulaw pcm8kHz);
  Ok mulawData.

(** [ConvertAudio]; the error text of the last case also prints the two
    formats, which is left out here. *)
Definition ConvertAudio (data : list Z) (inputFormat outputFormat : Bridge.AudioFormat)
    : outcome (list Z) :=
  if bool_decide (inputFormat = outputFormat) then Ok data
  else if bool_decide (inputFormat = AudioFormatMulaw)
          && bool_decide (outputFormat = AudioFormatPCM) then
    MulawToPCM16kHz data
  else if bool_decide (inputFormat = AudioFormatPCM)
          && bool_decide (outputFormat = AudioFormatMulaw) then
    PCM16kHzToMulaw data
  else Err "unsupported conversion".

(** The bytes of "RIFF" and "WAVE". *)
Definition riff : list Z := [82; 73; 70; 70].
Definition wave : list Z := [87; 65; 86; 69].

Definition DetectAudioFormat (data : list Z) : outcome Bridge.AudioFormat :=
  if (length data <? 2)%nat then Err "data too short to detect format"
  else if (12 <=? length data)%nat
          && bool_decide (take 4 data = riff)
          && bool_decide (take 4 (drop 8 data) = wave) then
    Ok AudioFormatWAV
  else Err "unable to detect audio format (no header found)".

(** The check loop of [MixAudio]: every stream against the length of the
    first one, then that length against evenness. *)
Fixpoint mixCheck (length0 : nat) (streams : list (list Z)) : option string :=
  match streams with
  | [] => None
  | stream :: rest =>
      if negb (length stream =? length0)%nat then
        Some "all audio streams must have the same length"
      else if negb (Z.of_nat length0 mod 2 =? 0) then
        Some "PCM data length must be even (16-bit samples)"
      else mixCheck length0 rest
  end.

(** [sum += int32(sample)] over the streams, at sample index [i]. *)
Fixpoint mixSum (streams : list (list Z)) (i : Z) (sum : Z) : outcome Z :=
  match streams with
  | [] => Ok sum
  | stream :: rest =>
      sample ← readSample stream i;
      mixSum rest i (i32 (sum + i32 sample))
  end.

Definition mixAt (streams : list (list Z)) (i : Z) : outcome (list Z) :=
  sum ← mixSum streams i 0;
  let n := i32 (Z.of_nat (length streams)) in
  if n =? 0 then GoPanic "integer divide by zero"
  else
    let average := i32 (Z.quot sum n) in
    let average :=
      if average >? MaxInt16 then MaxInt16
      else if average <? MinInt16 then MinInt16 else average in
    Ok (PutUint16 (u16 (i16 average))).

Fixpoint mixLoop (streams : list (list Z)) (idx : list Z) : outcome (list Z) :=
  match idx with
  | [] => Ok []
  | i :: rest =>
      out ← mixAt streams i;
      outs ← mixLoop streams rest;
      Ok (out ++ outs)
  end.

Definition MixAudio (streams : list (list Z)) : outcome (list Z) :=
  match streams with
  | [] => Err "no audio streams provided"
  | stream0 :: _ =>
      match mixCheck (length stream0) streams with
      | Some e => Err e
      | None =>
          let numSamples := Z.of_nat (length stream0) / 2 in
          mixLoop streams (map Z.of_nat (seq 0 (Z.to_nat numSamples)))
      end
  end.

(** The loop of [SplitAudioBuffer]: [fuel] bounds the number of chunks and
    is the buffer length, which suffices for every positive chunk size. *)
Fixpoint splitLoop (fuel : nat) (data : list Z) (chunkSize : nat)
    : list (list Z) :=
  match fuel with
  | O => []
  | S fuel' =>
      match data with
      | [] => []
      | _ => take chunkSize data :: splitLoop fuel' (drop chunkSize data) chunkSize
      end
  end.

Definition SplitAudioBuffer (data : list Z) (chunkSize : Z) : list (list Z) :=
  let chunkSize := if chunkSize <=? 0 then 320 else chunkSize in
  splitLoop (length data) data (Z.to_nat chunkSize).

Definition ConcatAudioBuffers (buffers : list (list Z)) : list Z :=
  concat buffers.

(** A frame is a list of bytes. *)
Definition isFrame (data : list Z) : Prop := Forall (fun b => 0 <= b < 256) data.

End Converter.

(** ** Exhaustive checks over bytes and 16-bit words *)

Module Enum.

Definition bytes256 : list Z := map Z.of_nat (seq 0 256).

Definition allBytes (P : Z -> bool) : bool := forallb P bytes256.

Definition allWords (P : Z -> bool) : bool :=
  forallb (fun hi => forallb (fun lo => P (lo + 256 * hi)) bytes256) bytes256.

End Enum.

(** ** Integer reading of the interpolation at half-sample positions *)

Module Interp.

Import Codec.

(** The clamp of [resamplePCM16] on the interpolated value. *)
Definition clampQ (x : Q) : Q :=
  if Qle_bool x (inject_Z MaxInt16) then
    if Qle_bool (inject_Z MinInt16) x then x else inject_Z MinInt16
  else inject_Z MaxInt16.

(** The bytes written for two samples and a fraction. *)
Definition emit (sample1 sample2 : Z) (fraction : Q) : list Z :=
  PutUint16
    (u16 (i16 (truncQ (clampQ (inject_Z sample1 * (1 - fraction)
                               + inject_Z sample2 * fraction)%Q)))).

Definition clampZ (v : Z) : Z :=
  if v >? 32767 then 32767 else if v <? -32768 then -32768 else v.

(** The sample with index [j] of a frame. *)
Definition sampleAt (pcmData : list Z) (j : Z) : Z :=
  nth (Z.to_nat j) (samplesLE pcmData) 0.

(** The output sample for the source position [p/2] in a frame of [n]
    samples: the index is clamped to [n-2], the fraction (in halves) is
    taken after the clamp, the result is truncated toward zero and
    saturated. *)
Definition halfStep (pcmData : list Z) (n p : Z) : Z :=
  let j := if p / 2 >=? n - 1 then n - 2 else p / 2 in
  let t := p - 2 * j in
  clampZ (Z.quot (sampleAt pcmData j * (2 - t) + sampleAt pcmData (j + 1) * t) 2).

End Interp.

(** ** The average that [MixAudio] computes, over the integers *)

Module Mixing.

Definition sumZ (l : list Z) : Z := foldr Z.add 0 l.

(** The truncated average of the samples with index [i] of the streams. *)
Definition mixedSample (streams : list (list Z)) (i : Z) : Z :=
  Z.quot (sumZ (map (fun stream => Interp.sampleAt stream i) streams))
         (Z.of_nat (length streams)).

(** All streams have the even length [len]. *)
Definition aligned (len : nat) (streams : list (list Z)) : Prop :=
  Forall (fun stream => length stream = len) streams /\
  Z.of_nat len mod 2 = 0.

End Mixing.

(** ** The stream bridge: linking, the outbound router loop, shutdown *)

Module Registry.

Import Bridge.

(** The synchronous part of [LinkSignalWireSession]: the pointer to the call
    session (its identifier here) is stored in the bridge session; the two
    routers it then starts run on their own. *)
Definition LinkSignalWireSession (bridge : AudioStreamBridge)
    (sessionID swSessionID : string) : ret AudioStreamBridge :=
  match sessions bridge !! sessionID with
  | None => Return bridge (Some ("session not found: " +:+ sessionID))
  | Some addr =>
      match objects bridge !! addr with
      | None => Panic "invalid memory address or nil pointer dereference"
      | Some s =>
          let s :=
            MkBridgeSession (ID s) (SessionID s) (Some swSessionID)
              (phoneToAIChan s) (aiToPhoneChan s) (InputFormat s)
              (OutputFormat s) (Active s) (Streaming s) (Metrics s)
              (CreatedAt s) (StartedAt s) (EndedAt s) (cancelled s) in
          Return (MkBridge (<[addr := s]> (objects bridge)) (sessions bridge)
                    (rootCancelled bridge)) None
      end
  end.

(** The loop of [routeAIToPhone] over the chunks it receives from
    [aiToPhoneChan], each with the latency measured for it, while nobody
    takes from the link's [AudioOutChan]. *)
Fixpoint routeAIToPhoneRun (session : BridgeSession)
    (swSession : Link.SignalWireCallSession) (chunks : list (list Z * Z))
    : ret (BridgeSession * Link.SignalWireCallSession) :=
  match chunks with
  | [] => Return (session, swSession) None
  | (audioChunk, latency) :: rest =>
      match routeAIToPhoneStep session swSession audioChunk latency with
      | Return (session', swSession') _ =>
          routeAIToPhoneRun session' swSession' rest
      | Panic p => Panic p
      end
  end.

(** A chunk the routers do not skip. *)
Definition nonEmptyChunk (c : list Z * Z) : bool :=
  negb (length (fst c) =? 0)%nat.

(** The registry invariant: an identifier in the map points to a live
    object, and two identifiers never share one. *)
Definition wellFormed (bridge : AudioStreamBridge) : Prop :=
  (forall id addr, sessions bridge !! id = Some addr ->
     is_Some (objects bridge !! addr)) /\
  (forall id1 id2 addr, sessions bridge !! id1 = Some addr ->
     sessions bridge !! id2 = Some addr -> id1 = id2).

(** The total of the two directions' drop counters, as an int64. *)
Definition dropsAgree (m : BridgeMetrics) : Prop :=
  DroppedPackets m = i64 (PhoneToAIPacketsDropped m + AIToPhonePacketsDropped m).

(** How a call that takes [bridge.mu] ends: it returns, it panics, or it
    waits for ever on the mutex. *)
Inductive run (S : Type) : Type :=
| Finished (s : S) (err : option string)
| Crashed (msg : string)
| Blocked.

Arguments Finished {S} s err.
Arguments Crashed {S} msg.
Arguments Blocked {S}.

(** The bridge with the state of [bridge.mu]; the mutex is not reentrant,
    so [Lock] by the goroutine that already holds it never returns. *)
Record LockedBridge : Type := MkLocked {
  unlocked : AudioStreamBridge;
  muHeld : bool
}.

(** [CloseSession] with its [bridge.mu.Lock()] and deferred [Unlock]. *)
Definition CloseSessionLocked (b : LockedBridge) (sessionID : string)
    : run LockedBridge :=
  if muHeld b then Blocked
  else
    match CloseSession (unlocked b) sessionID with
    | Return bridge' err => Finished (MkLocked bridge' false) err
    | Panic p => Crashed p
    end.

(** The body of [for sessionID := range bridge.sessions], over the
    identifiers in the order the iteration yields them. *)
Fixpoint closeEach (b : LockedBridge) (ids : list string) : run LockedBridge :=
  match ids with
  | [] => Finished b None
  | sessionID :: rest =>
      match CloseSessionLocked b sessionID with
      | Finished b' _ => closeEach b' rest
      | Crashed p => Crashed p
      | Blocked => Blocked
      end
  end.

(** [AudioStreamBridge.Close]: cancel the root scope, take the mutex, close
    every session, release the mutex.  [order] is the order in which the
    map iteration yields the identifiers. *)
Definition Close (b : LockedBridge) (order : list string) : run LockedBridge :=
  let bridge :=
    MkBridge (objects (unlocked b)) (sessions (unlocked b)) true in
  if muHeld b then Blocked
  else
    match closeEach (MkLocked bridge true) order with
    | Finished b' _ => Finished (MkLocked (unlocked b') false) None
    | Crashed p => Crashed p
    | Blocked => Blocked
    end.

End Registry.

(** ** The provider link: a run of media events *)

Module LinkRuns.

Import Link.

(** [handleMediaEvent] on a sequence of messages, as [readPump] feeds them. *)
Fixpoint handleMediaEvents (cs : SignalWireCallSession)
    (msgs : list (gmap string json)) : ret SignalWireCallSession :=
  match msgs with
  | [] => Return cs None
  | msg :: rest =>
      match handleMediaEvent cs msg with
      | Return cs' _ => handleMediaEvents cs' rest
      | Panic p => Panic p
      end
  end.

(** An inbound media message carrying [payload]. *)
Definition inbound (payload : string) : gmap string json :=
  <["event" := JString "media"]>
    (<["media" := JObject (<["track" := JString "inbound"]>
                             (<["payload" := JString payload]> ∅))]> ∅).

End LinkRuns.

(** ** Call status webhook *)

Module Calls.

Inductive CallState : Type :=
| StateQueued | StateInitiated | StateRinging | StateAnswered
| StateInProgress | StateCompleted | StateFailed | StateNoAnswer
| StateBusy | StateCancelled.

#[global] Instance CallState_eq_dec : EqDecision CallState.
Proof. solve_decision. Defined.

(** [GetCallSessionBySignalWireSID]: the first call session with the given
    call SID that the [range] loop over [bridge.calls] meets.  Go fixes no
    order for the iteration over a map, so the order of this run is an
    argument: [visited] lists the entries of [bridge.calls] in the order in
    which the loop visits them. *)
Definition GetCallSessionBySignalWireSID
    (visited : list (string * Link.SignalWireCallSession))
    (signalWireSID : string) : option Link.SignalWireCallSession :=
  snd <$> (snd <$> list_find
                     (fun kv => String.eqb (Link.SignalWireCallSID (snd kv))
                                  signalWireSID)
                     visited).

Inductive response : Type :=
| Response (code : Z) (streamBridge : Bridge.AudioStreamBridge)
| HandlerPanic (msg : string).

(** The [switch callStatus] of [HandleCallStateChange]. *)
Definition newStateOf (callStatus : string) : CallState :=
  if String.eqb callStatus "ringing" then StateRinging
  else if String.eqb callStatus "in-progress"
          || String.eqb callStatus "answered" then StateAnswered
  else if String.eqb callStatus "completed" then StateCompleted
  else if String.eqb callStatus "failed"
          || String.eqb callStatus "error" then StateFailed
  else if String.eqb callStatus "no-answer" then StateNoAnswer
  else if String.eqb callStatus "busy" then StateBusy
  else if String.eqb callStatus "canceled" then StateCancelled
  else StateFailed.

(** [HandleCallStateChange].  The handler first calls
    [h.callInitiator.UpdateCallState(ctx, callSID, newState, nil)], which
    works on the initiator's call table, the clock and the database; that
    call is the argument [UpdateCallState], giving its outcome for a call
    SID and a state: [Ok tt] for a nil error, [Err] for an error, which the
    handler only logs, and [GoPanic] for a panic, which ends the handler
    before it reaches the bridges. *)
Definition HandleCallStateChange
    (UpdateCallState : string -> CallState -> outcome unit)
    (visited : list (string * Link.SignalWireCallSession))
    (streamBridge : Bridge.AudioStreamBridge)
    (method callSID callStatus : string) : response :=
  if negb (String.eqb method "POST") then Response 405 streamBridge
  else if String.eqb callSID EmptyString then Response 400 streamBridge
  else
    let newState := newStateOf callStatus in
    match UpdateCallState callSID newState with
    | GoPanic p => HandlerPanic p
    | Ok _ | Err _ =>
        if bool_decide (newState = StateCompleted)
           || bool_decide (newState = StateFailed)
           || bool_decide (newState = StateNoAnswer)
           || bool_decide (newState = StateBusy)
           || bool_decide (newState = StateCancelled) then
          match GetCallSessionBySignalWireSID visited callSID with
          | Some swSession =>
              match Bridge.CloseSession streamBridge
                      (Link.SessionID swSession) with
              | Return streamBridge' _ => Response 200 streamBridge'
              | Panic p => HandlerPanic p
              end
          | None => Response 200 streamBridge
          end
        else Response 200 streamBridge
    end.

End Calls.

(** * Codec *)

Section CodecFacts.

Import Codec.

Lemma i16_range z : -32768 <= i16 z <= 32767.
Proof. unfold i16. pose proof (Z.mod_pos_bound (z + 32768) 65536). lia. Qed.

Lemma i16_id z : -32768 <= z <= 32767 -> i16 z = z.
Proof. intros H. unfold i16. rewrite Z.mod_small; lia. Qed.

Lemma samplesLE_Forall_aux n : forall pcmData,
  (length pcmData <= n)%nat ->
  Forall (fun s => -32768 <= s <= 32767) (samplesLE pcmData).
Proof.
  induction n as [|n IH]; intros [|lo [|hi rest]] Hlen; simpl in *;
    try constructor; try lia.
  - apply i16_range.
  - apply IH. lia.
Qed.

Lemma samplesLE_range pcmData i s :
  samplesLE pcmData !! i = Some s -> -32768 <= s <= 32767.
Proof.
  intros Hs.
  pose proof (samplesLE_Forall_aux (length pcmData) pcmData (le_n _)) as HF.
  rewrite Forall_lookup in HF. exact (HF i s Hs).
Qed.

End CodecFacts.

Section EncoderFacts.

Import Codec.

Lemma magnitude_min_abs sample :
  -32768 < sample <= 32767 -> magnitude sample = Z.min (Z.abs sample) 32635.
Proof.
  intros H. unfold magnitude.
  destruct (Z.ltb_spec sample 0).
  - rewrite i16_id by lia. destruct (Z.gtb_spec (- sample) 32635); lia.
  - destruct (Z.gtb_spec sample 32635); lia.
Qed.

(** The loop picks the first exponent whose threshold [2^(e+5)] is not
    below the magnitude, and 7 when the six thresholds are all below. *)
Lemma exponentLoop_first mag :
  let e := exponentLoop 7 0 mag in
  0 <= e <= 7 /\
  (e < 7 -> mag <= 2 ^ (e + 5)) /\
  (forall e', 0 <= e' < e -> 2 ^ (e' + 5) < mag).
Proof.
  change (exponentLoop 7 0 mag) with
    (if mag <=? 32 then 0 else if mag <=? 64 then 1 else
     if mag <=? 128 then 2 else if mag <=? 256 then 3 else
     if mag <=? 512 then 4 else if mag <=? 1024 then 5 else
     if mag <=? 2048 then 6 else 7).
  repeat (match goal with
          | |- context [?a <=? ?b] => destruct (Z.leb_spec a b)
          end);
    cbv zeta; (split; [lia|]); (split; [intros He7; simpl; try lia|]);
    try (intros e' He';
         assert (e' = 0 \/ e' = 1 \/ e' = 2 \/ e' = 3 \/ e' = 4 \/ e' = 5
                 \/ e' = 6) as Hc by lia;
         repeat (destruct Hc as [->|Hc]; [simpl; lia|]); subst; simpl; lia);
    try (simpl; lia).
Qed.

Lemma linearToMulaw_as_coded sample :
  -32768 < sample <= 32767 ->
  exists e,
    let mag := Z.min (Z.abs sample) 32635 in
    0 <= e <= 7 /\
    (e < 7 -> mag <= 2 ^ (e + 5)) /\
    (forall e', 0 <= e' < e -> 2 ^ (e' + 5) < mag) /\
    linearToMulaw sample =
      Z.lxor (Z.lor (u8 (Z.lor (Z.shiftl e 4) (Z.shiftr mag (e + 1))))
                    (if sample <? 0 then 0x80 else 0)) 0xFF.
Proof.
  intros Hr. unfold linearToMulaw. rewrite (magnitude_min_abs _ Hr).
  set (mag := Z.min (Z.abs sample) 32635).
  destruct (exponentLoop_first mag) as (He & Hle & Hmin).
  exists (exponentLoop 7 0 mag). cbv zeta.
  repeat split; try lia; try assumption.
  rewrite (i16_id (Z.shiftl _ 4)).
  2:{ rewrite Z.shiftl_mul_pow2 by lia. change (2 ^ 4) with 16. lia. }
  destruct (Z.ltb_spec sample 0); simpl.
  - reflexivity.
  - rewrite Z.lor_0_r. reflexivity.
Qed.

End EncoderFacts.

(** C2.  The decode-then-encode round trip does not reproduce the mu-law
    byte: the four bytes 0x00, 0x7F, 0x80, 0xFF come back as 0x01, 0x47,
    0x81, 0xC7, and of the 256 bytes only 0x05 and 0x85 survive. *)
Theorem mulaw_roundtrip_breaks :
  (x ← Codec.decodeMulaw [0x00; 0x7F; 0x80; 0xFF]; Codec.encodeMulaw x)
    = Ok [0x01; 0x47; 0x81; 0xC7]
  /\ List.filter
       (fun y => Codec.linearToMulaw (Codec.decodeMulawSample y) =? y)
       (map Z.of_nat (seq 0 256)) = [0x05; 0x85].
Proof. split; vm_compute; reflexivity. Qed.

(** * Resampler *)

Section ResamplerFacts.

Import Codec.

(** With two samples or more the clamped index and its successor are
    inside the frame. *)
Lemma srcIndexOf_in_bounds n (srcPos : Q) :
  2 <= n -> 0 <= truncQ srcPos ->
  0 <= srcIndexOf n srcPos /\ srcIndexOf n srcPos + 1 <= n - 1.
Proof.
  intros Hn Hp. unfold srcIndexOf.
  destruct (Z.geb_spec (truncQ srcPos) (n - 1)); lia.
Qed.

Lemma truncQ_nonneg (q : Q) : (0 <= q)%Q -> 0 <= truncQ q.
Proof.
  intros Hq. unfold truncQ.
  destruct (Qle_bool 0 q) eqn:E.
  - change 0 with (Qfloor 0). apply Qfloor_resp_le. exact Hq.
  - apply Qle_bool_iff in Hq. congruence.
Qed.

Lemma readSample_in_bounds pcmData k :
  0 <= k -> (k + 1) * 2 <= Z.of_nat (length pcmData) ->
  exists s, readSample pcmData k = Ok s.
Proof.
  intros Hk Hlen. unfold readSample.
  destruct (Z.ltb_spec (k * 2) 0); [lia|].
  destruct (Z.ltb_spec (Z.of_nat (length pcmData)) ((k + 1) * 2)); [lia|].
  simpl.
  destruct (lookup_lt_is_Some_2 pcmData (Z.to_nat (k * 2))) as [lo ->]; [lia|].
  destruct (lookup_lt_is_Some_2 pcmData (Z.to_nat (k * 2 + 1))) as [hi ->];
    [lia|].
  eauto.
Qed.

(** With two samples or more every output index reads inside the frame
    and produces one 16-bit sample. *)
Lemma resampleAt_in_bounds pcmData n (ratio : Q) i :
  2 <= n -> n * 2 <= Z.of_nat (length pcmData) ->
  (0 <= ratio)%Q -> 0 <= i ->
  exists out, resampleAt pcmData n ratio i = Ok out /\ length out = 2%nat.
Proof.
  intros Hn Hlen Hr Hi. unfold resampleAt.
  assert (0 <= truncQ (inject_Z i * ratio)) as Hp.
  { apply truncQ_nonneg. apply Qmult_le_0_compat; [|exact Hr].
    change 0%Q with (inject_Z 0). rewrite <- Zle_Qle. exact Hi. }
  destruct (srcIndexOf_in_bounds n _ Hn Hp) as [Hlo Hhi].
  destruct (readSample_in_bounds pcmData (srcIndexOf n (inject_Z i * ratio)))
    as [s1 ->]; [lia | lia |].
  destruct (readSample_in_bounds pcmData (srcIndexOf n (inject_Z i * ratio) + 1))
    as [s2 ->]; [lia | lia |].
  simpl. eauto.
Qed.

Lemma resampleLoop_in_bounds pcmData n (ratio : Q) idx :
  2 <= n -> n * 2 <= Z.of_nat (length pcmData) ->
  (0 <= ratio)%Q -> Forall (fun i => 0 <= i) idx ->
  exists out,
    resampleLoop pcmData n ratio idx = Ok out /\
    length out = (2 * length idx)%nat.
Proof.
  intros Hn Hlen Hr. induction idx as [|i rest IH]; intros HF.
  - exists []. split; reflexivity.
  - inversion HF as [|? ? Hi HF']; subst.
    destruct (resampleAt_in_bounds pcmData n ratio i Hn Hlen Hr Hi)
      as (o & Ho & Hlo).
    destruct (IH HF') as (os & Hos & Hlos).
    exists (o ++ os). cbn [resampleLoop]. rewrite Ho. simpl. rewrite Hos. simpl.
    split; [reflexivity|]. rewrite length_app, Hlo, Hlos. simpl. lia.
Qed.

(** Frames of two samples or more are resampled without a panic, to
    [floor(samples * toRate / fromRate)] output samples, when the output
    buffer is within the allocation limit. *)
Lemma resamplePCM16_two_or_more pcmData fromRate toRate :
  Z.of_nat (length pcmData) mod 2 = 0 ->
  4 <= Z.of_nat (length pcmData) ->
  0 < fromRate -> 0 < toRate ->
  Z.of_nat (length pcmData) / 2 * toRate < 2 ^ 63 ->
  Z.of_nat (length pcmData) / 2 * toRate / fromRate * 2 <= maxAlloc ->
  exists out,
    resamplePCM16 pcmData fromRate toRate = Ok out /\
    Z.of_nat (length out)
      = 2 * (Z.of_nat (length pcmData) / 2 * toRate / fromRate).
Proof.
  intros Hev Hlen Hf Ht Hb Ha. unfold resamplePCM16.
  assert (2 ^ 63 = 9223372036854775808) as E63 by reflexivity.
  assert (maxAlloc = 281474976710656) as E48 by reflexivity.
  rewrite Hev. simpl negb. cbv iota.
  destruct (Z.eqb_spec fromRate 0) as [|_]; [lia|].
  set (n := Z.of_nat (length pcmData) / 2) in *.
  assert (2 <= n) as Hn by (subst n; apply Z.div_le_lower_bound; lia).
  assert (n * 2 <= Z.of_nat (length pcmData)) as Hn2.
  { subst n. pose proof (Z.mul_div_le (Z.of_nat (length pcmData)) 2). lia. }
  assert (i64 (n * toRate) = n * toRate) as ->.
  { unfold i64. rewrite Z.mod_small; nia. }
  rewrite Z.quot_div_nonneg by nia.
  assert (0 <= n * toRate / fromRate <= n * toRate) as Hq.
  { split; [apply Z.div_pos; nia|].
    apply Z.div_le_upper_bound; nia. }
  assert (i64 (n * toRate / fromRate) = n * toRate / fromRate) as ->.
  { unfold i64. rewrite Z.mod_small; lia. }
  assert (i64 (n * toRate / fromRate * 2) = n * toRate / fromRate * 2) as ->.
  { unfold i64. rewrite Z.mod_small; lia. }
  cbv zeta.
  destruct (Z.ltb_spec (n * toRate / fromRate * 2) 0) as [|_]; [lia|].
  destruct (Z.ltb_spec maxAlloc (n * toRate / fromRate * 2)) as [|_]; [lia|].
  cbn [orb].
  destruct (resampleLoop_in_bounds pcmData n
              (inject_Z fromRate / inject_Z toRate)
              (map Z.of_nat (seq 0 (Z.to_nat (n * toRate / fromRate)))))
    as (out & Hout & Hl); [exact Hn | exact Hn2 | | |].
  - apply Qle_shift_div_l.
    + change 0%Q with (inject_Z 0). rewrite <- Zlt_Qlt. exact Ht.
    + rewrite Qmult_0_l. change 0%Q with (inject_Z 0). rewrite <- Zle_Qle. lia.
  - apply Forall_forall. intros i Hi. apply list_elem_of_In in Hi.
    apply in_map_iff in Hi. destruct Hi as (k & <- & _). lia.
  - exists out. split; [exact Hout|].
    rewrite Hl, length_map, length_seq. lia.
Qed.

(** A request for more output than can be allocated panics in [make],
    whatever the frame holds. *)
Lemma resamplePCM16_too_large pcmData fromRate toRate :
  Z.of_nat (length pcmData) mod 2 = 0 ->
  0 < fromRate -> 0 < toRate ->
  Z.of_nat (length pcmData) / 2 * toRate < 2 ^ 63 ->
  maxAlloc < Z.of_nat (length pcmData) / 2 * toRate / fromRate * 2 ->
  resamplePCM16 pcmData fromRate toRate
    = GoPanic "makeslice: len out of range".
Proof.
  intros Hev Hf Ht Hb Ha. unfold resamplePCM16.
  assert (2 ^ 63 = 9223372036854775808) as E63 by reflexivity.
  assert (maxAlloc = 281474976710656) as E48 by reflexivity.
  rewrite Hev. simpl negb. cbv iota.
  destruct (Z.eqb_spec fromRate 0) as [|_]; [lia|].
  set (n := Z.of_nat (length pcmData) / 2) in *.
  assert (0 <= n) as Hn by (subst n; apply Z.div_pos; lia).
  assert (i64 (n * toRate) = n * toRate) as ->.
  { unfold i64. rewrite Z.mod_small; nia. }
  rewrite Z.quot_div_nonneg by nia.
  assert (0 <= n * toRate / fromRate <= n * toRate) as Hq.
  { split; [apply Z.div_pos; nia|]. apply Z.div_le_upper_bound; nia. }
  assert (i64 (n * toRate / fromRate) = n * toRate / fromRate) as ->.
  { unfold i64. rewrite Z.mod_small; lia. }
  cbv zeta. set (q := n * toRate / fromRate) in *.
  destruct (Z.lt_ge_cases (q * 2) 9223372036854775808) as [Hs|Hl].
  - assert (i64 (q * 2) = q * 2) as ->.
    { unfold i64. rewrite Z.mod_small; lia. }
    destruct (Z.ltb_spec (q * 2) 0) as [|_]; [lia|].
    destruct (Z.ltb_spec maxAlloc (q * 2)) as [_|]; [|lia]. reflexivity.
  - assert (i64 (q * 2) = q * 2 - 18446744073709551616) as ->.
    { unfold i64.
      replace (q * 2 + 9223372036854775808)
        with (q * 2 - 9223372036854775808 + 1 * 18446744073709551616) by lia.
      rewrite Z_mod_plus_full, Z.mod_small; lia. }
    destruct (Z.ltb_spec (q * 2 - 18446744073709551616) 0) as [_|]; [|lia].
    reflexivity.
Qed.

(** With a single sample every source position is clamped to -1. *)
Lemma srcIndexOf_single (srcPos : Q) :
  0 <= truncQ srcPos -> srcIndexOf 1 srcPos = -1.
Proof.
  intros Hp. unfold srcIndexOf.
  destruct (Z.geb_spec (truncQ srcPos) (1 - 1)); lia.
Qed.

Lemma resampleAt_single lo hi (ratio : Q) :
  resampleAt [lo; hi] 1 ratio 0 = GoPanic "slice bounds out of range".
Proof.
  unfold resampleAt.
  assert (truncQ (inject_Z 0 * ratio) = 0) as Ht
    by (destruct ratio; reflexivity).
  rewrite srcIndexOf_single by lia. reflexivity.
Qed.

End ResamplerFacts.

(** C4, as stated: the eighth output sample is -15000, which is not the
    mean of any two samples of the frame [0, 10000, 0, -10000]. *)
Lemma resample_doubling_claim_fails :
  ~ exists out,
      Codec.resamplePCM16 (Codec.pcm16 Fixtures.frame4) 8000 16000 = Ok out
      /\ SpecWords.doublingClaim Fixtures.frame4 (Codec.samplesLE out).
Proof.
  intros (out & Hout & _ & _ & Hodd).
  vm_compute in Hout. injection Hout as <-.
  destruct (Hodd 3%nat (-15000) eq_refl) as (a & b & Ha & Hb & Hab).
  unfold Fixtures.frame4 in Ha, Hb.
  rewrite !elem_of_cons, elem_of_nil in Ha, Hb. lia.
Qed.

(** C4, amended.  Resampling [0, 10000, 0, -10000] from 8000 Hz to
    16000 Hz yields exactly 8 samples; every sample at an even index equals
    the corresponding input sample, and every sample at an odd index that
    lies between two input samples (indices 1, 3 and 5) equals their
    arithmetic mean. *)
Theorem resample_doubling_interior :
  exists out,
    Codec.resamplePCM16 (Codec.pcm16 Fixtures.frame4) 8000 16000 = Ok out /\
    length (Codec.samplesLE out) = 8%nat /\
    (forall k x, Fixtures.frame4 !! k = Some x ->
       Codec.samplesLE out !! (2 * k)%nat = Some x) /\
    (forall k a b,
       Fixtures.frame4 !! k = Some a -> Fixtures.frame4 !! (k + 1)%nat = Some b ->
       Codec.samplesLE out !! (2 * k + 1)%nat = Some ((a + b) / 2)).
Proof.
  eexists. split; [vm_compute; reflexivity|].
  split; [reflexivity|]. split.
  - intros [|[|[|[|k]]]] x Hx; vm_compute in Hx; try discriminate;
      injection Hx as <-; reflexivity.
  - intros [|[|[|[|k]]]] a b Ha Hb; vm_compute in Ha, Hb; try discriminate;
      injection Ha as <-; injection Hb as <-; reflexivity.
Qed.

(** C10.  A frame holding exactly one 16-bit sample makes [resamplePCM16]
    panic whenever at least one output sample is due (any rates with
    [0 < fromRate <= toRate]): the bounds check rewrites the source index
    to [numInputSamples - 2 = -1] and the slice expression
    [pcmData[-2:0]] is out of range.  Only when the rates ask for an output
    buffer beyond the allocation limit does the call panic earlier, in
    [make]. *)
Theorem resample_single_sample_panics (lo hi fromRate toRate : Z) :
  0 < fromRate -> fromRate <= toRate -> toRate < 2 ^ 62 ->
  Codec.resamplePCM16 [lo; hi] fromRate toRate
    = GoPanic (if toRate / fromRate * 2 <=? maxAlloc
               then "slice bounds out of range"
               else "makeslice: len out of range").
Proof.
  intros Hf Hle Hb. unfold Codec.resamplePCM16.
  change (Z.of_nat (length [lo; hi])) with 2.
  change (negb (2 mod 2 =? 0)) with false. cbv iota.
  change (2 / 2) with 1. rewrite Z.mul_1_l.
  destruct (Z.eqb_spec fromRate 0) as [|_]; [lia|].
  assert (2 ^ 62 = 4611686018427387904) as E62 by reflexivity.
  assert (i64 toRate = toRate) as ->.
  { unfold i64. rewrite Z.mod_small; lia. }
  pose proof (Z.quot_rem' toRate fromRate) as Hq.
  pose proof (Z.rem_bound_pos toRate fromRate ltac:(lia) ltac:(lia)) as Hr.
  assert (1 <= Z.quot toRate fromRate <= toRate) as Hq1 by nia.
  assert (i64 (Z.quot toRate fromRate) = Z.quot toRate fromRate) as ->.
  { unfold i64. rewrite Z.mod_small; lia. }
  assert (i64 (Z.quot toRate fromRate * 2) = Z.quot toRate fromRate * 2) as ->.
  { unfold i64. rewrite Z.mod_small; lia. }
  cbv zeta. rewrite <- (Z.quot_div_nonneg toRate fromRate) by lia.
  destruct (Z.ltb_spec (Z.quot toRate fromRate * 2) 0) as [|_]; [lia|].
  cbn [orb].
  destruct (Z.ltb_spec maxAlloc (Z.quot toRate fromRate * 2)) as [Hbig|Hfit];
    destruct (Z.leb_spec (Z.quot toRate fromRate * 2) maxAlloc) as [?|?];
    try lia; [reflexivity|].
  destruct (Z.to_nat (Z.quot toRate fromRate)) as [|n] eqn:En; [lia|].
  cbn [seq map Codec.resampleLoop Z.of_nat].
  rewrite resampleAt_single. reflexivity.
Qed.

Lemma resample_single_sample_panics_witness :
  Codec.resamplePCM16 (Codec.pcm16 [7]) 8000 16000
    = GoPanic "slice bounds out of range".
Proof.
  apply (resample_single_sample_panics 7 0 8000 16000); [lia | lia | reflexivity].
Defined.

(** * Provider link *)

Section LinkFacts.

Import Link.

(** What the first [Close] does to an open session. *)
Lemma Close_open_inv cs cs' err :
  Closed cs = false -> Close cs = Return cs' err ->
  err = None /\ Closed cs' = true /\
  ClosedCount cs' = i64 (ClosedCount cs + 1) /\
  Chan.closed (AudioInChan cs') = true /\
  Chan.closed (AudioOutChan cs') = true /\
  Chan.buf (AudioInChan cs') = Chan.buf (AudioInChan cs) /\
  Chan.buf (AudioOutChan cs') = Chan.buf (AudioOutChan cs).
Proof.
  intros Hc. unfold Close, Chan.close. rewrite Hc. simpl.
  destruct (Chan.closed (AudioInChan cs)); [discriminate|].
  destruct (Chan.closed (AudioOutChan cs)); [discriminate|].
  intros H. injection H as <- <-. simpl. repeat split; reflexivity.
Qed.

(** [Close] returns whenever the flag agrees with the channels. *)
Lemma Close_returns cs :
  (Closed cs = false ->
   Chan.closed (AudioInChan cs) = false /\
   Chan.closed (AudioOutChan cs) = false) ->
  exists cs', Close cs = Return cs' None /\ Closed cs' = true.
Proof.
  intros Hwf. unfold Close, Chan.close.
  destruct (Closed cs) eqn:Hc; [eauto|].
  destruct (Hwf eq_refl) as [Hin Hout]. simpl.
  rewrite Hin. simpl. rewrite Hout. simpl. eauto.
Qed.

Lemma Close_closed_noop cs : Closed cs = true -> Close cs = Return cs None.
Proof. intros Hc. unfold Close. rewrite Hc. reflexivity. Qed.

(** A track that is not a JSON string counts as missing. *)
Lemma media_track_not_string cs msg media :
  msg !! "media" = Some (JObject media) ->
  (forall t, media !! "track" <> Some (JString t)) ->
  handleMediaEvent cs msg = Return cs (Some "media event missing track").
Proof.
  intros Hmedia Hno. unfold handleMediaEvent. rewrite Hmedia.
  destruct (media !! "track") as [[]|] eqn:E; try reflexivity.
  exfalso. eapply Hno. reflexivity.
Qed.

(** A full [AudioInChan] drops the inbound chunk without any counter. *)
Lemma media_inbound_full_dropped cs msg media payload audioData :
  msg !! "media" = Some (JObject media) ->
  media !! "track" = Some (JString "inbound") ->
  media !! "payload" = Some (JString payload) ->
  Base64.DecodeString payload = Some audioData ->
  Chan.closed (AudioInChan cs) = false ->
  (Chan.cap (AudioInChan cs) <= length (Chan.buf (AudioInChan cs)))%nat ->
  handleMediaEvent cs msg = Return cs None.
Proof.
  intros Hmedia Htrack Hpayload Hdec Hopen Hfull. unfold handleMediaEvent.
  rewrite Hmedia, Htrack. simpl. rewrite Hpayload, Hdec.
  unfold Chan.trySend. rewrite Hopen.
  destruct (Nat.ltb_spec (length (Chan.buf (AudioInChan cs)))
              (Chan.cap (AudioInChan cs))); [lia|reflexivity].
Qed.

Lemma trySend_closed c v :
  Chan.closed c = true -> Chan.trySend c v = GoPanic "send on closed channel".
Proof. intros Hc. unfold Chan.trySend. rewrite Hc. reflexivity. Qed.

End LinkFacts.

(** C1.  A media event handled after [Close] does not come back with a
    Closed error: an inbound event with a decodable payload reaches the
    send on the closed [AudioInChan], which panics. *)
Theorem media_after_Close_panics
    (cs cs' : Link.SignalWireCallSession) (err : option string)
    (msg media : gmap string json) (payload : string) (audioData : list Z) :
  Link.Closed cs = false ->
  Link.Close cs = Return cs' err ->
  msg !! "media" = Some (JObject media) ->
  media !! "track" = Some (JString "inbound") ->
  media !! "payload" = Some (JString payload) ->
  Base64.DecodeString payload = Some audioData ->
  Link.handleMediaEvent cs' msg = Panic "send on closed channel".
Proof.
  intros Hopen Hclose Hmedia Htrack Hpayload Hdec.
  destruct (Close_open_inv _ _ _ Hopen Hclose) as (_ & _ & _ & Hin & _).
  unfold Link.handleMediaEvent.
  rewrite Hmedia, Htrack. simpl. rewrite Hpayload, Hdec.
  rewrite (trySend_closed _ _ Hin). reflexivity.
Qed.

Lemma media_after_Close_panics_witness :
  exists cs',
    Link.Close Fixtures.link0 = Return cs' None /\
    Link.handleMediaEvent cs' (Fixtures.mediaMsg "inbound" "TWFu")
      = Panic "send on closed channel".
Proof.
  eexists. split; [reflexivity|].
  eapply (media_after_Close_panics Fixtures.link0 _ None
            (Fixtures.mediaMsg "inbound" "TWFu") _ "TWFu" [77; 97; 110]);
    reflexivity.
Defined.

(** The outbound router meets the same fate on the link's closed
    [AudioOutChan]. *)
Lemma routeAIToPhone_after_Close_panics session cs cs' err x chunk latency :
  Link.Closed cs = false ->
  Link.Close cs = Return cs' err ->
  Bridge.routeAIToPhoneStep session cs' (x :: chunk) latency
    = Panic "send on closed channel".
Proof.
  intros Hopen Hclose.
  destruct (Close_open_inv _ _ _ Hopen Hclose) as (_ & _ & _ & _ & Hout & _).
  unfold Bridge.routeAIToPhoneStep, Bridge.processOutgoingAudio. simpl.
  rewrite (trySend_closed _ _ Hout). reflexivity.
Qed.

(** C6, as stated: the second [Close] leaves [ClosedCount] where the first
    one put it. *)
Lemma second_Close_does_not_bump : ~ SpecWords.secondCloseBumps Fixtures.link0.
Proof.
  intros H.
  pose (cs1 := Link.setConn
                 (Link.setAudioOutChan
                    (Link.setAudioInChan (Link.setClosed Fixtures.link0 true 1)
                       (Chan.Mk [] 100 true))
                    (Chan.Mk [] 100 true))
                 (Some (Link.MkConn [Link.CloseMessage 1000 EmptyString] true))).
  assert (Hc := H cs1 cs1 None None eq_refl eq_refl).
  vm_compute in Hc. discriminate.
Qed.

(** C6, amended.  [Close] is idempotent: once the session is closed a
    further call returns nil and leaves the whole session, [ClosedCount]
    included, as it was; and every outbound write on the closed session
    ([streamAudioToSignalWire], [SendEvent]) returns the error
    "session closed" without touching the connection. *)
Theorem Close_idempotent_and_writes_fail (cs : Link.SignalWireCallSession) :
  (Link.Closed cs = false ->
   Chan.closed (Link.AudioInChan cs) = false /\
   Chan.closed (Link.AudioOutChan cs) = false) ->
  exists cs',
    Link.Close cs = Return cs' None /\
    Link.Closed cs' = true /\
    Link.ClosedCount cs' =
      (if Link.Closed cs then Link.ClosedCount cs
       else i64 (Link.ClosedCount cs + 1)) /\
    Link.Close cs' = Return cs' None /\
    (forall audioData,
       Link.streamAudioToSignalWire cs' audioData
         = Return cs' (Some "session closed")) /\
    (forall eventType data,
       Link.SendEvent cs' eventType data = Return cs' (Some "session closed")).
Proof.
  intros Hwf. destruct (Close_returns cs Hwf) as (cs' & Hclose & Hc').
  exists cs'. split; [exact Hclose|]. split; [exact Hc'|]. split.
  - destruct (Link.Closed cs) eqn:Hc.
    + rewrite (Close_closed_noop cs Hc) in Hclose. injection Hclose as <-.
      reflexivity.
    + destruct (Close_open_inv _ _ _ Hc Hclose) as (_ & _ & Hn & _). exact Hn.
  - split; [apply Close_closed_noop; exact Hc'|]. split.
    + intros audioData. unfold Link.streamAudioToSignalWire. rewrite Hc'.
      reflexivity.
    + intros eventType data. unfold Link.SendEvent. rewrite Hc'. reflexivity.
Qed.

Lemma Close_idempotent_and_writes_fail_witness :
  exists cs',
    Link.Close Fixtures.link0 = Return cs' None /\
    Link.ClosedCount cs' = 1 /\
    Link.Close cs' = Return cs' None /\
    Link.streamAudioToSignalWire cs' [77; 97; 110]
      = Return cs' (Some "session closed").
Proof.
  destruct (Close_idempotent_and_writes_fail Fixtures.link0)
    as (cs' & H1 & _ & H3 & H4 & H5 & _).
  - intros _. split; reflexivity.
  - exists cs'. repeat split; [exact H1 | exact H3 | exact H4 | apply H5].
Defined.

(** C8.  A media event whose track is a string other than "inbound" is
    ignored: the handler returns nil and the session is left exactly as it
    was (nothing is enqueued on [AudioInChan], nothing is written, the
    closed flag is untouched), also when it arrives through
    [handleSignalWireMessage]. *)
Theorem media_other_track_ignored
    (cs : Link.SignalWireCallSession) (msg media : gmap string json)
    (track : string) (now : Z) :
  msg !! "event" = Some (JString "media") ->
  msg !! "media" = Some (JObject media) ->
  media !! "track" = Some (JString track) ->
  track <> "inbound" ->
  Link.handleMediaEvent cs msg = Return cs None /\
  Link.handleSignalWireMessage cs (Some msg) now = Return cs None.
Proof.
  intros Hev Hmedia Htrack Hne.
  assert (Link.handleMediaEvent cs msg = Return cs None) as Hh.
  { unfold Link.handleMediaEvent. rewrite Hmedia, Htrack.
    apply String.eqb_neq in Hne. rewrite Hne. reflexivity. }
  split; [exact Hh|].
  unfold Link.handleSignalWireMessage. rewrite Hev. simpl. exact Hh.
Qed.

Lemma media_other_track_ignored_witness :
  Link.handleMediaEvent Fixtures.link0 (Fixtures.mediaMsg "outbound" "TWFu")
    = Return Fixtures.link0 None /\
  Link.handleSignalWireMessage Fixtures.link0
    (Some (Fixtures.mediaMsg "outbound" "TWFu")) 0 = Return Fixtures.link0 None.
Proof.
  apply (media_other_track_ignored Fixtures.link0
           (Fixtures.mediaMsg "outbound" "TWFu")
           (<["track" := JString "outbound"]>
              (<["payload" := JString "TWFu"]> ∅)) "outbound" 0);
    [reflexivity | reflexivity | reflexivity | discriminate].
Defined.

(** * Registry *)

Section RegistryFacts.

Import Bridge.

Lemma CloseSession_absent bridge sessionID :
  sessions bridge !! sessionID = None ->
  CloseSession bridge sessionID
    = Return bridge (Some ("session not found: " +:+ sessionID)).
Proof. intros H. unfold CloseSession. rewrite H. reflexivity. Qed.

Lemma closeTimes_absent n : forall bridge sessionID,
  sessions bridge !! sessionID = None ->
  closeTimes n bridge sessionID
    = Ok (bridge, replicate n (Some ("session not found: " +:+ sessionID))).
Proof.
  induction n as [|n IH]; intros bridge sessionID H; simpl.
  - reflexivity.
  - rewrite (CloseSession_absent _ _ H), (IH _ _ H). reflexivity.
Qed.

Lemma CloseSession_present bridge sessionID addr session :
  sessions bridge !! sessionID = Some addr ->
  objects bridge !! addr = Some session ->
  Chan.closed (phoneToAIChan session) = false ->
  Chan.closed (aiToPhoneChan session) = false ->
  CloseSession bridge sessionID =
    Return
      (MkBridge
         (<[addr :=
              setAIToPhoneChan
                (setPhoneToAIChan (deactivate session)
                   (Chan.Mk (Chan.buf (phoneToAIChan session))
                      (Chan.cap (phoneToAIChan session)) true))
                (Chan.Mk (Chan.buf (aiToPhoneChan session))
                   (Chan.cap (aiToPhoneChan session)) true)]>
            (objects bridge))
         (delete sessionID (sessions bridge))
         (rootCancelled bridge)) None.
Proof.
  intros Hs Ho Hc1 Hc2. unfold CloseSession, Chan.close.
  rewrite Hs, Ho. simpl. rewrite Hc1. simpl. rewrite Hc2. reflexivity.
Qed.

(** The router's send on the session queue after the registry closed it. *)
Lemma sendPhoneToAI_closed_panics session chunk processed latency :
  Chan.closed (phoneToAIChan session) = true ->
  sendPhoneToAI session chunk processed latency
    = Panic "send on closed channel".
Proof.
  intros Hc. unfold sendPhoneToAI. rewrite (trySend_closed _ _ Hc).
  reflexivity.
Qed.

End RegistryFacts.

(** C3, as stated: closing "S1" twice, the second call returns the error
    "session not found: S1". *)
Lemma second_CloseSession_errors :
  ~ SpecWords.closeIdempotentClaim Fixtures.bridge1 "S1" 2.
Proof.
  intros (b' & H & _).
  unfold Bridge.closeTimes in H.
  rewrite (CloseSession_present Fixtures.bridge1 "S1" 0%nat
             (Bridge.MkBridgeSession "S1" "S1" None (Chan.make 500)
                (Chan.make 500) Bridge.telephonyFormat Bridge.telephonyFormat
                true false Bridge.zeroMetrics 0 None None false))
    in H by reflexivity.
  rewrite CloseSession_absent in H by (simpl; apply lookup_delete_eq).
  simpl in H. discriminate.
Qed.

(** C3, amended.  For a session present in the registry, the first
    [CloseSession] returns nil, marks the session inactive, cancels its
    scope, closes both queues and removes the map entry; every later call
    changes nothing and returns the error "session not found"; afterwards
    [GetSession] returns nil. *)
Theorem CloseSession_once_then_not_found
    (bridge : Bridge.AudioStreamBridge) (sessionID : string) (addr : nat)
    (session : Bridge.BridgeSession) (n : nat) :
  Bridge.sessions bridge !! sessionID = Some addr ->
  Bridge.objects bridge !! addr = Some session ->
  Chan.closed (Bridge.phoneToAIChan session) = false ->
  Chan.closed (Bridge.aiToPhoneChan session) = false ->
  exists bridge' session',
    Bridge.CloseSession bridge sessionID = Return bridge' None /\
    Bridge.objects bridge' !! addr = Some session' /\
    Bridge.Active session' = false /\
    Bridge.cancelled session' = true /\
    Chan.closed (Bridge.phoneToAIChan session') = true /\
    Chan.closed (Bridge.aiToPhoneChan session') = true /\
    Bridge.GetSession bridge' sessionID = None /\
    Bridge.closeTimes n bridge' sessionID
      = Ok (bridge', replicate n (Some ("session not found: " +:+ sessionID))).
Proof.
  intros Hs Ho Hc1 Hc2.
  eexists _, _. split; [apply (CloseSession_present _ _ _ _ Hs Ho Hc1 Hc2)|].
  split; [simpl; apply lookup_insert_eq|].
  repeat (split; [reflexivity|]).
  split.
  - unfold Bridge.GetSession. simpl. apply lookup_delete_eq.
  - apply closeTimes_absent. simpl. apply lookup_delete_eq.
Qed.

Lemma CloseSession_once_then_not_found_witness :
  exists bridge',
    Bridge.CloseSession Fixtures.bridge1 "S1" = Return bridge' None /\
    Bridge.GetSession bridge' "S1" = None /\
    Bridge.closeTimes 2 bridge' "S1"
      = Ok (bridge', [Some "session not found: S1"; Some "session not found: S1"]).
Proof.
  destruct (CloseSession_once_then_not_found Fixtures.bridge1 "S1" 0%nat
              (Bridge.MkBridgeSession "S1" "S1" None (Chan.make 500)
                 (Chan.make 500) Bridge.telephonyFormat Bridge.telephonyFormat
                 true false Bridge.zeroMetrics 0 None None false) 2)
    as (b' & s' & H1 & _ & _ & _ & _ & _ & H7 & H8);
    [reflexivity | reflexivity | reflexivity | reflexivity |].
  exists b'. split; [exact H1|]. split; [exact H7 | exact H8].
Defined.

(** * Session queues and metrics *)

Section QueueFacts.

Import Bridge.

Lemma i64_id z :
  -9223372036854775808 <= z <= 9223372036854775807 -> i64 z = z.
Proof. intros H. unfold i64. rewrite Z.mod_small; lia. Qed.

Lemma trySend_bounded c v c' :
  Chan.bounded c -> Chan.trySend c v = Ok (Chan.Sent c') ->
  Chan.bounded c' /\ Chan.cap c' = Chan.cap c.
Proof.
  unfold Chan.bounded, Chan.trySend. intros Hb.
  destruct (Chan.closed c); [discriminate|].
  destruct (Nat.ltb_spec (length (Chan.buf c)) (Chan.cap c)) as [Hlt|_];
    [|discriminate].
  intros Hs. injection Hs as <-. simpl. rewrite length_app. simpl. lia.
Qed.

Lemma sendPhoneToAI_room session chunk processed latency :
  Chan.closed (phoneToAIChan session) = false ->
  (length (Chan.buf (phoneToAIChan session))
     < Chan.cap (phoneToAIChan session))%nat ->
  exists session',
    sendPhoneToAI session chunk processed latency = Return session' None /\
    phoneToAIChan session' =
      Chan.Mk (Chan.buf (phoneToAIChan session) ++ [processed])
        (Chan.cap (phoneToAIChan session)) false /\
    PhoneToAIPacketsDropped (Metrics session')
      = PhoneToAIPacketsDropped (Metrics session) /\
    DroppedPackets (Metrics session') = DroppedPackets (Metrics session).
Proof.
  intros Hc Hlt. unfold sendPhoneToAI, Chan.trySend. rewrite Hc.
  destruct (Nat.ltb_spec (length (Chan.buf (phoneToAIChan session)))
              (Chan.cap (phoneToAIChan session))); [|lia].
  eexists. split; [reflexivity|]. simpl. repeat split; reflexivity.
Qed.

Lemma sendPhoneToAI_full session chunk processed latency :
  Chan.closed (phoneToAIChan session) = false ->
  (Chan.cap (phoneToAIChan session)
     <= length (Chan.buf (phoneToAIChan session)))%nat ->
  sendPhoneToAI session chunk processed latency
    = Return (setMetrics session (countPhoneToAIDropped (Metrics session)))
        None.
Proof.
  intros Hc Hle. unfold sendPhoneToAI, Chan.trySend. rewrite Hc.
  destruct (Nat.ltb_spec (length (Chan.buf (phoneToAIChan session)))
              (Chan.cap (phoneToAIChan session))); [lia|].
  reflexivity.
Qed.

(** The queue after a run of sends keeps the frames that found room, in
    arrival order; the others are counted as dropped, twice. *)
Lemma sendAllPhoneToAI_fill frames : forall session,
  Chan.closed (phoneToAIChan session) = false ->
  0 <= PhoneToAIPacketsDropped (Metrics session) ->
  PhoneToAIPacketsDropped (Metrics session) + Z.of_nat (length frames)
    < 2 ^ 63 ->
  0 <= DroppedPackets (Metrics session) ->
  DroppedPackets (Metrics session) + Z.of_nat (length frames) < 2 ^ 63 ->
  let room := (Chan.cap (phoneToAIChan session)
               - length (Chan.buf (phoneToAIChan session)))%nat in
  exists session',
    sendAllPhoneToAI session frames = Return session' None /\
    Chan.closed (phoneToAIChan session') = false /\
    Chan.cap (phoneToAIChan session') = Chan.cap (phoneToAIChan session) /\
    Chan.buf (phoneToAIChan session')
      = Chan.buf (phoneToAIChan session) ++ take room (map fst frames) /\
    PhoneToAIPacketsDropped (Metrics session')
      = PhoneToAIPacketsDropped (Metrics session)
        + Z.of_nat (length frames - room) /\
    DroppedPackets (Metrics session')
      = DroppedPackets (Metrics session) + Z.of_nat (length frames - room).
Proof.
  assert (2 ^ 63 = 9223372036854775808) as E63 by reflexivity.
  induction frames as [|[frame latency] rest IH];
    intros session Hc Hd1 Hb1 Hd2 Hb2 room.
  - exists session. simpl. rewrite take_nil, app_nil_r.
    repeat split; try reflexivity; try assumption; lia.
  - cbn [sendAllPhoneToAI]. cbn [length] in Hb1, Hb2.
    destruct (Nat.ltb_spec (length (Chan.buf (phoneToAIChan session)))
                (Chan.cap (phoneToAIChan session))) as [Hlt|Hge].
    + destruct (sendPhoneToAI_room session frame frame latency Hc Hlt)
        as (s1 & Hs1 & Hch & Hm1 & Hm2).
      rewrite Hs1.
      destruct (IH s1) as (s' & Hrun & Hcl & Hcap & Hbuf & Hp & Hq).
      * rewrite Hch. reflexivity.
      * lia.
      * lia.
      * lia.
      * lia.
      * exists s'. split; [exact Hrun|]. split; [exact Hcl|].
        rewrite Hch in Hcap, Hbuf, Hp, Hq. simpl in Hcap, Hbuf, Hp, Hq.
        rewrite length_app in Hbuf, Hp, Hq. simpl in Hbuf, Hp, Hq.
        split; [exact Hcap|].
        subst room.
        destruct (Chan.cap (phoneToAIChan session)
                  - length (Chan.buf (phoneToAIChan session)))%nat
          as [|k] eqn:Ek; [lia|].
        replace (Chan.cap (phoneToAIChan session)
                 - (length (Chan.buf (phoneToAIChan session)) + 1))%nat
          with k in Hbuf, Hp, Hq by lia.
        split; [|split].
        -- rewrite Hbuf, <- app_assoc. reflexivity.
        -- rewrite Hp, Hm1. reflexivity.
        -- rewrite Hq, Hm2. reflexivity.
    + rewrite (sendPhoneToAI_full session frame frame latency Hc Hge).
      destruct (IH (setMetrics session (countPhoneToAIDropped (Metrics session))))
        as (s' & Hrun & Hcl & Hcap & Hbuf & Hp & Hq); simpl.
      * exact Hc.
      * rewrite i64_id; lia.
      * rewrite i64_id; lia.
      * rewrite i64_id; lia.
      * rewrite i64_id; lia.
      * exists s'. split; [exact Hrun|]. split; [exact Hcl|].
        simpl in Hcap, Hbuf, Hp, Hq. split; [exact Hcap|].
        subst room.
        replace (Chan.cap (phoneToAIChan session)
                 - length (Chan.buf (phoneToAIChan session)))%nat
          with 0%nat in * by lia.
        rewrite i64_id in Hp, Hq by lia.
        split; [|split].
        -- rewrite Hbuf. reflexivity.
        -- rewrite Hp. simpl length. lia.
        -- rewrite Hq. simpl length. lia.
Qed.

(** On non-empty chunks the router loop is that run of sends. *)
Lemma routePhoneToAIRun_sends chunks : forall session,
  Forall (fun c => fst c <> []) chunks ->
  routePhoneToAIRun session chunks = sendAllPhoneToAI session chunks.
Proof.
  induction chunks as [|[chunk latency] rest IH]; intros session HF.
  - reflexivity.
  - inversion HF as [|? ? Hne HF']; subst. simpl in Hne.
    cbn [routePhoneToAIRun sendAllPhoneToAI]. unfold routePhoneToAIStep.
    destruct chunk as [|x chunk]; [congruence|]. simpl.
    destruct (sendPhoneToAI session (x :: chunk) (x :: chunk) latency);
      [apply IH; exact HF'|reflexivity].
Qed.

(** An empty chunk is skipped: neither queued nor counted. *)
Lemma routePhoneToAIStep_empty session latency :
  routePhoneToAIStep session [] latency = Return session None.
Proof. reflexivity. Qed.

End QueueFacts.

(** C7.  Session queues are created with capacity 500 and link queues with
    capacity 100; a send never leaves a queue above its capacity; and when
    [C + k] frames are pushed on an empty phone-to-pipeline queue of
    capacity [C] that nobody reads, every push returns, the queue ends up
    holding exactly the first [C] frames, and [PhoneToAIPacketsDropped] and
    [DroppedPackets] have each grown by [k], one per overflowing frame. *)
Theorem queue_bounded_and_overflow_dropped :
  (forall bridge sessionID now addr bridge',
     Bridge.CreateSession bridge sessionID now = Ok (addr, bridge') ->
     exists session,
       Bridge.objects bridge' !! addr = Some session /\
       Bridge.phoneToAIChan session = Chan.make 500 /\
       Bridge.aiToPhoneChan session = Chan.make 500) /\
  (forall id sessionID callSID conn,
     Link.AudioInChan (Link.newCallSession id sessionID callSID conn)
       = Chan.make 100 /\
     Link.AudioOutChan (Link.newCallSession id sessionID callSID conn)
       = Chan.make 100) /\
  (forall c v c',
     Chan.bounded c -> Chan.trySend c v = Ok (Chan.Sent c') ->
     Chan.bounded c' /\ Chan.cap c' = Chan.cap c) /\
  (forall session frames (k : nat),
     Chan.closed (Bridge.phoneToAIChan session) = false ->
     Chan.buf (Bridge.phoneToAIChan session) = [] ->
     length frames = (Chan.cap (Bridge.phoneToAIChan session) + k)%nat ->
     0 <= Bridge.PhoneToAIPacketsDropped (Bridge.Metrics session) ->
     Bridge.PhoneToAIPacketsDropped (Bridge.Metrics session)
       + Z.of_nat (length frames) < 2 ^ 63 ->
     0 <= Bridge.DroppedPackets (Bridge.Metrics session) ->
     Bridge.DroppedPackets (Bridge.Metrics session)
       + Z.of_nat (length frames) < 2 ^ 63 ->
     exists session',
       Bridge.sendAllPhoneToAI session frames = Return session' None /\
       Chan.cap (Bridge.phoneToAIChan session')
         = Chan.cap (Bridge.phoneToAIChan session) /\
       length (Chan.buf (Bridge.phoneToAIChan session'))
         = Chan.cap (Bridge.phoneToAIChan session) /\
       Chan.buf (Bridge.phoneToAIChan session')
         = take (Chan.cap (Bridge.phoneToAIChan session)) (map fst frames) /\
       Bridge.PhoneToAIPacketsDropped (Bridge.Metrics session')
         = Bridge.PhoneToAIPacketsDropped (Bridge.Metrics session) + Z.of_nat k /\
       Bridge.DroppedPackets (Bridge.Metrics session')
         = Bridge.DroppedPackets (Bridge.Metrics session) + Z.of_nat k).
Proof.
  split; [|split; [|split]].
  - intros bridge sessionID now addr bridge'. unfold Bridge.CreateSession.
    destruct (Bridge.sessions bridge !! sessionID); [discriminate|].
    intros H. injection H as <- <-. eexists. split.
    + simpl. apply lookup_insert_eq.
    + split; reflexivity.
  - intros. split; reflexivity.
  - apply trySend_bounded.
  - intros session frames k Hc Hbuf Hlen Hd1 Hb1 Hd2 Hb2.
    destruct (sendAllPhoneToAI_fill frames session Hc Hd1 Hb1 Hd2 Hb2)
      as (s' & Hrun & _ & Hcap & Hb & Hp & Hq).
    rewrite Hbuf in Hb, Hp, Hq. simpl in Hb, Hp, Hq.
    rewrite Nat.sub_0_r in Hb, Hp, Hq.
    exists s'. split; [exact Hrun|]. split; [exact Hcap|].
    split; [|split; [exact Hb|split]].
    + rewrite Hb, length_take, length_map. lia.
    + rewrite Hp. f_equal. lia.
    + rewrite Hq. f_equal. lia.
Qed.

Lemma queue_bounded_and_overflow_dropped_witness :
  exists session',
    Bridge.sendAllPhoneToAI Fixtures.session4
      (map (fun n => ([Z.of_nat n], 0)) (seq 1 10)) = Return session' None /\
    Chan.buf (Bridge.phoneToAIChan session') = [[1]; [2]; [3]; [4]] /\
    Bridge.PhoneToAIPacketsDropped (Bridge.Metrics session') = 6 /\
    Bridge.DroppedPackets (Bridge.Metrics session') = 6.
Proof.
  destruct (proj2 (proj2 (proj2 queue_bounded_and_overflow_dropped))
              Fixtures.session4
              (map (fun n => ([Z.of_nat n], 0)) (seq 1 10)) 6%nat)
    as (s' & H1 & _ & _ & H4 & H5 & H6);
    [reflexivity | reflexivity | reflexivity | simpl; lia | reflexivity
    | simpl; lia | reflexivity |].
  exists s'. split; [exact H1|]. split; [exact H4|]. split; [exact H5 | exact H6].
Defined.

Section LatencyFacts.

Import Bridge.

Lemma updateLatency_metrics session latencyUs :
  Metrics (updateLatency session latencyUs)
    = updateLatencyMetrics (Metrics session) latencyUs.
Proof. reflexivity. Qed.

Lemma updateLatencyMetrics_max m x :
  MaxLatencyUs (updateLatencyMetrics m x) = Z.max (MaxLatencyUs m) x.
Proof.
  unfold updateLatencyMetrics. simpl.
  destruct (Z.gtb_spec x (MaxLatencyUs m)); lia.
Qed.

Lemma updateLatencyMetrics_avg_first m x :
  AverageLatencyUs m = 0 -> AverageLatencyUs (updateLatencyMetrics m x) = x.
Proof. intros H. unfold updateLatencyMetrics. simpl. rewrite H. reflexivity. Qed.

Lemma updateLatencyMetrics_avg_next m x :
  0 < AverageLatencyUs m <= SpecWords.latencyBound -> 0 < x <= SpecWords.latencyBound ->
  AverageLatencyUs (updateLatencyMetrics m x)
    = (AverageLatencyUs m * 9 + x) / 10
  /\ 0 < (AverageLatencyUs m * 9 + x) / 10 <= SpecWords.latencyBound.
Proof.
  unfold SpecWords.latencyBound. intros Ha Hx. unfold updateLatencyMetrics. simpl.
  destruct (Z.eqb_spec (AverageLatencyUs m) 0) as [|_]; [lia|].
  rewrite (i64_id (AverageLatencyUs m * 9)) by lia.
  rewrite (i64_id (AverageLatencyUs m * 9 + x)) by lia.
  rewrite Z.quot_div_nonneg by lia.
  assert (0 < (AverageLatencyUs m * 9 + x) / 10 <= 922337203685477580) as Hr.
  { split.
    - apply Z.div_str_pos. lia.
    - apply Z.div_le_upper_bound; lia. }
  split; [|exact Hr]. apply i64_id. lia.
Qed.

Lemma observe_from xs : forall m,
  0 < AverageLatencyUs m <= SpecWords.latencyBound ->
  Forall (fun x => 0 < x <= SpecWords.latencyBound) xs ->
  AverageLatencyUs (fold_left updateLatencyMetrics xs m)
    = SpecWords.ewmaFrom (AverageLatencyUs m) xs /\
  MaxLatencyUs (fold_left updateLatencyMetrics xs m)
    = fold_left Z.max xs (MaxLatencyUs m).
Proof.
  induction xs as [|x xs IH]; intros m Ha HF.
  - split; reflexivity.
  - inversion HF as [|? ? Hx HF']; subst.
    destruct (updateLatencyMetrics_avg_next m x Ha Hx) as [Hav Hr].
    cbn [fold_left SpecWords.ewmaFrom].
    destruct (IH (updateLatencyMetrics m x)) as [H1 H2].
    + rewrite Hav. exact Hr.
    + exact HF'.
    + rewrite H1, H2, Hav, updateLatencyMetrics_max. split; reflexivity.
Qed.

End LatencyFacts.

(** While every observation is strictly positive (and at most
    922337203685477580 us, so that [avg*9 + x] stays inside int64) the
    average never returns to 0 and the code follows the recurrence:
    [avg = x1] on the first observation, [avg' = (avg*9 + x) / 10] on
    every later one, with [max] the running maximum. *)
Lemma updateLatency_ewma_positive (xs : list Z) :
  Forall (fun x => 0 < x <= SpecWords.latencyBound) xs ->
  SpecWords.latencyClaim xs.
Proof.
  intros HF. unfold SpecWords.latencyClaim, SpecWords.observe.
  destruct xs as [|x1 rest]; [split; reflexivity|].
  inversion HF as [|? ? Hx HF']; subst.
  cbn [fold_left SpecWords.ewma SpecWords.runningMax].
  destruct (observe_from rest (Bridge.updateLatencyMetrics Bridge.zeroMetrics x1))
    as [H1 H2].
  - rewrite updateLatencyMetrics_avg_first by reflexivity. exact Hx.
  - exact HF'.
  - rewrite H1, H2, updateLatencyMetrics_avg_first by reflexivity.
    rewrite updateLatencyMetrics_max. simpl Bridge.MaxLatencyUs.
    rewrite Z.max_r by lia. split; reflexivity.
Qed.

Lemma updateLatency_ewma_positive_witness :
  SpecWords.latencyClaim [100; 200; 50].
Proof.
  apply (updateLatency_ewma_positive [100; 200; 50]).
  unfold SpecWords.latencyBound. repeat constructor; lia.
Defined.

Section LatencyRestart.

Import Bridge.

Lemma ewmaFrom_snoc xs x : forall avg,
  SpecWords.ewmaFrom avg (xs ++ [x])
    = (SpecWords.ewmaFrom avg xs * 9 + x) / 10.
Proof.
  induction xs as [|y xs IH]; intros avg; [reflexivity|].
  cbn [app SpecWords.ewmaFrom]. apply IH.
Qed.

Lemma ewma_snoc xs x :
  xs <> [] ->
  SpecWords.ewma (xs ++ [x]) = (SpecWords.ewma xs * 9 + x) / 10.
Proof.
  destruct xs as [|x1 rest]; [contradiction|]. intros _.
  cbn [app SpecWords.ewma]. apply ewmaFrom_snoc.
Qed.

Lemma observe_snoc xs x :
  SpecWords.observe (xs ++ [x])
    = updateLatencyMetrics (SpecWords.observe xs) x.
Proof. unfold SpecWords.observe. rewrite fold_left_app. reflexivity. Qed.

End LatencyRestart.

(** C9.  The average is not the stated recurrence: [updateLatency]
    recognises the first observation by [AverageLatencyUs == 0], so whenever
    the stored average is 0 after some observations (after a reading of
    0 us, or after small readings have decayed to 0, as in 1, 0), the next
    positive observation [x] replaces the average by [x] instead of
    [(0*9 + x) / 10]; the stated behaviour then fails at that observation
    at the latest. *)
Theorem updateLatency_restarts_after_zero (xs : list Z) (x : Z) :
  xs <> [] ->
  Bridge.AverageLatencyUs (SpecWords.observe xs) = 0 ->
  0 < x ->
  Bridge.AverageLatencyUs (SpecWords.observe (xs ++ [x])) = x /\
  x <> (Bridge.AverageLatencyUs (SpecWords.observe xs) * 9 + x) / 10 /\
  ~ (SpecWords.latencyClaim xs /\ SpecWords.latencyClaim (xs ++ [x])).
Proof.
  intros Hne Hz Hx.
  assert (x / 10 < x) as Hlt by (apply Z.div_lt; lia).
  assert (Bridge.AverageLatencyUs (SpecWords.observe (xs ++ [x])) = x) as Hrestart.
  { rewrite observe_snoc. unfold Bridge.updateLatencyMetrics.
    rewrite Hz. reflexivity. }
  split; [exact Hrestart|]. split.
  - rewrite Hz. change (0 * 9 + x) with x. lia.
  - intros [[Havg _] [Havg' _]].
    rewrite Hrestart, (ewma_snoc xs x Hne), <- Havg, Hz in Havg'.
    change (0 * 9 + x) with x in Havg'. lia.
Qed.

Lemma updateLatency_restarts_after_zero_witness :
  Bridge.AverageLatencyUs (SpecWords.observe [0; 100]) = 100 /\
  Bridge.AverageLatencyUs (SpecWords.observe [1; 0; 100]) = 100 /\
  ~ (SpecWords.latencyClaim [0] /\ SpecWords.latencyClaim [0; 100]).
Proof.
  destruct (updateLatency_restarts_after_zero [0] 100
              ltac:(discriminate) ltac:(reflexivity) ltac:(lia))
    as (H1 & _ & H3).
  destruct (updateLatency_restarts_after_zero [1; 0] 100
              ltac:(discriminate) ltac:(reflexivity) ltac:(lia))
    as (H1' & _ & _).
  split; [exact H1|]. split; [exact H1'|exact H3].
Defined.

(** * Further properties of the codec *)

Section CodecMore.

Import Codec Converter.

Lemma in_bytes256 z : 0 <= z < 256 -> In z Enum.bytes256.
Proof.
  intros Hz. unfold Enum.bytes256. apply in_map_iff.
  exists (Z.to_nat z). split; [lia|]. apply in_seq. lia.
Qed.

Lemma allBytes_spec (P : Z -> bool) :
  Enum.allBytes P = true -> forall z, 0 <= z < 256 -> P z = true.
Proof.
  unfold Enum.allBytes. rewrite forallb_forall. intros H z Hz.
  apply H, in_bytes256, Hz.
Qed.

Lemma allWords_spec (P : Z -> bool) :
  Enum.allWords P = true -> forall z, 0 <= z < 65536 -> P z = true.
Proof.
  unfold Enum.allWords. rewrite forallb_forall. intros H z Hz.
  pose proof (Z.div_mod z 256 ltac:(lia)) as Hdm.
  pose proof (Z.mod_pos_bound z 256 ltac:(lia)) as Hm.
  assert (0 <= z / 256 < 256) as Hd.
  { split; [apply Z.div_pos; lia|apply Z.div_lt_upper_bound; lia]. }
  specialize (H (z / 256) (in_bytes256 _ Hd)).
  rewrite forallb_forall in H. specialize (H (z mod 256) (in_bytes256 _ Hm)).
  replace (z mod 256 + 256 * (z / 256)) with z in H by lia. exact H.
Qed.

(** Writing a 16-bit sample little-endian and reading it back. *)
Lemma sample_bytes_sample s :
  -32768 <= s <= 32767 ->
  i16 (Uint16 (u8 (u16 s)) (u8 (Z.shiftr (u16 (u16 s)) 8))) = s.
Proof.
  intros Hs.
  assert (Enum.allWords
            (fun z => i16 (Uint16 (u8 (u16 (z - 32768)))
                             (u8 (Z.shiftr (u16 (u16 (z - 32768))) 8)))
                      =? z - 32768) = true) as H
    by (vm_compute; reflexivity).
  pose proof (allWords_spec _ H (s + 32768) ltac:(lia)) as Hz.
  simpl in Hz. apply Z.eqb_eq in Hz.
  replace (s + 32768 - 32768) with s in Hz by lia. exact Hz.
Qed.

(** Reading two bytes as a sample and writing it back. *)
Lemma bytes_sample_bytes lo hi :
  0 <= lo < 256 -> 0 <= hi < 256 ->
  PutUint16 (u16 (i16 (Uint16 lo hi))) = [lo; hi].
Proof.
  intros Hlo Hhi.
  assert (Enum.allWords
            (fun z =>
               let lo := z mod 256 in
               let hi := z / 256 in
               match PutUint16 (u16 (i16 (Uint16 lo hi))) with
               | [a; b] => (a =? lo) && (b =? hi)
               | _ => false
               end) = true) as H
    by (vm_compute; reflexivity).
  pose proof (allWords_spec _ H (lo + 256 * hi) ltac:(lia)) as Hz.
  cbv beta zeta in Hz.
  assert ((lo + 256 * hi) mod 256 = lo) as E1.
  { rewrite (Z.mul_comm 256 hi), Z_mod_plus_full. apply Z.mod_small. lia. }
  assert ((lo + 256 * hi) / 256 = hi) as E2.
  { rewrite (Z.mul_comm 256 hi), Z.div_add by lia.
    rewrite Z.div_small by lia. lia. }
  rewrite E1, E2 in Hz.
  unfold PutUint16 in *.
  apply andb_true_iff in Hz. destruct Hz as [H1 H2].
  apply Z.eqb_eq in H1, H2. rewrite H1, H2. reflexivity.
Qed.

Lemma samplesLE_pcm16 samples :
  Forall (fun s => -32768 <= s <= 32767) samples ->
  samplesLE (pcm16 samples) = samples.
Proof.
  induction 1 as [|s rest Hs _ IH]; [reflexivity|].
  unfold pcm16 in *. cbn [flat_map]. unfold PutUint16 at 1.
  cbn [app samplesLE]. rewrite IH. f_equal.
  apply sample_bytes_sample. exact Hs.
Qed.

Lemma pcm16_samplesLE_aux n : forall data,
  (length data <= n)%nat -> Z.of_nat (length data) mod 2 = 0 ->
  isFrame data -> pcm16 (samplesLE data) = data.
Proof.
  induction n as [|n IH]; intros [|lo [|hi rest]] Hlen Hev HF;
    try reflexivity; try (cbn [length] in Hlen; lia);
    try (vm_compute in Hev; discriminate).
  inversion HF as [|? ? Hlo HF']; subst.
  inversion HF' as [|? ? Hhi HF'']; subst.
  cbn [samplesLE]. unfold pcm16. cbn [flat_map].
  rewrite (bytes_sample_bytes lo hi Hlo Hhi). cbn [app]. do 2 f_equal.
  apply IH; [cbn [length] in Hlen; lia| |exact HF''].
  cbn [length] in Hev.
  replace (Z.of_nat (S (S (length rest)))) with (Z.of_nat (length rest) + 1 * 2)
    in Hev by lia.
  rewrite Z_mod_plus_full in Hev. exact Hev.
Qed.

Lemma pcm16_samplesLE data :
  Z.of_nat (length data) mod 2 = 0 -> isFrame data ->
  pcm16 (samplesLE data) = data.
Proof. apply (pcm16_samplesLE_aux (length data)). lia. Qed.

Lemma length_pcm16 samples : length (pcm16 samples) = (2 * length samples)%nat.
Proof.
  unfold pcm16. induction samples as [|s rest IH]; [reflexivity|].
  cbn [flat_map]. rewrite length_app, IH. simpl. lia.
Qed.

Lemma length_samplesLE_aux n : forall data,
  (length data <= n)%nat ->
  Z.of_nat (length (samplesLE data)) = Z.of_nat (length data) / 2.
Proof.
  induction n as [|n IH]; intros [|lo [|hi rest]] Hlen; simpl in *;
    try reflexivity; try lia.
  rewrite Nat2Z.inj_succ, IH by lia.
  replace (Z.of_nat (S (S (length rest)))) with (Z.of_nat (length rest) + 1 * 2)
    by lia.
  rewrite Z.div_add by lia. lia.
Qed.

Lemma length_samplesLE data :
  Z.of_nat (length (samplesLE data)) = Z.of_nat (length data) / 2.
Proof. apply (length_samplesLE_aux (length data)). lia. Qed.

Lemma decodeMulawSample_range y : -32768 <= decodeMulawSample y <= 32767.
Proof. unfold decodeMulawSample. apply i16_range. Qed.

Lemma decodeMulaw_pcm16 mulawData :
  decodeMulaw mulawData = Ok (pcm16 (map decodeMulawSample mulawData)).
Proof.
  unfold decodeMulaw, pcm16. f_equal.
  induction mulawData as [|b rest IH]; [reflexivity|].
  cbn [flat_map map]. rewrite IH. reflexivity.
Qed.

Lemma encodeMulaw_even pcmData :
  Z.of_nat (length pcmData) mod 2 = 0 ->
  encodeMulaw pcmData = Ok (map linearToMulaw (samplesLE pcmData)).
Proof. intros H. unfold encodeMulaw. rewrite H. reflexivity. Qed.

Lemma encodeMulaw_odd pcmData :
  Z.of_nat (length pcmData) mod 2 <> 0 ->
  encodeMulaw pcmData = Err "PCM data length must be even (16-bit samples)".
Proof.
  intros H. unfold encodeMulaw.
  destruct (Z.eqb_spec (Z.of_nat (length pcmData) mod 2) 0); [lia|reflexivity].
Qed.

Lemma linearToMulaw_byte_sign s :
  -32768 <= s <= 32767 ->
  0 <= linearToMulaw s < 256 /\
  Z.testbit (linearToMulaw s) 7 = negb (s <? 0).
Proof.
  intros Hs.
  assert (Enum.allWords
            (fun z =>
               let s := z - 32768 in
               (0 <=? linearToMulaw s) && (linearToMulaw s <? 256)
               && Bool.eqb (Z.testbit (linearToMulaw s) 7) (negb (s <? 0)))
          = true) as H
    by (vm_compute; reflexivity).
  pose proof (allWords_spec _ H (s + 32768) ltac:(lia)) as Hz.
  cbv beta zeta in Hz. replace (s + 32768 - 32768) with s in Hz by lia.
  apply andb_true_iff in Hz. destruct Hz as [Hz H3].
  apply andb_true_iff in Hz. destruct Hz as [H1 H2].
  apply Bool.eqb_prop in H3. split; [lia|exact H3].
Qed.

End CodecMore.

(** C5.  The encoder does not keep the mantissa inside its four-bit field.
    For a 16-bit sample, the mantissa [magnitude >> (exponent+1)] computed
    by [linearToMulaw] is a four-bit value exactly when the sample's
    absolute value is below 4096 and is none of 32, 64, 128, 256, 512,
    1024, 2048; and the byte returned is the one described by "smallest
    exponent such that the magnitude fits the mantissa field" exactly for
    those samples.  For every other sample the mantissa overlaps the
    exponent bits of [(exponent<<4) | mantissa]: the sample 32 gives
    exponent 0, mantissa 16 and the byte 0xEF instead of 0xE7. *)
Theorem linearToMulaw_mantissa_spills (sample : Z) :
  -32768 <= sample <= 32767 ->
  let mag := Codec.magnitude sample in
  let exponent := Codec.exponentLoop 7 0 mag in
  let mantissa := Z.shiftr mag (exponent + 1) in
  (0 <= mantissa < 16 <->
   Z.abs sample < 4096 /\
   ~ In (Z.abs sample) [32; 64; 128; 256; 512; 1024; 2048]) /\
  (SpecWords.encodeClaim sample <-> 0 <= mantissa < 16).
Proof.
  intros Hs. cbv zeta.
  assert (Enum.allWords
            (fun z =>
               let s := z - 32768 in
               let mag := Codec.magnitude s in
               let mantissa := Z.shiftr mag (Codec.exponentLoop 7 0 mag + 1) in
               let fits := (0 <=? mantissa) && (mantissa <? 16) in
               Bool.eqb fits
                 ((Z.abs s <? 4096)
                  && negb (existsb (Z.eqb (Z.abs s))
                             [32; 64; 128; 256; 512; 1024; 2048]))
               && Bool.eqb fits
                    match SpecWords.encodeSample s with
                    | Some b => b =? Codec.linearToMulaw s
                    | None => false
                    end)
          = true) as H
    by (vm_compute; reflexivity).
  pose proof (allWords_spec _ H (sample + 32768) ltac:(lia)) as Hz.
  cbv beta zeta in Hz.
  replace (sample + 32768 - 32768) with sample in Hz by lia.
  apply andb_true_iff in Hz. destruct Hz as [H1 H2].
  apply Bool.eqb_prop in H1. apply Bool.eqb_prop in H2.
  set (mantissa := Z.shiftr (Codec.magnitude sample)
                     (Codec.exponentLoop 7 0 (Codec.magnitude sample) + 1)) in *.
  assert (0 <= mantissa < 16 <-> (0 <=? mantissa) && (mantissa <? 16) = true)
    as Hfits.
  { rewrite andb_true_iff, Z.leb_le, Z.ltb_lt. reflexivity. }
  split.
  - rewrite Hfits, H1, andb_true_iff, Z.ltb_lt, negb_true_iff.
    rewrite <- not_true_iff_false, existsb_exists.
    split; intros [Ha Hn]; (split; [exact Ha|]).
    + intros Hin. apply Hn. exists (Z.abs sample).
      split; [exact Hin|apply Z.eqb_refl].
    + intros (x & Hin & Hx). apply Z.eqb_eq in Hx. subst x. exact (Hn Hin).
  - rewrite Hfits, H2. unfold SpecWords.encodeClaim.
    destruct (SpecWords.encodeSample sample) as [b|].
    + rewrite Z.eqb_eq. split; [intros [= ->]; reflexivity|intros ->; reflexivity].
    + split; discriminate.
Qed.

Lemma linearToMulaw_mantissa_spills_witness :
  ~ SpecWords.encodeClaim 32 /\
  Codec.encodeMulaw (Codec.pcm16 [32]) = Ok [0xEF] /\
  SpecWords.encodeSample 32 = Some 0xE7.
Proof.
  destruct (linearToMulaw_mantissa_spills 32 ltac:(lia)) as [_ Hclaim].
  split; [|split; reflexivity].
  intros Hc. apply Hclaim in Hc. vm_compute in Hc.
  destruct Hc as [_ Hc]. discriminate Hc.
Defined.

Section CodecExtras.

Import Codec Converter.

Lemma testbit7_byte b : 0 <= b < 256 -> Z.testbit b 7 = (128 <=? b).
Proof.
  intros Hb.
  assert (Enum.allBytes (fun b => Bool.eqb (Z.testbit b 7) (128 <=? b)) = true)
    as H by (vm_compute; reflexivity).
  apply Bool.eqb_prop. exact (allBytes_spec _ H b Hb).
Qed.

Lemma decodeMulawSample_facts y :
  0 <= y < 256 ->
  decodeMulawSample (Z.lxor y 0x80) = - decodeMulawSample y /\
  132 <= Z.abs (decodeMulawSample y) <= 32256 /\
  (decodeMulawSample y <? 0) = (y <? 128).
Proof.
  intros Hy.
  assert (Enum.allBytes
            (fun y =>
               (decodeMulawSample (Z.lxor y 0x80) =? - decodeMulawSample y)
               && (132 <=? Z.abs (decodeMulawSample y))
               && (Z.abs (decodeMulawSample y) <=? 32256)
               && Bool.eqb (decodeMulawSample y <? 0) (y <? 128)) = true)
    as H by (vm_compute; reflexivity).
  pose proof (allBytes_spec _ H y Hy) as Hz. cbv beta in Hz.
  repeat (apply andb_true_iff in Hz; destruct Hz as [Hz ?]).
  apply Bool.eqb_prop in H0. split; [lia|]. split; [lia|exact H0].
Qed.

End CodecExtras.

(** X1.  [decodeMulaw] never fails: it returns two bytes per mu-law byte,
    and reading the result back as little-endian 16-bit samples gives the
    decoded sample of every input byte, in order. *)
Theorem decodeMulaw_layout (mulawData : list Z) :
  exists pcmData,
    Codec.decodeMulaw mulawData = Ok pcmData /\
    length pcmData = (2 * length mulawData)%nat /\
    Codec.samplesLE pcmData = map Codec.decodeMulawSample mulawData.
Proof.
  eexists. split; [apply decodeMulaw_pcm16|]. split.
  - rewrite length_pcm16, length_map. reflexivity.
  - apply samplesLE_pcm16. apply Forall_forall. intros s Hs.
    apply list_elem_of_In, in_map_iff in Hs. destruct Hs as (y & <- & _).
    apply decodeMulawSample_range.
Qed.

(** X2.  The decoder is odd-symmetric and never silent: flipping the top
    bit of a mu-law byte negates the decoded sample, bytes below 0x80
    decode to negative samples and the others to positive ones, and every
    decoded magnitude lies between 132 and 32256 (0 is never produced). *)
Theorem decodeMulawSample_symmetric_nonzero (y : Z) :
  0 <= y < 256 ->
  Codec.decodeMulawSample (Z.lxor y 0x80) = - Codec.decodeMulawSample y /\
  132 <= Z.abs (Codec.decodeMulawSample y) <= 32256 /\
  (Codec.decodeMulawSample y < 0 <-> y < 128).
Proof.
  intros Hy. destruct (decodeMulawSample_facts y Hy) as (H1 & H2 & H3).
  split; [exact H1|]. split; [exact H2|].
  destruct (Z.ltb_spec (Codec.decodeMulawSample y) 0);
    destruct (Z.ltb_spec y 128); try discriminate; lia.
Qed.

Lemma decodeMulawSample_symmetric_nonzero_witness :
  Codec.decodeMulawSample 0x7F = - Codec.decodeMulawSample 0xFF /\
  Codec.decodeMulawSample 0xFF = 132.
Proof.
  destruct (decodeMulawSample_symmetric_nonzero 0xFF) as (H1 & _ & _); [lia|].
  split; [exact H1|reflexivity].
Defined.

(** X3.  The decoder is injective on bytes, and within each sign half a
    larger byte decodes to a smaller magnitude. *)
Theorem decodeMulawSample_injective_monotone (y1 y2 : Z) :
  0 <= y1 < 256 -> 0 <= y2 < 256 ->
  (Codec.decodeMulawSample y1 = Codec.decodeMulawSample y2 -> y1 = y2) /\
  (y1 < y2 -> (y2 < 128 \/ 128 <= y1) ->
   Z.abs (Codec.decodeMulawSample y2) < Z.abs (Codec.decodeMulawSample y1)).
Proof.
  intros H1 H2.
  assert (Enum.allWords
            (fun z =>
               let y1 := z mod 256 in
               let y2 := z / 256 in
               let d1 := Codec.decodeMulawSample y1 in
               let d2 := Codec.decodeMulawSample y2 in
               (negb (d1 =? d2) || (y1 =? y2))
               && (negb ((y1 <? y2) && ((y2 <? 128) || (128 <=? y1)))
                   || (Z.abs d2 <? Z.abs d1))) = true)
    as H by (vm_compute; reflexivity).
  pose proof (allWords_spec _ H (y1 + 256 * y2) ltac:(lia)) as Hz.
  cbv beta zeta in Hz.
  assert ((y1 + 256 * y2) mod 256 = y1) as E1.
  { rewrite (Z.mul_comm 256 y2), Z_mod_plus_full. apply Z.mod_small. lia. }
  assert ((y1 + 256 * y2) / 256 = y2) as E2.
  { rewrite (Z.mul_comm 256 y2), Z.div_add by lia.
    rewrite Z.div_small by lia. lia. }
  rewrite E1, E2 in Hz. apply andb_true_iff in Hz. destruct Hz as [Ha Hb].
  split.
  - intros Heq. rewrite Heq, Z.eqb_refl in Ha. simpl in Ha.
    apply Z.eqb_eq in Ha. exact Ha.
  - intros Hlt Hhalf.
    destruct (Z.ltb_spec y1 y2); [|lia].
    destruct (Z.ltb_spec y2 128); destruct (Z.leb_spec 128 y1);
      simpl in Hb; try lia; apply Z.ltb_lt in Hb; exact Hb.
Qed.

Lemma decodeMulawSample_injective_monotone_witness :
  Z.abs (Codec.decodeMulawSample 0xFF) < Z.abs (Codec.decodeMulawSample 0x80).
Proof.
  destruct (decodeMulawSample_injective_monotone 0x80 0xFF) as [_ H];
    [lia | lia |].
  apply H; lia.
Defined.

(** X4.  On an even-length frame [encodeMulaw] returns one byte per 16-bit
    sample; every byte is in [0, 255] and its top bit is set exactly when
    the sample is not negative. *)
Theorem encodeMulaw_bytes_and_sign (pcmData : list Z) :
  Z.of_nat (length pcmData) mod 2 = 0 ->
  exists out,
    Codec.encodeMulaw pcmData = Ok out /\
    Z.of_nat (length out) = Z.of_nat (length pcmData) / 2 /\
    forall i sample,
      Codec.samplesLE pcmData !! i = Some sample ->
      exists b, out !! i = Some b /\ 0 <= b < 256 /\
                Z.testbit b 7 = negb (sample <? 0).
Proof.
  intros Hev. eexists. split; [apply (encodeMulaw_even _ Hev)|]. split.
  - rewrite length_map. apply length_samplesLE.
  - intros i sample Hs. exists (Codec.linearToMulaw sample).
    change (map ?f ?l) with (f <$> l). rewrite list_lookup_fmap, Hs.
    split; [reflexivity|].
    apply linearToMulaw_byte_sign. exact (samplesLE_range _ _ _ Hs).
Qed.

Lemma encodeMulaw_bytes_and_sign_witness :
  exists out, Codec.encodeMulaw (Codec.pcm16 [1000; -1000]) = Ok out /\
              Z.of_nat (length out) = 2.
Proof.
  destruct (encodeMulaw_bytes_and_sign (Codec.pcm16 [1000; -1000]))
    as (out & H1 & H2 & _); [reflexivity|].
  exists out. split; [exact H1|exact H2].
Defined.

(** X5.  Encoding and decoding again may change the magnitude, but never
    the sign: for every 16-bit sample the decoded value of its mu-law byte
    is negative exactly when the sample is. *)
Theorem mulaw_encode_decode_keeps_sign (sample : Z) :
  -32768 <= sample <= 32767 ->
  (Codec.decodeMulawSample (Codec.linearToMulaw sample) < 0 <-> sample < 0).
Proof.
  intros Hs. destruct (linearToMulaw_byte_sign sample Hs) as [Hb Hbit].
  destruct (decodeMulawSample_facts _ Hb) as (_ & _ & Hneg).
  rewrite (testbit7_byte _ Hb) in Hbit.
  destruct (Z.ltb_spec (Codec.decodeMulawSample (Codec.linearToMulaw sample)) 0);
    destruct (Z.ltb_spec (Codec.linearToMulaw sample) 128);
    destruct (Z.leb_spec 128 (Codec.linearToMulaw sample));
    destruct (Z.ltb_spec sample 0); simpl in *; try discriminate; lia.
Qed.

Lemma mulaw_encode_decode_keeps_sign_witness :
  Codec.decodeMulawSample (Codec.linearToMulaw (-5000)) < 0.
Proof.
  apply (mulaw_encode_decode_keeps_sign (-5000)); lia.
Defined.

(** * Interpolation at half-sample positions *)

Section InterpFacts.

Import Codec Converter Interp.

Lemma truncQ_comp (q r : Q) : (q == r)%Q -> truncQ q = truncQ r.
Proof.
  intros H. unfold truncQ.
  rewrite (Qleb_comp 0%Q 0%Q (Qeq_refl 0%Q) q r H), (Qfloor_comp q r H).
  rewrite (Qfloor_comp (- q)%Q (- r)%Q) by (rewrite H; reflexivity).
  reflexivity.
Qed.

Lemma truncQ_half (num : Z) : truncQ (num # 2) = Z.quot num 2.
Proof.
  unfold truncQ, Qle_bool, Qfloor. simpl Qnum. simpl Qden.
  destruct (Z.leb_spec (0 * 2) (num * 1)).
  - rewrite Z.quot_div_nonneg by lia. reflexivity.
  - change (- (num # 2))%Q with ((- num) # 2). cbv beta iota.
    assert (num < 0) as Hneg by lia.
    pose proof (Z.quot_div_nonneg (- num) 2 ltac:(lia) ltac:(lia)) as E.
    rewrite <- E, Z.quot_opp_l by lia. lia.
Qed.

Lemma truncQ_inject (z : Z) : truncQ (inject_Z z) = z.
Proof.
  unfold truncQ, Qle_bool, Qfloor, inject_Z. simpl.
  destruct (Z.leb_spec (0 * 1) (z * 1)); rewrite ?Z.div_1_r; lia.
Qed.

Lemma clampZ_range v : -32768 <= clampZ v <= 32767.
Proof.
  unfold clampZ. destruct (Z.gtb_spec v 32767); [lia|].
  destruct (Z.ltb_spec v (-32768)); lia.
Qed.

Lemma clampZ_id v : -32768 <= v <= 32767 -> clampZ v = v.
Proof.
  intros H. unfold clampZ. destruct (Z.gtb_spec v 32767); [lia|].
  destruct (Z.ltb_spec v (-32768)); lia.
Qed.

Lemma clampQ_comp (x x' : Q) : (x == x')%Q -> (clampQ x == clampQ x')%Q.
Proof.
  intros H. unfold clampQ.
  rewrite (Qleb_comp x x' H _ _ (Qeq_refl (inject_Z MaxInt16))).
  rewrite (Qleb_comp _ _ (Qeq_refl (inject_Z MinInt16)) x x' H).
  destruct (Qle_bool x' _); [|reflexivity].
  destruct (Qle_bool _ x'); [exact H|reflexivity].
Qed.

Lemma emit_comp s1 s2 (f f' : Q) : (f == f')%Q -> emit s1 s2 f = emit s1 s2 f'.
Proof.
  intros H. unfold emit. do 3 f_equal.
  apply truncQ_comp, clampQ_comp. rewrite H. reflexivity.
Qed.

(** At a fraction of [t] halves the float interpolation is the integer
    expression of [halfStep]. *)
Lemma emit_halves s1 s2 t :
  emit s1 s2 (t # 2)
    = PutUint16 (u16 (i16 (clampZ (Z.quot (s1 * (2 - t) + s2 * t) 2)))).
Proof.
  unfold emit. do 3 f_equal.
  set (num := s1 * (2 - t) + s2 * t).
  assert ((inject_Z s1 * (1 - (t # 2)) + inject_Z s2 * (t # 2)) == num # 2)%Q
    as Hq.
  { unfold num, Qeq, Qplus, Qmult, Qminus, Qopp, inject_Z. simpl. lia. }
  rewrite (truncQ_comp _ _ (clampQ_comp _ _ Hq)).
  unfold clampQ, Qle_bool, MaxInt16, MinInt16, clampZ, inject_Z.
  cbn [Qnum Qden].
  pose proof (Z.quot_rem' num 2) as Hqr.
  assert (-2 < Z.rem num 2 < 2) as Hrem.
  { pose proof (Z.rem_bound_abs num 2 ltac:(lia)). lia. }
  assert (0 <= num -> 0 <= Z.rem num 2) as Hrp.
  { intros. apply Z.rem_nonneg; lia. }
  assert (num <= 0 -> Z.rem num 2 <= 0) as Hrn.
  { intros. apply Z.rem_nonpos; lia. }
  destruct (Z.leb_spec (num * 1) (32767 * 2)).
  - destruct (Z.leb_spec (-32768 * 2) (num * 1)).
    + rewrite truncQ_half.
      destruct (Z.gtb_spec (Z.quot num 2) 32767); [lia|].
      destruct (Z.ltb_spec (Z.quot num 2) (-32768)); lia.
    + change (truncQ (-32768 # 1)) with (-32768).
      destruct (Z.gtb_spec (Z.quot num 2) 32767); [lia|].
      destruct (Z.ltb_spec (Z.quot num 2) (-32768)); lia.
  - change (truncQ (32767 # 1)) with 32767.
    destruct (Z.gtb_spec (Z.quot num 2) 32767); [lia|].
    destruct (Z.ltb_spec (Z.quot num 2) (-32768)); lia.
Qed.

Lemma readSample_sampleAt_aux n : forall pcmData k,
  (length pcmData <= n)%nat ->
  0 <= k -> (k + 1) * 2 <= Z.of_nat (length pcmData) ->
  readSample pcmData k = Ok (sampleAt pcmData k).
Proof.
  induction n as [|n IH]; intros [|lo [|hi rest]] k Hlen Hk Hb;
    cbn [length] in *; try lia.
  destruct (Z.eq_dec k 0) as [->|Hne].
  - unfold readSample, sampleAt. cbn [length].
    destruct (Z.ltb_spec (Z.of_nat (S (S (length rest)))) ((0 + 1) * 2));
      [lia|reflexivity].
  - specialize (IH rest (k - 1) ltac:(lia) ltac:(lia) ltac:(lia)).
    unfold readSample in *. cbn [length].
    destruct (Z.ltb_spec (k * 2) 0); [lia|].
    destruct (Z.ltb_spec ((k - 1) * 2) 0); [lia|].
    destruct (Z.ltb_spec (Z.of_nat (S (S (length rest)))) ((k + 1) * 2)); [lia|].
    destruct (Z.ltb_spec (Z.of_nat (length rest)) ((k - 1 + 1) * 2)); [lia|].
    simpl orb in *. cbv iota in *.
    replace (Z.to_nat (k * 2)) with (S (S (Z.to_nat ((k - 1) * 2)))) by lia.
    replace (Z.to_nat (k * 2 + 1)) with (S (S (Z.to_nat ((k - 1) * 2 + 1))))
      by lia.
    cbn [lookup list_lookup]. simpl in IH. 
    unfold sampleAt in *. cbn [samplesLE].
    replace (Z.to_nat k) with (S (Z.to_nat (k - 1))) by lia. cbn [nth].
    exact IH.
Qed.

Lemma readSample_sampleAt pcmData k :
  0 <= k -> (k + 1) * 2 <= Z.of_nat (length pcmData) ->
  readSample pcmData k = Ok (sampleAt pcmData k).
Proof. apply (readSample_sampleAt_aux (length pcmData)). lia. Qed.

(** One output sample when the source position is [p/2]. *)
Lemma resampleAt_halves pcmData n (ratio : Q) i p :
  2 <= n -> n * 2 <= Z.of_nat (length pcmData) -> 0 <= p ->
  (inject_Z i * ratio == p # 2)%Q ->
  resampleAt pcmData n ratio i
    = Ok (PutUint16 (u16 (i16 (halfStep pcmData n p)))).
Proof.
  intros Hn Hlen Hp Hpos.
  assert (truncQ (inject_Z i * ratio) = p / 2) as Ht.
  { rewrite (truncQ_comp _ _ Hpos), truncQ_half.
    apply Z.quot_div_nonneg; lia. }
  assert (0 <= p / 2) as Hp2 by (apply Z.div_pos; lia).
  set (j := if p / 2 >=? n - 1 then n - 2 else p / 2).
  assert (srcIndexOf n (inject_Z i * ratio) = j) as Hj.
  { unfold srcIndexOf. rewrite Ht. reflexivity. }
  assert (0 <= j /\ j + 1 <= n - 1) as [Hj0 Hj1].
  { subst j. destruct (Z.geb_spec (p / 2) (n - 1)); lia. }
  unfold resampleAt. rewrite Hj.
  rewrite (readSample_sampleAt pcmData j) by lia.
  rewrite (readSample_sampleAt pcmData (j + 1)) by lia.
  cbn [mbind outcome_bind].
  change (Ok (emit (sampleAt pcmData j) (sampleAt pcmData (j + 1))
                (inject_Z i * ratio - inject_Z j))
          = Ok (PutUint16 (u16 (i16 (halfStep pcmData n p))))).
  f_equal.
  rewrite (emit_comp _ _ _ ((p - 2 * j) # 2)).
  - rewrite emit_halves. reflexivity.
  - rewrite Hpos. unfold Qeq, Qminus, Qplus, Qopp, inject_Z. simpl. lia.
Qed.

Lemma resampleLoop_halves pcmData n (ratio : Q) c idx :
  2 <= n -> n * 2 <= Z.of_nat (length pcmData) -> 0 <= c ->
  (forall i, inject_Z i * ratio == (c * i) # 2)%Q ->
  Forall (fun i => 0 <= i) idx ->
  resampleLoop pcmData n ratio idx
    = Ok (pcm16 (map (fun i => halfStep pcmData n (c * i)) idx)).
Proof.
  intros Hn Hlen Hc Hr. induction idx as [|i rest IH]; intros HF.
  - reflexivity.
  - inversion HF as [|? ? Hi HF']; subst.
    cbn [resampleLoop map].
    rewrite (resampleAt_halves pcmData n ratio i (c * i) Hn Hlen ltac:(nia) (Hr i)).
    cbn [mbind outcome_bind]. rewrite (IH HF'). cbn [mbind outcome_bind].
    unfold pcm16. cbn [flat_map].
    rewrite (i16_id (halfStep _ _ _)) by apply clampZ_range. reflexivity.
Qed.

Lemma ratio_halves fromRate toRate c i :
  0 < fromRate -> 0 < toRate -> 2 * fromRate = c * toRate ->
  (inject_Z i * (inject_Z fromRate / inject_Z toRate) == (c * i) # 2)%Q.
Proof.
  intros Hf Ht Hc. destruct toRate as [|t|t]; try lia.
  unfold Qeq, Qdiv, Qmult, Qinv, inject_Z. simpl. nia.
Qed.

(** The whole resampler when the source positions fall on half samples:
    [2 * fromRate = c * toRate]. *)
Lemma resamplePCM16_halves pcmData fromRate toRate c :
  Z.of_nat (length pcmData) mod 2 = 0 ->
  4 <= Z.of_nat (length pcmData) ->
  0 < fromRate -> 0 < toRate -> 2 * fromRate = c * toRate ->
  Z.of_nat (length pcmData) / 2 * toRate < 2 ^ 63 ->
  Z.of_nat (length pcmData) / 2 * toRate / fromRate * 2 <= maxAlloc ->
  resamplePCM16 pcmData fromRate toRate
    = Ok (pcm16
            (map (fun i => halfStep pcmData (Z.of_nat (length pcmData) / 2) (c * i))
               (map Z.of_nat
                  (seq 0 (Z.to_nat (Z.of_nat (length pcmData) / 2 * toRate
                                    / fromRate)))))).
Proof.
  intros Hev Hlen Hf Ht Hc Hb Ha. unfold resamplePCM16.
  assert (2 ^ 63 = 9223372036854775808) as E63 by reflexivity.
  assert (maxAlloc = 281474976710656) as E48 by reflexivity.
  rewrite Hev. simpl negb. cbv iota.
  destruct (Z.eqb_spec fromRate 0) as [|_]; [lia|].
  set (n := Z.of_nat (length pcmData) / 2) in *.
  assert (2 <= n) as Hn by (subst n; apply Z.div_le_lower_bound; lia).
  assert (n * 2 <= Z.of_nat (length pcmData)) as Hn2.
  { subst n. pose proof (Z.mul_div_le (Z.of_nat (length pcmData)) 2). lia. }
  assert (i64 (n * toRate) = n * toRate) as ->.
  { unfold i64. rewrite Z.mod_small; nia. }
  rewrite Z.quot_div_nonneg by nia.
  assert (0 <= n * toRate / fromRate <= n * toRate) as Hq.
  { split; [apply Z.div_pos; nia|]. apply Z.div_le_upper_bound; nia. }
  assert (i64 (n * toRate / fromRate) = n * toRate / fromRate) as ->.
  { unfold i64. rewrite Z.mod_small; lia. }
  assert (i64 (n * toRate / fromRate * 2) = n * toRate / fromRate * 2) as ->.
  { unfold i64. rewrite Z.mod_small; lia. }
  cbv zeta.
  destruct (Z.ltb_spec (n * toRate / fromRate * 2) 0) as [|_]; [lia|].
  destruct (Z.ltb_spec maxAlloc (n * toRate / fromRate * 2)) as [|_]; [lia|].
  cbn [orb].
  apply resampleLoop_halves; try assumption.
  - nia.
  - intros i. apply ratio_halves; assumption.
  - apply Forall_forall. intros i Hi. apply list_elem_of_In in Hi.
    apply in_map_iff in Hi. destruct Hi as (k & <- & _). lia.
Qed.

End InterpFacts.

Section ResampleShapes.

Import Codec Converter Interp.

Lemma sampleAt_lookup pcmData (k : nat) s :
  samplesLE pcmData !! k = Some s -> sampleAt pcmData (Z.of_nat k) = s.
Proof.
  intros H. unfold sampleAt. rewrite Nat2Z.id.
  rewrite nth_lookup, H. reflexivity.
Qed.

Lemma samplesLE_lookup_lt pcmData (k : nat) s :
  samplesLE pcmData !! k = Some s ->
  Z.of_nat k < Z.of_nat (length pcmData) / 2.
Proof.
  intros H. apply lookup_lt_Some in H.
  rewrite <- length_samplesLE. lia.
Qed.

Lemma lookup_map_range (f : Z -> Z) (N m : nat) :
  (m < N)%nat ->
  map f (map Z.of_nat (seq 0 N)) !! m = Some (f (Z.of_nat m)).
Proof.
  intros H. change (map f (map Z.of_nat (seq 0 N)))
    with (f <$> (Z.of_nat <$> seq 0 N)).
  rewrite !list_lookup_fmap, lookup_seq_lt by lia. reflexivity.
Qed.

Lemma halfStep_range pcmData n p : -32768 <= halfStep pcmData n p <= 32767.
Proof. unfold halfStep. apply clampZ_range. Qed.

Lemma samplesLE_halfSteps pcmData n c idx :
  samplesLE (pcm16 (map (fun i => halfStep pcmData n (c * i)) idx))
    = map (fun i => halfStep pcmData n (c * i)) idx.
Proof.
  apply samplesLE_pcm16. apply Forall_forall. intros s Hs.
  apply list_elem_of_In, in_map_iff in Hs. destruct Hs as (i & <- & _).
  apply halfStep_range.
Qed.

(** The sample at a whole source position [k] of the frame. *)
Lemma halfStep_whole pcmData n (k : nat) s :
  2 <= n -> Z.of_nat k < n ->
  n = Z.of_nat (length pcmData) / 2 ->
  samplesLE pcmData !! k = Some s ->
  halfStep pcmData n (2 * Z.of_nat k) = s.
Proof.
  intros Hn Hk Hlen Hs. unfold halfStep.
  replace (2 * Z.of_nat k / 2) with (Z.of_nat k)
    by (rewrite Z.mul_comm, Z.div_mul; lia).
  pose proof (samplesLE_range _ _ _ Hs) as Hr.
  destruct (Z.geb_spec (Z.of_nat k) (n - 1)).
  - assert (Z.of_nat k = n - 1) as Ek by lia.
    replace (n - 2 + 1) with (Z.of_nat k) by lia.
    rewrite (sampleAt_lookup _ _ _ Hs).
    replace (2 * Z.of_nat k - 2 * (n - 2)) with 2 by lia.
    replace (sampleAt pcmData (n - 2) * (2 - 2) + s * 2) with (s * 2) by lia.
    rewrite Z.quot_mul by lia. apply clampZ_id. lia.
  - rewrite (sampleAt_lookup _ _ _ Hs).
    replace (2 * Z.of_nat k - 2 * Z.of_nat k) with 0 by lia.
    replace (s * (2 - 0) + sampleAt pcmData (Z.of_nat k + 1) * 0) with (s * 2)
      by lia.
    rewrite Z.quot_mul by lia. apply clampZ_id. lia.
Qed.

(** The sample half way between the input samples [k] and [k+1]. *)
Lemma halfStep_between pcmData n (k : nat) a b :
  Z.of_nat k + 1 < n ->
  samplesLE pcmData !! k = Some a ->
  samplesLE pcmData !! (k + 1)%nat = Some b ->
  halfStep pcmData n (2 * Z.of_nat k + 1) = Z.quot (a + b) 2.
Proof.
  intros Hk Ha Hb. unfold halfStep.
  replace ((2 * Z.of_nat k + 1) / 2) with (Z.of_nat k).
  2:{ rewrite Z.add_comm, Z.mul_comm, Z.div_add by lia.
      rewrite Z.div_small by lia. lia. }
  pose proof (samplesLE_range _ _ _ Ha) as Hra.
  pose proof (samplesLE_range _ _ _ Hb) as Hrb.
  destruct (Z.geb_spec (Z.of_nat k) (n - 1)); [lia|].
  rewrite (sampleAt_lookup _ _ _ Ha).
  replace (Z.of_nat k + 1) with (Z.of_nat (k + 1)) by lia.
  rewrite (sampleAt_lookup _ _ _ Hb).
  replace (2 * Z.of_nat k + 1 - 2 * Z.of_nat k) with 1 by lia.
  replace (a * (2 - 1) + b * 1) with (a + b) by lia.
  apply clampZ_id.
  pose proof (Z.quot_rem' (a + b) 2) as Hqr.
  pose proof (Z.rem_bound_abs (a + b) 2 ltac:(lia)). lia.
Qed.

(** The sample half a step past the last input sample. *)
Lemma halfStep_past_end pcmData n a b :
  2 <= n ->
  samplesLE pcmData !! Z.to_nat (n - 2) = Some a ->
  samplesLE pcmData !! Z.to_nat (n - 1) = Some b ->
  halfStep pcmData n (2 * n - 1) = clampZ (Z.quot (3 * b - a) 2).
Proof.
  intros Hn Ha Hb. unfold halfStep.
  replace ((2 * n - 1) / 2) with (n - 1).
  2:{ replace (2 * n - 1) with (1 + (n - 1) * 2) by lia.
      rewrite Z.div_add by lia. rewrite Z.div_small by lia. lia. }
  destruct (Z.geb_spec (n - 1) (n - 1)); [|lia].
  replace (n - 2) with (Z.of_nat (Z.to_nat (n - 2))) at 1 by lia.
  rewrite (sampleAt_lookup _ _ _ Ha).
  replace (n - 2 + 1) with (Z.of_nat (Z.to_nat (n - 1))) by lia.
  rewrite (sampleAt_lookup _ _ _ Hb).
  f_equal. f_equal. lia.
Qed.

Lemma samplesLE_as_sampleAt pcmData :
  map (sampleAt pcmData)
      (map Z.of_nat (seq 0 (length (samplesLE pcmData))))
    = samplesLE pcmData.
Proof.
  apply list_eq. intros m.
  destruct (samplesLE pcmData !! m) as [s|] eqn:E.
  - pose proof (lookup_lt_Some _ _ _ E) as Hm.
    rewrite (lookup_map_range _ _ _ Hm).
    rewrite (sampleAt_lookup _ _ _ E). reflexivity.
  - apply lookup_ge_None in E. apply lookup_ge_None.
    rewrite !length_map, length_seq. exact E.
Qed.

End ResampleShapes.

Lemma resamplePCM16_up2 (pcmData : list Z) :
  Z.of_nat (length pcmData) mod 2 = 0 ->
  4 <= Z.of_nat (length pcmData) < 2 ^ 40 ->
  exists out,
    Codec.resamplePCM16 pcmData 8000 16000 = Ok out /\
    length out = (2 * length pcmData)%nat /\
    (forall (k : nat) s,
       Codec.samplesLE pcmData !! k = Some s ->
       Codec.samplesLE out !! (2 * k)%nat = Some s) /\
    (forall (k : nat) a b,
       Codec.samplesLE pcmData !! k = Some a ->
       Codec.samplesLE pcmData !! (k + 1)%nat = Some b ->
       Codec.samplesLE out !! (2 * k + 1)%nat = Some (Z.quot (a + b) 2)) /\
    (forall a b,
       Codec.samplesLE pcmData !! (length pcmData / 2 - 2)%nat = Some a ->
       Codec.samplesLE pcmData !! (length pcmData / 2 - 1)%nat = Some b ->
       Codec.samplesLE out !! (length pcmData - 1)%nat
         = Some (Interp.clampZ (Z.quot (3 * b - a) 2))).
Proof.
  intros Hev [Hlo Hhi].
  assert (2 ^ 40 = 1099511627776) as E40 by reflexivity.
  assert (2 ^ 63 = 9223372036854775808) as E63 by reflexivity.
  set (n := Z.of_nat (length pcmData) / 2).
  assert (Z.of_nat (length pcmData) = 2 * n) as Hn2.
  { subst n. pose proof (Z.div_mod (Z.of_nat (length pcmData)) 2 ltac:(lia)).
    lia. }
  assert (2 <= n) as Hn by lia.
  pose proof (resamplePCM16_halves pcmData 8000 16000 1 Hev Hlo ltac:(lia)
                ltac:(lia) ltac:(lia) ltac:(fold n; lia)) as Hres.
  fold n in Hres.
  replace (n * 16000 / 8000) with (2 * n) in Hres.
  2:{ replace (n * 16000) with (2 * n * 8000) by lia.
      rewrite Z.div_mul by lia. reflexivity. }
  assert (maxAlloc = 281474976710656) as E48 by reflexivity.
  specialize (Hres ltac:(lia)).
  eexists. split; [exact Hres|]. rewrite samplesLE_halfSteps.
  split; [rewrite length_pcm16, !length_map, length_seq; lia|].
  assert (Z.to_nat (Z.of_nat (length pcmData) / 2) = (length pcmData / 2)%nat)
    as Hdiv.
  { rewrite <- (Nat2Z.id (length pcmData / 2)). f_equal.
    rewrite Nat2Z.inj_div. reflexivity. }
  split; [|split].
  - intros k s Hs. pose proof (samplesLE_lookup_lt _ _ _ Hs) as Hk. fold n in Hk.
    rewrite lookup_map_range by lia. f_equal.
    replace (1 * Z.of_nat (2 * k)) with (2 * Z.of_nat k) by lia.
    apply halfStep_whole; try assumption; reflexivity.
  - intros k a b Ha Hb.
    pose proof (samplesLE_lookup_lt _ _ _ Hb) as Hk. fold n in Hk.
    rewrite lookup_map_range by lia. f_equal.
    replace (1 * Z.of_nat (2 * k + 1)) with (2 * Z.of_nat k + 1) by lia.
    apply halfStep_between; try assumption. lia.
  - intros a b Ha Hb.
    rewrite lookup_map_range by lia. f_equal.
    replace (1 * Z.of_nat (length pcmData - 1)) with (2 * n - 1) by lia.
    apply halfStep_past_end; [exact Hn| |].
    + replace (Z.to_nat (n - 2)) with (length pcmData / 2 - 2)%nat; [exact Ha|].
      subst n. lia.
    + replace (Z.to_nat (n - 1)) with (length pcmData / 2 - 1)%nat; [exact Hb|].
      subst n. lia.
Qed.

(** X6.  Upsampling by two (8000 Hz to 16000 Hz), for every frame of two
    or more samples: the call returns twice as many samples; the output
    sample [2k] is the input sample [k]; the output sample [2k+1] between
    two input samples is their mean truncated toward zero; and the last
    output sample, which has no right-hand neighbour, is the saturated
    extrapolation [(3*b - a) / 2] of the last two input samples [a], [b]. *)
Theorem resample_upsample_by_two (pcmData : list Z) :
  Z.of_nat (length pcmData) mod 2 = 0 ->
  4 <= Z.of_nat (length pcmData) < 2 ^ 40 ->
  exists out,
    Codec.resamplePCM16 pcmData 8000 16000 = Ok out /\
    length out = (2 * length pcmData)%nat /\
    (forall (k : nat) s,
       Codec.samplesLE pcmData !! k = Some s ->
       Codec.samplesLE out !! (2 * k)%nat = Some s) /\
    (forall (k : nat) a b,
       Codec.samplesLE pcmData !! k = Some a ->
       Codec.samplesLE pcmData !! (k + 1)%nat = Some b ->
       Codec.samplesLE out !! (2 * k + 1)%nat = Some (Z.quot (a + b) 2)) /\
    (forall a b,
       Codec.samplesLE pcmData !! (length pcmData / 2 - 2)%nat = Some a ->
       Codec.samplesLE pcmData !! (length pcmData / 2 - 1)%nat = Some b ->
       Codec.samplesLE out !! (length pcmData - 1)%nat
         = Some (Interp.clampZ (Z.quot (3 * b - a) 2))).
Proof.
  intros Hev Hb.
  destruct (resamplePCM16_up2 pcmData Hev Hb) as (out & H1 & H2 & H3 & H4 & H5).
  exists out. split; [exact H1|]. split; [exact H2|]. split; [exact H3|].
  split; [exact H4|exact H5].
Qed.

Lemma resample_upsample_by_two_witness :
  exists out,
    Codec.resamplePCM16 (Codec.pcm16 [100; 301; -7]) 8000 16000 = Ok out /\
    Codec.samplesLE out !! 3%nat = Some 147 /\
    Codec.samplesLE out !! 5%nat = Some (-161).
Proof.
  destruct (resample_upsample_by_two (Codec.pcm16 [100; 301; -7]))
    as (out & H1 & _ & _ & H3 & H4); [reflexivity | split; [vm_compute; discriminate|reflexivity] |].
  exists out. split; [exact H1|]. split.
  - apply (H3 1%nat 301 (-7)); reflexivity.
  - apply (H4 301 (-7)); reflexivity.
Defined.

Lemma resamplePCM16_down2 (pcmData : list Z) :
  Z.of_nat (length pcmData) mod 2 = 0 ->
  4 <= Z.of_nat (length pcmData) < 2 ^ 40 ->
  exists out,
    Codec.resamplePCM16 pcmData 16000 8000 = Ok out /\
    Z.of_nat (length (Codec.samplesLE out)) = Z.of_nat (length pcmData) / 2 / 2 /\
    (forall (k : nat) s,
       Z.of_nat k < Z.of_nat (length pcmData) / 2 / 2 ->
       Codec.samplesLE pcmData !! (2 * k)%nat = Some s ->
       Codec.samplesLE out !! k = Some s).
Proof.
  intros Hev [Hlo Hhi].
  assert (2 ^ 40 = 1099511627776) as E40 by reflexivity.
  assert (2 ^ 63 = 9223372036854775808) as E63 by reflexivity.
  set (n := Z.of_nat (length pcmData) / 2).
  assert (Z.of_nat (length pcmData) = 2 * n) as Hn2.
  { subst n. pose proof (Z.div_mod (Z.of_nat (length pcmData)) 2 ltac:(lia)).
    lia. }
  assert (2 <= n) as Hn by lia.
  pose proof (resamplePCM16_halves pcmData 16000 8000 4 Hev Hlo ltac:(lia)
                ltac:(lia) ltac:(lia) ltac:(fold n; lia)) as Hres.
  fold n in Hres.
  replace (n * 8000 / 16000) with (n / 2) in Hres.
  2:{ change 16000 with (2 * 8000).
      rewrite Z.div_mul_cancel_r by lia. reflexivity. }
  assert (0 <= n / 2) as Hh by (apply Z.div_pos; lia).
  pose proof (Z.mul_div_le n 2 ltac:(lia)) as Hmd.
  assert (maxAlloc = 281474976710656) as E48 by reflexivity.
  specialize (Hres ltac:(lia)).
  eexists. split; [exact Hres|]. rewrite samplesLE_halfSteps.
  split; [rewrite !length_map, length_seq; lia|].
  intros k s Hk Hs. rewrite lookup_map_range by lia. f_equal.
  replace (4 * Z.of_nat k) with (2 * Z.of_nat (2 * k)) by lia.
  apply halfStep_whole; try assumption; [lia|reflexivity].
Qed.

(** X7.  Downsampling by two (16000 Hz to 8000 Hz), for every frame of two
    or more samples: the call returns half as many samples (rounded down),
    and output sample [k] is input sample [2k] unchanged, so every second
    sample is dropped without any averaging. *)
Theorem resample_downsample_by_two (pcmData : list Z) :
  Z.of_nat (length pcmData) mod 2 = 0 ->
  4 <= Z.of_nat (length pcmData) < 2 ^ 40 ->
  exists out,
    Codec.resamplePCM16 pcmData 16000 8000 = Ok out /\
    Z.of_nat (length (Codec.samplesLE out)) = Z.of_nat (length pcmData) / 2 / 2 /\
    (forall (k : nat) s,
       Z.of_nat k < Z.of_nat (length pcmData) / 2 / 2 ->
       Codec.samplesLE pcmData !! (2 * k)%nat = Some s ->
       Codec.samplesLE out !! k = Some s).
Proof.
  intros Hev Hb.
  destruct (resamplePCM16_down2 pcmData Hev Hb) as (out & H1 & H2 & H3).
  exists out. split; [exact H1|]. split; [exact H2|exact H3].
Qed.

Lemma resample_downsample_by_two_witness :
  exists out,
    Codec.resamplePCM16 (Codec.pcm16 [100; 301; -7; 9; 55]) 16000 8000 = Ok out /\
    Codec.samplesLE out = [100; -7].
Proof.
  destruct (resample_downsample_by_two (Codec.pcm16 [100; 301; -7; 9; 55]))
    as (out & H1 & _ & _); [reflexivity | split; [vm_compute; discriminate|reflexivity] |].
  exists out. split; [exact H1|].
  vm_compute in H1. injection H1 as <-. reflexivity.
Defined.

(** X8.  Resampling to the same rate is the identity on every frame of two
    or more samples.  The frame is a Go slice, so it is no larger than the
    allocation limit, and the output buffer of the same size can be made. *)
Theorem resample_same_rate_identity (pcmData : list Z) (rate : Z) :
  Z.of_nat (length pcmData) mod 2 = 0 ->
  4 <= Z.of_nat (length pcmData) <= maxAlloc ->
  Converter.isFrame pcmData ->
  0 < rate -> Z.of_nat (length pcmData) / 2 * rate < 2 ^ 63 ->
  Codec.resamplePCM16 pcmData rate rate = Ok pcmData.
Proof.
  intros Hev [Hlo Hmax] HF Hr Hb.
  set (n := Z.of_nat (length pcmData) / 2) in *.
  assert (2 <= n) as Hn by (subst n; apply Z.div_le_lower_bound; lia).
  assert (n * rate / rate * 2 <= maxAlloc) as Ha.
  { rewrite Z.div_mul by lia. subst n.
    pose proof (Z.mul_div_le (Z.of_nat (length pcmData)) 2 ltac:(lia)). lia. }
  rewrite (resamplePCM16_halves pcmData rate rate 2 Hev Hlo Hr Hr ltac:(lia) Hb Ha).
  fold n. rewrite Z.div_mul by lia. f_equal.
  transitivity (Codec.pcm16 (Codec.samplesLE pcmData));
    [f_equal|apply (pcm16_samplesLE pcmData Hev HF)].
  rewrite <- (samplesLE_as_sampleAt pcmData).
  assert (Z.to_nat n = length (Codec.samplesLE pcmData)) as ->.
  { subst n. rewrite <- length_samplesLE. lia. }
  apply list_eq. intros m.
  change (map ?f (map ?g ?l)) with (f <$> (g <$> l)).
  rewrite !list_lookup_fmap.
  destruct (seq 0 (length (Codec.samplesLE pcmData)) !! m) as [i|] eqn:E;
    [|reflexivity].
  simpl. f_equal.
  apply lookup_seq in E. destruct E as [-> Hm]. simpl.
  destruct (Codec.samplesLE pcmData !! m) as [s|] eqn:Es.
  2:{ apply lookup_ge_None in Es. lia. }
  rewrite (sampleAt_lookup _ _ _ Es).
  apply halfStep_whole; try assumption; [|reflexivity].
  fold n. subst n. rewrite <- length_samplesLE. lia.
Qed.

Lemma resample_same_rate_identity_witness :
  Codec.resamplePCM16 (Codec.pcm16 [100; 301; -7]) 8000 8000
    = Ok (Codec.pcm16 [100; 301; -7]).
Proof.
  apply (resample_same_rate_identity (Codec.pcm16 [100; 301; -7]) 8000);
    [reflexivity | split; vm_compute; discriminate | | lia | reflexivity].
  unfold Converter.isFrame. vm_compute. repeat constructor; discriminate.
Defined.

(** X9.  For any positive rates, an even-length frame that is empty or
    holds two or more samples is resampled to exactly
    [floor(samples * toRate / fromRate)] samples, without a panic, when the
    output buffer of twice that many bytes is within the allocation limit;
    when it is not, the call panics in [make] before reading a sample.
    Neither the length nor the absence of a panic depends on how the source
    positions are rounded: whatever index the truncation gives, the bounds
    check brings it into the frame. *)
Theorem resample_output_length (pcmData : list Z) (fromRate toRate : Z) :
  Z.of_nat (length pcmData) mod 2 = 0 ->
  length pcmData <> 2%nat ->
  0 < fromRate -> 0 < toRate ->
  Z.of_nat (length pcmData) / 2 * toRate < 2 ^ 63 ->
  let numOutputSamples := Z.of_nat (length pcmData) / 2 * toRate / fromRate in
  if numOutputSamples * 2 <=? maxAlloc then
    exists out,
      Codec.resamplePCM16 pcmData fromRate toRate = Ok out /\
      Z.of_nat (length out) = 2 * numOutputSamples
  else
    Codec.resamplePCM16 pcmData fromRate toRate
      = GoPanic "makeslice: len out of range".
Proof.
  intros Hev Hne Hf Ht Hb. cbv zeta.
  destruct (Z.leb_spec (Z.of_nat (length pcmData) / 2 * toRate / fromRate * 2)
              maxAlloc) as [Hfit|Hbig].
  - destruct pcmData as [|lo [|hi [|x rest]]].
    + exists []. unfold Codec.resamplePCM16. simpl.
      destruct (Z.eqb_spec fromRate 0) as [|_]; [lia|].
      split; reflexivity.
    + vm_compute in Hev. discriminate.
    + contradiction.
    + apply resamplePCM16_two_or_more; try assumption.
      destruct rest; [vm_compute in Hev; discriminate|]. cbn [length]. lia.
  - apply resamplePCM16_too_large; assumption.
Qed.

Lemma resample_output_length_witness :
  exists out,
    Codec.resamplePCM16 (Codec.pcm16 [1; 2; 3; 4; 5; 6; 7]) 16000 11025 = Ok out /\
    Z.of_nat (length out) = 8.
Proof.
  pose proof (resample_output_length (Codec.pcm16 [1; 2; 3; 4; 5; 6; 7])
                16000 11025 eq_refl ltac:(discriminate) ltac:(lia) ltac:(lia)
                eq_refl) as H.
  destruct H as (out & H1 & H2).
  exists out. split; [exact H1|exact H2].
Defined.

(** * Converter pipelines *)

Section ConverterFacts.

Import Codec Converter.

Lemma resamplePCM16_one_sample_up lo hi :
  resamplePCM16 [lo; hi] 8000 16000 = GoPanic "slice bounds out of range".
Proof.
  unfold resamplePCM16.
  change (resampleLoop [lo; hi] 1 (inject_Z 8000 / inject_Z 16000) [0; 1]
          = GoPanic "slice bounds out of range").
  cbn [resampleLoop]. rewrite resampleAt_single. reflexivity.
Qed.

Lemma ConvertAudio_mulaw_pcm data :
  ConvertAudio data AudioFormatMulaw AudioFormatPCM = MulawToPCM16kHz data.
Proof. reflexivity. Qed.

Lemma ConvertAudio_pcm_mulaw data :
  ConvertAudio data AudioFormatPCM AudioFormatMulaw = PCM16kHzToMulaw data.
Proof. reflexivity. Qed.

Lemma MulawToPCM16kHz_up2 mulawData :
  2 <= Z.of_nat (length mulawData) < 2 ^ 38 ->
  exists out,
    MulawToPCM16kHz mulawData = Ok out /\
    length out = (4 * length mulawData)%nat /\
    (forall (k : nat) y,
       mulawData !! k = Some y ->
       samplesLE out !! (2 * k)%nat = Some (decodeMulawSample y)) /\
    (forall (k : nat) y1 y2,
       mulawData !! k = Some y1 -> mulawData !! (k + 1)%nat = Some y2 ->
       samplesLE out !! (2 * k + 1)%nat
         = Some (Z.quot (decodeMulawSample y1 + decodeMulawSample y2) 2)).
Proof.
  intros [Hlo Hhi].
  assert (2 ^ 38 = 274877906944) as E38 by reflexivity.
  assert (2 ^ 40 = 1099511627776) as E40 by reflexivity.
  unfold MulawToPCM16kHz. rewrite decodeMulaw_pcm16. cbn [wrapErr mbind outcome_bind].
  set (pcm := pcm16 (map decodeMulawSample mulawData)).
  assert (length pcm = (2 * length mulawData)%nat) as Hlen
    by (subst pcm; rewrite length_pcm16, length_map; reflexivity).
  assert (samplesLE pcm = map decodeMulawSample mulawData) as Hs.
  { subst pcm. apply samplesLE_pcm16. apply Forall_forall. intros s Hin.
    apply list_elem_of_In, in_map_iff in Hin. destruct Hin as (y & <- & _).
    apply decodeMulawSample_range. }
  destruct (resamplePCM16_up2 pcm) as (out & Hout & Hl & Heven & Hodd & _).
  - rewrite Hlen. replace (Z.of_nat (2 * length mulawData))
      with (0 + Z.of_nat (length mulawData) * 2) by lia.
    apply Z_mod_plus_full.
  - rewrite Hlen. lia.
  - exists out. rewrite Hout. cbn [wrapErr mbind outcome_bind].
    split; [reflexivity|]. split; [lia|]. split.
    + intros k y Hy. apply Heven. rewrite Hs.
      change (map ?f ?l) with (f <$> l). rewrite list_lookup_fmap, Hy. reflexivity.
    + intros k y1 y2 H1 H2. apply Hodd; rewrite Hs;
        change (map ?f ?l) with (f <$> l); rewrite list_lookup_fmap;
        [rewrite H1|rewrite H2]; reflexivity.
Qed.

Lemma PCM16kHzToMulaw_down2 pcmData :
  Z.of_nat (length pcmData) mod 2 = 0 ->
  4 <= Z.of_nat (length pcmData) < 2 ^ 40 ->
  exists out,
    PCM16kHzToMulaw pcmData = Ok out /\
    Z.of_nat (length out) = Z.of_nat (length pcmData) / 2 / 2 /\
    (forall (k : nat) s,
       Z.of_nat k < Z.of_nat (length pcmData) / 2 / 2 ->
       samplesLE pcmData !! (2 * k)%nat = Some s ->
       out !! k = Some (linearToMulaw s)).
Proof.
  intros Hev Hb.
  destruct (resamplePCM16_down2 pcmData Hev Hb) as (pcm8 & Hres & Hl & Hk).
  pose proof (resamplePCM16_two_or_more pcmData 16000 8000 Hev ltac:(lia)
                ltac:(lia) ltac:(lia)) as Htot.
  destruct Htot as (out' & Hres' & Hl').
  { assert (2 ^ 40 = 1099511627776) as E40 by reflexivity.
    assert (2 ^ 63 = 9223372036854775808) as E63 by reflexivity.
    pose proof (Z.mul_div_le (Z.of_nat (length pcmData)) 2 ltac:(lia)).
    pose proof (Z.div_pos (Z.of_nat (length pcmData)) 2 ltac:(lia) ltac:(lia)).
    lia. }
  { assert (2 ^ 40 = 1099511627776) as E40 by reflexivity.
    assert (maxAlloc = 281474976710656) as E48 by reflexivity.
    change 16000 with (2 * 8000). rewrite Z.div_mul_cancel_r by lia.
    pose proof (Z.mul_div_le (Z.of_nat (length pcmData)) 2 ltac:(lia)).
    pose proof (Z.mul_div_le (Z.of_nat (length pcmData) / 2) 2 ltac:(lia)).
    pose proof (Z.div_pos (Z.of_nat (length pcmData)) 2 ltac:(lia) ltac:(lia)).
    lia. }
  rewrite Hres in Hres'. injection Hres' as <-.
  assert (Z.of_nat (length pcm8) mod 2 = 0) as Hev8.
  { rewrite Hl', Z.mul_comm. apply Z_mod_mult. }
  unfold PCM16kHzToMulaw. rewrite Hres. cbn [wrapErr mbind outcome_bind].
  rewrite (encodeMulaw_even _ Hev8). cbn [wrapErr mbind outcome_bind].
  eexists. split; [reflexivity|]. split.
  - rewrite length_map. exact Hl.
  - intros k s Hlt Hs. change (map ?f ?l) with (f <$> l).
    rewrite list_lookup_fmap, (Hk k s Hlt Hs). reflexivity.
Qed.

End ConverterFacts.

(** X10.  [MulawToPCM16kHz] on a frame of two or more mu-law bytes returns
    four bytes per input byte; output sample [2k] is the decoded sample of
    byte [k] and output sample [2k+1] is the truncated mean of the decoded
    samples of bytes [k] and [k+1]. *)
Theorem MulawToPCM16kHz_samples (mulawData : list Z) :
  2 <= Z.of_nat (length mulawData) < 2 ^ 38 ->
  exists out,
    Converter.MulawToPCM16kHz mulawData = Ok out /\
    length out = (4 * length mulawData)%nat /\
    (forall (k : nat) y,
       mulawData !! k = Some y ->
       Codec.samplesLE out !! (2 * k)%nat = Some (Codec.decodeMulawSample y)) /\
    (forall (k : nat) y1 y2,
       mulawData !! k = Some y1 -> mulawData !! (k + 1)%nat = Some y2 ->
       Codec.samplesLE out !! (2 * k + 1)%nat
         = Some (Z.quot (Codec.decodeMulawSample y1
                         + Codec.decodeMulawSample y2) 2)).
Proof.
  intros Hb.
  destruct (MulawToPCM16kHz_up2 mulawData Hb) as (out & H1 & H2 & H3 & H4).
  exists out. split; [exact H1|]. split; [exact H2|]. split; [exact H3|exact H4].
Qed.

Lemma MulawToPCM16kHz_samples_witness :
  exists out,
    Converter.MulawToPCM16kHz [0xFF; 0x80; 0x00] = Ok out /\
    length out = 12%nat /\
    Codec.samplesLE out !! 0%nat = Some 132.
Proof.
  destruct (MulawToPCM16kHz_samples [0xFF; 0x80; 0x00])
    as (out & H1 & H2 & H3 & _); [split; [vm_compute; discriminate|reflexivity]|].
  exists out. split; [exact H1|]. split; [exact H2|].
  apply (H3 0%nat 0xFF). reflexivity.
Defined.

(** X11.  [MulawToPCM16kHz] returns an empty frame for an empty frame and
    panics on every frame of exactly one mu-law byte (the decoded frame
    holds one sample, which the resampler indexes at -1). *)
Theorem MulawToPCM16kHz_short_frames :
  Converter.MulawToPCM16kHz [] = Ok [] /\
  forall y, Converter.MulawToPCM16kHz [y] = GoPanic "slice bounds out of range".
Proof.
  split; [reflexivity|]. intros y. unfold Converter.MulawToPCM16kHz.
  unfold Codec.decodeMulaw. cbn [flat_map app Converter.wrapErr mbind outcome_bind].
  unfold PutUint16. cbn [app]. rewrite resamplePCM16_one_sample_up. reflexivity.
Qed.

(** X12.  [PCM16kHzToMulaw] on an even-length frame of two or more samples
    returns one mu-law byte for every second sample: byte [k] is the
    encoding of input sample [2k]; the samples at odd indices do not
    influence the result. *)
Theorem PCM16kHzToMulaw_samples (pcmData : list Z) :
  Z.of_nat (length pcmData) mod 2 = 0 ->
  4 <= Z.of_nat (length pcmData) < 2 ^ 40 ->
  exists out,
    Converter.PCM16kHzToMulaw pcmData = Ok out /\
    Z.of_nat (length out) = Z.of_nat (length pcmData) / 2 / 2 /\
    (forall (k : nat) s,
       Z.of_nat k < Z.of_nat (length pcmData) / 2 / 2 ->
       Codec.samplesLE pcmData !! (2 * k)%nat = Some s ->
       out !! k = Some (Codec.linearToMulaw s)).
Proof.
  intros Hev Hb.
  destruct (PCM16kHzToMulaw_down2 pcmData Hev Hb) as (out & H1 & H2 & H3).
  exists out. split; [exact H1|]. split; [exact H2|exact H3].
Qed.

Lemma PCM16kHzToMulaw_samples_witness :
  exists out,
    Converter.PCM16kHzToMulaw (Codec.pcm16 [1000; 77; -1000; 5]) = Ok out /\
    out = [Codec.linearToMulaw 1000; Codec.linearToMulaw (-1000)].
Proof.
  destruct (PCM16kHzToMulaw_samples (Codec.pcm16 [1000; 77; -1000; 5]))
    as (out & H1 & _ & _);
    [reflexivity | split; [vm_compute; discriminate|reflexivity] |].
  exists out. split; [exact H1|].
  vm_compute in H1. injection H1 as <-. reflexivity.
Defined.

(** X13.  [ConvertAudio] is the identity between equal formats, whatever
    the format, and converting a mu-law frame of two or more bytes to the
    pipeline format and back gives, byte for byte, the encoding of the
    decoded byte: the interpolated samples are dropped again. *)
Theorem ConvertAudio_there_and_back (mulawData : list Z) :
  2 <= Z.of_nat (length mulawData) < 2 ^ 38 ->
  (forall data format, Converter.ConvertAudio data format format = Ok data) /\
  exists pcm,
    Converter.ConvertAudio mulawData Converter.AudioFormatMulaw
      Converter.AudioFormatPCM = Ok pcm /\
    Converter.ConvertAudio pcm Converter.AudioFormatPCM
      Converter.AudioFormatMulaw
      = Ok (map (fun y => Codec.linearToMulaw (Codec.decodeMulawSample y))
              mulawData).
Proof.
  intros Hb. split.
  - intros data format. unfold Converter.ConvertAudio.
    rewrite bool_decide_eq_true_2 by reflexivity. reflexivity.
  - assert (2 ^ 38 = 274877906944) as E38 by reflexivity.
    assert (2 ^ 40 = 1099511627776) as E40 by reflexivity.
    destruct (MulawToPCM16kHz_up2 mulawData Hb) as (pcm & Hup & Hl & Heven & _).
    exists pcm. rewrite ConvertAudio_mulaw_pcm, ConvertAudio_pcm_mulaw.
    split; [exact Hup|].
    destruct (PCM16kHzToMulaw_down2 pcm) as (out & Hdown & Hlo & Hk).
    + rewrite Hl. replace (Z.of_nat (4 * length mulawData))
        with (0 + Z.of_nat (2 * length mulawData) * 2) by lia.
      apply Z_mod_plus_full.
    + rewrite Hl. lia.
    + rewrite Hdown. f_equal.
      assert (Z.of_nat (length pcm) / 2 / 2 = Z.of_nat (length mulawData)) as Hq.
      { rewrite Hl. replace (Z.of_nat (4 * length mulawData))
          with (Z.of_nat (length mulawData) * 2 * 2) by lia.
        rewrite !Z.div_mul by lia. reflexivity. }
      rewrite Hq in Hlo, Hk.
      apply list_eq. intros k. change (map ?f ?l) with (f <$> l).
      rewrite list_lookup_fmap.
      destruct (mulawData !! k) as [y|] eqn:Ey; simpl.
      * apply Hk; [apply lookup_lt_Some in Ey; lia|].
        apply Heven. exact Ey.
      * apply lookup_ge_None. apply lookup_ge_None in Ey. lia.
Qed.

Lemma ConvertAudio_there_and_back_witness :
  exists pcm,
    Converter.ConvertAudio [0xFF; 0x05; 0x85] Converter.AudioFormatMulaw
      Converter.AudioFormatPCM = Ok pcm /\
    Converter.ConvertAudio pcm Converter.AudioFormatPCM
      Converter.AudioFormatMulaw = Ok [0xC7; 0x05; 0x85].
Proof.
  destruct (ConvertAudio_there_and_back [0xFF; 0x05; 0x85])
    as (_ & pcm & H1 & H2); [split; [vm_compute; discriminate|reflexivity]|].
  exists pcm. split; [exact H1|exact H2].
Defined.

(** * Buffers and mixing *)

Section BufferFacts.

Import Codec Converter.

Lemma splitLoop_concat fuel : forall data chunkSize,
  (0 < chunkSize)%nat -> (length data <= fuel)%nat ->
  concat (splitLoop fuel data chunkSize) = data.
Proof.
  induction fuel as [|fuel IH]; intros data c Hc Hlen.
  - destruct data; [reflexivity|simpl in Hlen; lia].
  - destruct data as [|x data]; [reflexivity|].
    cbn [splitLoop concat]. rewrite IH; [apply take_drop|exact Hc|].
    rewrite length_drop. cbn [length] in *. lia.
Qed.

Lemma splitLoop_lookup fuel : forall data chunkSize (i : nat) chunk,
  (0 < chunkSize)%nat -> (length data <= fuel)%nat ->
  splitLoop fuel data chunkSize !! i = Some chunk ->
  chunk = take chunkSize (drop (i * chunkSize) data) /\
  (i * chunkSize < length data)%nat.
Proof.
  induction fuel as [|fuel IH]; intros data c i chunk Hc Hlen Hi.
  - destruct data; [discriminate|simpl in Hlen; lia].
  - destruct data as [|x data]; [discriminate|].
    cbn [splitLoop] in Hi. destruct i as [|i].
    + injection Hi as <-. split; [reflexivity|cbn [length]; lia].
    + cbn [lookup list_lookup] in Hi.
      destruct (IH (drop c (x :: data)) c i chunk Hc) as [Hch Hlt].
      * rewrite length_drop. cbn [length] in *. lia.
      * exact Hi.
      * rewrite length_drop in Hlt. split.
        -- rewrite Hch, drop_drop. reflexivity.
        -- lia.
Qed.

End BufferFacts.

(** X14.  Splitting a buffer and concatenating the chunks gives the buffer
    back, for every chunk size (a size of zero or less stands for 320). *)
Theorem split_then_concat (data : list Z) (chunkSize : Z) :
  Converter.ConcatAudioBuffers (Converter.SplitAudioBuffer data chunkSize) = data.
Proof.
  unfold Converter.ConcatAudioBuffers, Converter.SplitAudioBuffer.
  apply splitLoop_concat; [|lia].
  destruct (Z.leb_spec chunkSize 0); lia.
Qed.

(** X15.  Chunk [i] of [SplitAudioBuffer] is the slice of the buffer from
    [i * size] of at most [size] bytes, and it is never empty: all chunks
    but the last hold exactly [size] bytes, where [size] is the requested
    chunk size, or 320 when the request is zero or less. *)
Theorem split_chunk_layout (data : list Z) (chunkSize : Z) (i : nat)
    (chunk : list Z) :
  Converter.SplitAudioBuffer data chunkSize !! i = Some chunk ->
  let size := Z.to_nat (if chunkSize <=? 0 then 320 else chunkSize) in
  chunk = take size (drop (i * size) data) /\
  (0 < length chunk <= size)%nat /\
  (((i + 1) * size <= length data)%nat -> length chunk = size).
Proof.
  intros Hi size. unfold Converter.SplitAudioBuffer in Hi. fold size in Hi.
  assert (0 < size)%nat as Hs
    by (subst size; destruct (Z.leb_spec chunkSize 0); lia).
  destruct (splitLoop_lookup _ _ _ _ _ Hs (le_n _) Hi) as [-> Hlt].
  split; [reflexivity|].
  rewrite length_take, length_drop. split; lia.
Qed.

Lemma split_chunk_layout_witness :
  Converter.SplitAudioBuffer [1; 2; 3; 4; 5] 2 !! 2%nat = Some [5].
Proof.
  destruct (split_chunk_layout [1; 2; 3; 4; 5] 2 2 [5] eq_refl) as [H _].
  reflexivity.
Defined.

Section MixFacts.

Import Codec Converter Interp Mixing.

Lemma i32_id z : -2147483648 <= z <= 2147483647 -> i32 z = z.
Proof. intros H. unfold i32. rewrite Z.mod_small; lia. Qed.

Lemma sampleAt_range pcmData j : -32768 <= sampleAt pcmData j <= 32767.
Proof.
  unfold sampleAt. rewrite nth_lookup.
  destruct (samplesLE pcmData !! Z.to_nat j) as [s|] eqn:E; simpl; [|lia].
  exact (samplesLE_range _ _ _ E).
Qed.

Lemma sumZ_bounds streams i :
  - 32768 * Z.of_nat (length streams)
    <= sumZ (map (fun stream => sampleAt stream i) streams)
    <= 32767 * Z.of_nat (length streams).
Proof.
  induction streams as [|st rest IH]; cbn [map sumZ foldr length].
  - lia.
  - pose proof (sampleAt_range st i). fold (sumZ (map (fun stream => sampleAt stream i) rest)).
    lia.
Qed.

Lemma mixSum_ok streams i : forall acc,
  0 <= i ->
  Forall (fun stream => (i + 1) * 2 <= Z.of_nat (length stream)) streams ->
  -2147483648 <= acc - 32768 * Z.of_nat (length streams) ->
  acc + 32768 * Z.of_nat (length streams) <= 2147483647 ->
  mixSum streams i acc
    = Ok (acc + sumZ (map (fun stream => sampleAt stream i) streams)).
Proof.
  intros acc Hi HF. revert acc.
  induction HF as [|st rest Hst HF IH]; intros acc Hlo Hhi.
  - cbn [mixSum map sumZ foldr]. f_equal. lia.
  - cbn [mixSum map length] in *.
    rewrite (readSample_sampleAt st i Hi Hst). cbn [mbind outcome_bind].
    pose proof (sampleAt_range st i) as Hr.
    rewrite (i32_id (sampleAt st i)) by lia.
    rewrite i32_id by lia.
    rewrite IH by lia. f_equal. unfold sumZ. cbn [foldr]. lia.
Qed.

Lemma mixAt_ok streams i :
  0 <= i -> 0 < Z.of_nat (length streams) <= 65535 ->
  Forall (fun stream => (i + 1) * 2 <= Z.of_nat (length stream)) streams ->
  mixAt streams i = Ok (PutUint16 (u16 (mixedSample streams i))).
Proof.
  intros Hi Hk HF. unfold mixAt.
  rewrite (mixSum_ok streams i 0 Hi HF) by lia.
  cbn [mbind outcome_bind]. rewrite Z.add_0_l.
  rewrite (i32_id (Z.of_nat (length streams))) by lia.
  destruct (Z.eqb_spec (Z.of_nat (length streams)) 0) as [|_]; [lia|].
  pose proof (sumZ_bounds streams i) as Hs.
  set (sum := sumZ (map (fun stream => sampleAt stream i) streams)) in *.
  set (k := Z.of_nat (length streams)) in *.
  assert (-32768 <= Z.quot sum k <= 32767) as Hq.
  { split.
    - apply Z.quot_le_lower_bound; lia.
    - apply Z.quot_le_upper_bound; lia. }
  rewrite (i32_id (Z.quot sum k)) by lia.
  unfold MaxInt16, MinInt16.
  destruct (Z.gtb_spec (Z.quot sum k) 32767); [lia|].
  destruct (Z.ltb_spec (Z.quot sum k) (-32768)); [lia|].
  rewrite i16_id by lia. reflexivity.
Qed.

Lemma mixLoop_ok streams idx :
  0 < Z.of_nat (length streams) <= 65535 ->
  Forall (fun i => 0 <= i /\
            Forall (fun stream => (i + 1) * 2 <= Z.of_nat (length stream))
              streams) idx ->
  mixLoop streams idx = Ok (pcm16 (map (mixedSample streams) idx)).
Proof.
  intros Hk HF. induction HF as [|i rest [Hi Hst] HF IH].
  - reflexivity.
  - cbn [mixLoop map]. rewrite (mixAt_ok streams i Hi Hk Hst).
    cbn [mbind outcome_bind]. rewrite IH. reflexivity.
Qed.

Lemma mixCheck_aligned len streams :
  streams <> [] ->
  (mixCheck len streams = None <-> aligned len streams).
Proof.
  intros Hne. unfold aligned. induction streams as [|st rest IH]; [congruence|].
  cbn [mixCheck].
  destruct (Nat.eqb_spec (length st) len) as [He|He]; simpl.
  - destruct (Z.eqb_spec (Z.of_nat len mod 2) 0) as [Hev|Hod]; simpl.
    + destruct rest as [|st' rest'].
      * simpl. split; [intros _; split; [repeat constructor; exact He|exact Hev]
                      |reflexivity].
      * rewrite (IH ltac:(congruence)). split.
        -- intros [HF _]. split; [constructor; assumption|exact Hev].
        -- intros [HF _]. inversion HF; subst. split; [assumption|exact Hev].
    + split; [discriminate|]. intros [_ Hev]. contradiction.
  - split; [discriminate|]. intros [HF _]. inversion HF; subst. contradiction.
Qed.

Lemma mixCheck_first stream rest :
  mixCheck (length stream) (stream :: rest) = None ->
  aligned (length stream) (stream :: rest).
Proof. apply mixCheck_aligned. discriminate. Qed.

(** The closed form of a successful mix. *)
Lemma MixAudio_aligned len streams :
  0 < Z.of_nat (length streams) <= 65535 -> aligned len streams ->
  MixAudio streams
    = Ok (pcm16 (map (mixedSample streams)
                   (map Z.of_nat (seq 0 (Z.to_nat (Z.of_nat len / 2)))))).
Proof.
  intros Hk Hal. destruct streams as [|st rest]; [simpl in Hk; lia|].
  assert (length st = len) as Hl0.
  { destruct Hal as [HF _]. inversion HF; subst. reflexivity. }
  unfold MixAudio. rewrite Hl0.
  rewrite (proj2 (mixCheck_aligned len (st :: rest) ltac:(discriminate)) Hal).
  apply mixLoop_ok; [exact Hk|].
  destruct Hal as [HF Hev].
  apply Forall_forall. intros i Hi. apply list_elem_of_In, in_map_iff in Hi.
  destruct Hi as (m & <- & Hm). apply in_seq in Hm.
  split; [lia|]. eapply Forall_impl; [exact HF|]. intros s Hs. simpl in Hs.
  rewrite Hs.
  pose proof (Z.mul_div_le (Z.of_nat len) 2 ltac:(lia)).
  assert (0 <= Z.of_nat len / 2) by (apply Z.div_pos; lia). lia.
Qed.

Lemma mixedSample_range streams i :
  0 < Z.of_nat (length streams) -> -32768 <= mixedSample streams i <= 32767.
Proof.
  intros Hk. unfold mixedSample. pose proof (sumZ_bounds streams i). split.
  - apply Z.quot_le_lower_bound; lia.
  - apply Z.quot_le_upper_bound; lia.
Qed.

Lemma sumZ_perm l l' : Permutation l l' -> sumZ l = sumZ l'.
Proof.
  unfold sumZ. induction 1; cbn [foldr]; lia.
Qed.

Lemma aligned_perm len streams streams' :
  Permutation streams streams' -> aligned len streams -> aligned len streams'.
Proof.
  intros Hp [HF Hev]. split; [|exact Hev].
  rewrite <- Hp. exact HF.
Qed.

End MixFacts.

(** X16.  [MixAudio] on up to 65535 streams of one even length returns a
    frame of that length whose sample [i] is the sum of the streams'
    samples [i] divided by the number of streams, truncated toward zero;
    the sum never overflows and the result never needs the clamp. *)
Theorem MixAudio_truncated_average (len : nat) (streams : list (list Z)) :
  0 < Z.of_nat (length streams) <= 65535 ->
  Mixing.aligned len streams ->
  exists out,
    Converter.MixAudio streams = Ok out /\
    length out = len /\
    forall i : nat,
      Z.of_nat i < Z.of_nat len / 2 ->
      Codec.samplesLE out !! i
        = Some (Mixing.mixedSample streams (Z.of_nat i)).
Proof.
  intros Hk Hal. eexists. split; [apply (MixAudio_aligned len); assumption|].
  assert (0 <= Z.of_nat len / 2) as Hh by (apply Z.div_pos; lia).
  split.
  - rewrite length_pcm16, !length_map, length_seq.
    destruct Hal as [_ Hev].
    pose proof (Z.div_mod (Z.of_nat len) 2 ltac:(lia)). lia.
  - intros i Hi. rewrite samplesLE_pcm16.
    + apply lookup_map_range. lia.
    + apply Forall_forall. intros s Hs.
      apply list_elem_of_In, in_map_iff in Hs. destruct Hs as (j & <- & _).
      apply mixedSample_range. lia.
Qed.

Lemma MixAudio_truncated_average_witness :
  exists out,
    Converter.MixAudio [Codec.pcm16 [100; -7]; Codec.pcm16 [201; -8]] = Ok out /\
    Codec.samplesLE out !! 0%nat = Some 150 /\
    Codec.samplesLE out !! 1%nat = Some (-7).
Proof.
  destruct (MixAudio_truncated_average 4
              [Codec.pcm16 [100; -7]; Codec.pcm16 [201; -8]])
    as (out & H1 & _ & H3).
  - simpl. lia.
  - split; [repeat constructor|reflexivity].
  - exists out. split; [exact H1|]. split.
    + apply (H3 0%nat). reflexivity.
    + apply (H3 1%nat). reflexivity.
Defined.

(** X17.  The mix does not depend on the order of the streams. *)
Theorem MixAudio_order_independent (len : nat) (streams streams' : list (list Z)) :
  0 < Z.of_nat (length streams) <= 65535 ->
  Mixing.aligned len streams ->
  Permutation streams streams' ->
  Converter.MixAudio streams = Converter.MixAudio streams'.
Proof.
  intros Hk Hal Hp.
  pose proof (Permutation_length Hp) as Hlen.
  rewrite (MixAudio_aligned len streams Hk Hal).
  rewrite (MixAudio_aligned len streams') by
    (try (rewrite <- Hlen; exact Hk); eapply aligned_perm; eassumption).
  do 2 f_equal. apply map_ext. intros i. unfold Mixing.mixedSample.
  rewrite <- Hlen. f_equal. apply sumZ_perm. apply Permutation_map. exact Hp.
Qed.

Lemma MixAudio_order_independent_witness :
  Converter.MixAudio [Codec.pcm16 [100; -7]; Codec.pcm16 [201; -8]]
    = Converter.MixAudio [Codec.pcm16 [201; -8]; Codec.pcm16 [100; -7]].
Proof.
  apply (MixAudio_order_independent 4).
  - simpl. lia.
  - split; [repeat constructor|reflexivity].
  - apply perm_swap.
Defined.

(** X18.  Mixing a frame with copies of itself (one to 65535 copies in
    all) returns the frame unchanged; in particular a single stream passes
    through [MixAudio] untouched. *)
Theorem MixAudio_copies_identity (stream : list Z) (k : nat) :
  0 < Z.of_nat k <= 65535 ->
  Z.of_nat (length stream) mod 2 = 0 ->
  Converter.isFrame stream ->
  Converter.MixAudio (replicate k stream) = Ok stream.
Proof.
  intros Hk Hev HF.
  rewrite (MixAudio_aligned (length stream)).
  - f_equal. transitivity (Codec.pcm16 (Codec.samplesLE stream));
      [f_equal|apply (pcm16_samplesLE _ Hev HF)].
    etransitivity; [|apply samplesLE_as_sampleAt].
    assert (Z.to_nat (Z.of_nat (length stream) / 2)
            = length (Codec.samplesLE stream)) as ->.
    { rewrite <- length_samplesLE. lia. }
    apply map_ext. intros i. unfold Mixing.mixedSample.
    rewrite length_replicate.
    assert (forall n, Mixing.sumZ
                        (map (fun s => Interp.sampleAt s i) (replicate n stream))
                      = Interp.sampleAt stream i * Z.of_nat n) as Hsum.
    { induction n as [|n IH]; [simpl; lia|].
      cbn [replicate map]. unfold Mixing.sumZ in *. cbn [foldr].
      rewrite IH. lia. }
    rewrite Hsum. apply Z.quot_mul. lia.
  - rewrite length_replicate. exact Hk.
  - split; [|exact Hev]. apply Forall_forall. intros s Hs.
    apply elem_of_replicate in Hs. destruct Hs as [-> _]. reflexivity.
Qed.

Lemma MixAudio_copies_identity_witness :
  Converter.MixAudio [Codec.pcm16 [100; -7]] = Ok (Codec.pcm16 [100; -7]).
Proof.
  apply (MixAudio_copies_identity (Codec.pcm16 [100; -7]) 1);
    [lia | reflexivity |].
  unfold Converter.isFrame. vm_compute. repeat constructor; discriminate.
Defined.

(** X19.  [MixAudio] on at most 65535 streams never panics: it succeeds
    exactly when there is at least one stream and all streams share one
    even length, and returns an error otherwise. *)
Theorem MixAudio_outcome (streams : list (list Z)) :
  Z.of_nat (length streams) <= 65535 ->
  match Converter.MixAudio streams with
  | Ok out => exists len, Mixing.aligned len streams /\ length out = len
  | Err _ => streams = [] \/ forall len, ~ Mixing.aligned len streams
  | GoPanic _ => False
  end.
Proof.
  intros Hk. destruct streams as [|st rest]; [left; reflexivity|].
  destruct (Converter.mixCheck (length st) (st :: rest)) as [e|] eqn:Hc.
  - unfold Converter.MixAudio. rewrite Hc. right. intros len Hal.
    assert (length st = len) as <-.
    { destruct Hal as [HF _]. inversion HF; subst. reflexivity. }
    apply mixCheck_aligned in Hal; [congruence|discriminate].
  - pose proof (mixCheck_first _ _ Hc) as Hal.
    rewrite (MixAudio_aligned (length st)); [|cbn [length] in *; lia|exact Hal].
    exists (length st). split; [exact Hal|].
    rewrite length_pcm16, !length_map, length_seq.
    destruct Hal as [_ Hev].
    pose proof (Z.div_mod (Z.of_nat (length st)) 2 ltac:(lia)).
    assert (0 <= Z.of_nat (length st) / 2) by (apply Z.div_pos; lia). lia.
Qed.

Lemma MixAudio_outcome_witness :
  exists e, Converter.MixAudio [[1; 2]; [1; 2; 3; 4]] = Err e.
Proof.
  pose proof (MixAudio_outcome [[1; 2]; [1; 2; 3; 4]] ltac:(simpl; lia)) as H.
  destruct (Converter.MixAudio [[1; 2]; [1; 2; 3; 4]]) as [out|e|p] eqn:E.
  - vm_compute in E. discriminate.
  - exists e. reflexivity.
  - contradiction.
Defined.

(** * Registry, routers and metrics, continued *)

Section RegistryMore.

Import Bridge Registry.

Lemma wellFormed_new : wellFormed NewAudioStreamBridge.
Proof.
  split; intros *; unfold NewAudioStreamBridge; simpl;
    rewrite lookup_empty; discriminate.
Qed.

Lemma fresh_object_unused (bridge : AudioStreamBridge) :
  objects bridge !! fresh (dom (objects bridge)) = None.
Proof. apply not_elem_of_dom. apply is_fresh. Qed.

Lemma CreateSession_wellFormed bridge sessionID now addr bridge' :
  wellFormed bridge ->
  CreateSession bridge sessionID now = Ok (addr, bridge') ->
  wellFormed bridge'.
Proof.
  intros [Hlive Hinj]. unfold CreateSession.
  destruct (sessions bridge !! sessionID) eqn:Hs; [discriminate|].
  intros H. injection H as <- <-.
  pose proof (fresh_object_unused bridge) as Hfresh.
  split; simpl.
  - intros id a Hid. destruct (decide (sessionID = id)) as [->|Hne].
    + rewrite lookup_insert_eq in Hid. injection Hid as <-.
      rewrite lookup_insert_eq. eauto.
    + rewrite lookup_insert_ne in Hid by exact Hne.
      destruct (Hlive _ _ Hid) as [s Hs'].
      rewrite lookup_insert_ne; [eauto|]. intros <-. congruence.
  - intros id1 id2 a H1 H2.
    destruct (decide (id1 = sessionID)) as [->|Hn1];
      destruct (decide (id2 = sessionID)) as [->|Hn2]; try reflexivity.
    + rewrite lookup_insert_eq in H1. rewrite lookup_insert_ne in H2 by congruence.
      injection H1 as <-. destruct (Hlive _ _ H2) as [s Hs']. congruence.
    + rewrite lookup_insert_eq in H2. rewrite lookup_insert_ne in H1 by congruence.
      injection H2 as <-. destruct (Hlive _ _ H1) as [s Hs']. congruence.
    + rewrite lookup_insert_ne in H1 by congruence.
      rewrite lookup_insert_ne in H2 by congruence. eauto.
Qed.

Lemma CloseSession_wellFormed bridge sessionID bridge' err :
  wellFormed bridge ->
  CloseSession bridge sessionID = Return bridge' err ->
  wellFormed bridge'.
Proof.
  intros [Hlive Hinj]. unfold CloseSession.
  destruct (sessions bridge !! sessionID) as [addr|] eqn:Hs.
  2:{ intros H. injection H as <- _. split; assumption. }
  destruct (objects bridge !! addr) as [s|] eqn:Ho; [|discriminate].
  destruct (Chan.close (phoneToAIChan (deactivate s))) as [c1| |]; try discriminate.
  destruct (Chan.close _) as [c2| |]; try discriminate.
  intros H. injection H as <- _. split; simpl.
  - intros id a Hid. apply lookup_delete_Some in Hid. destruct Hid as [Hne Hid].
    destruct (Hlive _ _ Hid) as [s' Hs'].
    destruct (decide (addr = a)) as [->|Hna].
    + rewrite lookup_insert_eq. eauto.
    + rewrite lookup_insert_ne by exact Hna. eauto.
  - intros id1 id2 a H1 H2.
    apply lookup_delete_Some in H1. apply lookup_delete_Some in H2.
    destruct H1 as [_ H1]. destruct H2 as [_ H2]. eauto.
Qed.

End RegistryMore.

(** X20.  [CreateSession] on a free identifier registers a new session that
    [GetSession] then returns: active, not streaming, with zero metrics and
    two empty open queues of capacity 500; every other identifier keeps its
    session and the session object untouched.  On an identifier already in
    the registry it fails and the registry is unchanged. *)
Theorem CreateSession_registers
    (bridge : Bridge.AudioStreamBridge) (sessionID : string) (now : Z) :
  Registry.wellFormed bridge ->
  match Bridge.CreateSession bridge sessionID now with
  | Ok (addr, bridge') =>
      Bridge.GetSession bridge sessionID = None /\
      Bridge.GetSession bridge' sessionID = Some addr /\
      (exists session,
         Bridge.objects bridge' !! addr = Some session /\
         Bridge.Active session = true /\ Bridge.Streaming session = false /\
         Bridge.Metrics session = Bridge.zeroMetrics /\
         Bridge.phoneToAIChan session = Chan.make 500 /\
         Bridge.aiToPhoneChan session = Chan.make 500) /\
      (forall other a,
         other <> sessionID -> Bridge.GetSession bridge other = Some a ->
         Bridge.GetSession bridge' other = Some a /\
         Bridge.objects bridge' !! a = Bridge.objects bridge !! a) /\
      Registry.wellFormed bridge'
  | Err _ => is_Some (Bridge.GetSession bridge sessionID)
  | GoPanic _ => False
  end.
Proof.
  intros Hwf.
  destruct (Bridge.CreateSession bridge sessionID now) as [[addr bridge']| |]
    eqn:Hc.
  - pose proof (CreateSession_wellFormed _ _ _ _ _ Hwf Hc) as Hwf'.
    unfold Bridge.CreateSession, Bridge.GetSession in *.
    destruct (Bridge.sessions bridge !! sessionID) eqn:Hs; [discriminate|].
    injection Hc as <- <-. simpl.
    split; [reflexivity|]. split; [apply lookup_insert_eq|]. split.
    + eexists. split; [apply lookup_insert_eq|]. repeat split; reflexivity.
    + split; [|exact Hwf'].
      intros other a Hne Ho. split.
      * rewrite lookup_insert_ne by congruence. exact Ho.
      * destruct Hwf as [Hlive _]. destruct (Hlive _ _ Ho) as [s Hs'].
        rewrite lookup_insert_ne; [reflexivity|].
        intros <-. rewrite fresh_object_unused in Hs'. discriminate.
  - unfold Bridge.CreateSession, Bridge.GetSession in *.
    destruct (Bridge.sessions bridge !! sessionID) eqn:Hs; [eauto|discriminate].
  - unfold Bridge.CreateSession in Hc.
    destruct (Bridge.sessions bridge !! sessionID); discriminate.
Qed.

Lemma CreateSession_registers_witness :
  exists addr bridge',
    Bridge.CreateSession Fixtures.bridge1 "S2" 7 = Ok (addr, bridge') /\
    Bridge.GetSession bridge' "S2" = Some addr /\
    Bridge.GetSession bridge' "S1" = Bridge.GetSession Fixtures.bridge1 "S1".
Proof.
  assert (Registry.wellFormed Fixtures.bridge1) as Hwf.
  { apply (CreateSession_wellFormed Bridge.NewAudioStreamBridge "S1" 0 0%nat);
      [apply wellFormed_new|reflexivity]. }
  pose proof (CreateSession_registers Fixtures.bridge1 "S2" 7 Hwf) as H.
  destruct (Bridge.CreateSession Fixtures.bridge1 "S2" 7) as [[addr b']| |] eqn:E.
  - exists addr, b'. destruct H as (_ & H2 & _ & H4 & _).
    split; [reflexivity|]. split; [exact H2|].
    destruct (H4 "S1" 0%nat) as [H5 _]; [discriminate|reflexivity|].
    rewrite H5. reflexivity.
  - vm_compute in E. discriminate.
  - contradiction.
Defined.

(** X21.  Closing one session leaves every other session alone: in a
    well-formed registry, after [CloseSession id] every other identifier
    still maps to the same session object, and that object is unchanged;
    the registry stays well-formed, and the closed identifier can be created
    again, which yields a fresh active session. *)
Theorem CloseSession_isolated
    (bridge bridge' : Bridge.AudioStreamBridge) (sessionID : string)
    (err : option string) (now : Z) :
  Registry.wellFormed bridge ->
  Bridge.CloseSession bridge sessionID = Return bridge' err ->
  Registry.wellFormed bridge' /\
  (forall other a,
     other <> sessionID -> Bridge.GetSession bridge other = Some a ->
     Bridge.GetSession bridge' other = Some a /\
     Bridge.objects bridge' !! a = Bridge.objects bridge !! a) /\
  exists addr bridge'',
    Bridge.CreateSession bridge' sessionID now = Ok (addr, bridge'') /\
    exists session,
      Bridge.objects bridge'' !! addr = Some session /\
      Bridge.Active session = true /\
      Chan.closed (Bridge.phoneToAIChan session) = false.
Proof.
  intros Hwf Hc.
  pose proof (CloseSession_wellFormed _ _ _ _ Hwf Hc) as Hwf'.
  split; [exact Hwf'|].
  assert (Bridge.sessions bridge' !! sessionID = None) as Hgone.
  { unfold Bridge.CloseSession in Hc.
    destruct (Bridge.sessions bridge !! sessionID) as [addr|] eqn:Hs.
    - destruct (Bridge.objects bridge !! addr) as [s|]; [|discriminate].
      destruct (Chan.close _) as [c1| |]; try discriminate.
      destruct (Chan.close _) as [c2| |]; try discriminate.
      injection Hc as <- _. simpl. apply lookup_delete_eq.
    - injection Hc as <- _. exact Hs. }
  split.
  - intros other a Hne Ho. unfold Bridge.GetSession in *.
    unfold Bridge.CloseSession in Hc.
    destruct (Bridge.sessions bridge !! sessionID) as [addr|] eqn:Hs.
    + destruct (Bridge.objects bridge !! addr) as [s|]; [|discriminate].
      destruct (Chan.close _) as [c1| |]; try discriminate.
      destruct (Chan.close _) as [c2| |]; try discriminate.
      injection Hc as <- _. simpl. split.
      * rewrite lookup_delete_ne by congruence. exact Ho.
      * destruct Hwf as [_ Hinj].
        rewrite lookup_insert_ne; [reflexivity|].
        intros <-. apply Hne. eapply Hinj; eassumption.
    + injection Hc as <- _. split; [exact Ho|reflexivity].
  - unfold Bridge.CreateSession. rewrite Hgone.
    eexists _, _. split; [reflexivity|].
    eexists. simpl. split; [apply lookup_insert_eq|]. split; reflexivity.
Qed.

Lemma CloseSession_isolated_witness :
  exists bridge',
    Bridge.CloseSession Fixtures.bridge1 "S1" = Return bridge' None /\
    Registry.wellFormed bridge'.
Proof.
  assert (Registry.wellFormed Fixtures.bridge1) as Hwf.
  { apply (CreateSession_wellFormed Bridge.NewAudioStreamBridge "S1" 0 0%nat);
      [apply wellFormed_new|reflexivity]. }
  eexists. split; [reflexivity|].
  eapply (CloseSession_isolated Fixtures.bridge1 _ "S1" None 0 Hwf).
  reflexivity.
Defined.

(** X22.  [AudioStreamBridge.Close] never returns while a session is
    registered: it takes [bridge.mu] and then calls [CloseSession], which
    takes the same mutex again.  Whatever the iteration order, the first
    session blocks the call; only on an empty registry does [Close] return,
    with the root scope cancelled and the mutex released. *)
Theorem bridge_Close_blocks_on_own_mutex
    (bridge : Bridge.AudioStreamBridge) (order : list string) :
  order ≡ₚ map fst (map_to_list (Bridge.sessions bridge)) ->
  (Bridge.sessions bridge <> ∅ ->
   Registry.Close (Registry.MkLocked bridge false) order = Registry.Blocked) /\
  (Bridge.sessions bridge = ∅ ->
   Registry.Close (Registry.MkLocked bridge false) order
     = Registry.Finished
         (Registry.MkLocked
            (Bridge.MkBridge (Bridge.objects bridge) ∅ true) false) None).
Proof.
  intros Hp. split.
  - intros Hne. destruct order as [|id rest].
    + exfalso. apply Hne. apply map_to_list_empty_iff.
      apply Permutation_nil_l in Hp. destruct (map_to_list _); [reflexivity|].
      discriminate.
    + reflexivity.
  - intros He. rewrite He in Hp. rewrite map_to_list_empty in Hp.
    apply Permutation_nil_r in Hp. subst order.
    unfold Registry.Close. simpl. rewrite He. reflexivity.
Qed.

Lemma bridge_Close_blocks_on_own_mutex_witness :
  Registry.Close (Registry.MkLocked Fixtures.bridge1 false) ["S1"]
    = Registry.Blocked.
Proof.
  apply (bridge_Close_blocks_on_own_mutex Fixtures.bridge1 ["S1"]).
  - reflexivity.
  - intros H. apply (f_equal (fun m => m !! "S1")) in H.
    rewrite lookup_empty in H. vm_compute in H. discriminate.
Defined.

Section RouterMore.

Import Bridge Registry.

Lemma i64_add_l x y : i64 (i64 x + y) = i64 (x + y).
Proof.
  unfold i64.
  replace ((x + 9223372036854775808) mod 18446744073709551616
           - 9223372036854775808 + y + 9223372036854775808)
    with ((x + 9223372036854775808) mod 18446744073709551616 + y) by lia.
  rewrite Zplus_mod_idemp_l. f_equal. f_equal. lia.
Qed.

Lemma i64_add_r x y : i64 (x + i64 y) = i64 (x + y).
Proof. rewrite Z.add_comm, i64_add_l. f_equal. lia. Qed.

Lemma routeAIToPhoneStep_room session swSession x chunk latency :
  Chan.closed (Link.AudioOutChan swSession) = false ->
  (length (Chan.buf (Link.AudioOutChan swSession))
     < Chan.cap (Link.AudioOutChan swSession))%nat ->
  exists session',
    routeAIToPhoneStep session swSession (x :: chunk) latency
      = Return (session',
                Link.setAudioOutChan swSession
                  (Chan.Mk (Chan.buf (Link.AudioOutChan swSession) ++ [x :: chunk])
                     (Chan.cap (Link.AudioOutChan swSession)) false)) None /\
    AIToPhonePacketsDropped (Metrics session')
      = AIToPhonePacketsDropped (Metrics session) /\
    PhoneToAIPacketsDropped (Metrics session')
      = PhoneToAIPacketsDropped (Metrics session) /\
    DroppedPackets (Metrics session') = DroppedPackets (Metrics session) /\
    phoneToAIChan session' = phoneToAIChan session /\
    aiToPhoneChan session' = aiToPhoneChan session.
Proof.
  intros Hc Hlt. unfold routeAIToPhoneStep, processOutgoingAudio, Chan.trySend.
  cbn [length Nat.eqb]. rewrite Hc.
  destruct (Nat.ltb_spec (length (Chan.buf (Link.AudioOutChan swSession)))
              (Chan.cap (Link.AudioOutChan swSession))); [|lia].
  eexists. split; [reflexivity|]. simpl. repeat split; reflexivity.
Qed.

Lemma routeAIToPhoneStep_full session swSession x chunk latency :
  Chan.closed (Link.AudioOutChan swSession) = false ->
  (Chan.cap (Link.AudioOutChan swSession)
     <= length (Chan.buf (Link.AudioOutChan swSession)))%nat ->
  routeAIToPhoneStep session swSession (x :: chunk) latency
    = Return (setMetrics session (countAIToPhoneDropped (Metrics session)),
              swSession) None.
Proof.
  intros Hc Hge. unfold routeAIToPhoneStep, processOutgoingAudio, Chan.trySend.
  cbn [length Nat.eqb]. rewrite Hc.
  destruct (Nat.ltb_spec (length (Chan.buf (Link.AudioOutChan swSession)))
              (Chan.cap (Link.AudioOutChan swSession))); [lia|].
  reflexivity.
Qed.

Lemma routeAIToPhoneRun_fill chunks : forall session swSession,
  Forall (fun c => fst c <> []) chunks ->
  Chan.closed (Link.AudioOutChan swSession) = false ->
  0 <= AIToPhonePacketsDropped (Metrics session) ->
  AIToPhonePacketsDropped (Metrics session) + Z.of_nat (length chunks) < 2 ^ 63 ->
  0 <= DroppedPackets (Metrics session) ->
  DroppedPackets (Metrics session) + Z.of_nat (length chunks) < 2 ^ 63 ->
  let room := (Chan.cap (Link.AudioOutChan swSession)
               - length (Chan.buf (Link.AudioOutChan swSession)))%nat in
  exists session',
    routeAIToPhoneRun session swSession chunks
      = Return (session',
                Link.setAudioOutChan swSession
                  (Chan.Mk (Chan.buf (Link.AudioOutChan swSession)
                            ++ take room (map fst chunks))
                     (Chan.cap (Link.AudioOutChan swSession)) false)) None /\
    AIToPhonePacketsDropped (Metrics session')
      = AIToPhonePacketsDropped (Metrics session)
        + Z.of_nat (length chunks - room) /\
    DroppedPackets (Metrics session')
      = DroppedPackets (Metrics session) + Z.of_nat (length chunks - room) /\
    PhoneToAIPacketsDropped (Metrics session')
      = PhoneToAIPacketsDropped (Metrics session).
Proof.
  assert (2 ^ 63 = 9223372036854775808) as E63 by reflexivity.
  induction chunks as [|[chunk latency] rest IH];
    intros session sw HF Hc Hd1 Hb1 Hd2 Hb2 room.
  - exists session. cbn [routeAIToPhoneRun map]. rewrite take_nil, app_nil_r.
    split.
    + do 2 f_equal. destruct sw as [? ? ? ? ? [b c cl] ? ?]. simpl in *.
      subst cl. reflexivity.
    + simpl. repeat split; lia.
  - inversion HF as [|? ? Hne HF']; subst. simpl in Hne.
    destruct chunk as [|x chunk]; [congruence|].
    cbn [routeAIToPhoneRun]. cbn [length] in Hb1, Hb2.
    destruct (Nat.ltb_spec (length (Chan.buf (Link.AudioOutChan sw)))
                (Chan.cap (Link.AudioOutChan sw))) as [Hlt|Hge].
    + destruct (routeAIToPhoneStep_room session sw x chunk latency Hc Hlt)
        as (s1 & Hs1 & Hm1 & Hm2 & Hm3 & _).
      rewrite Hs1.
      set (sw1 := Link.setAudioOutChan sw _).
      destruct (IH s1 sw1 HF') as (s' & Hrun & Hp & Hq & Hr);
        try (subst sw1; simpl; lia); try reflexivity.
      exists s'. rewrite Hrun. subst sw1. simpl in *.
      rewrite length_app in *. simpl in *. subst room.
      destruct (Chan.cap (Link.AudioOutChan sw)
                - length (Chan.buf (Link.AudioOutChan sw)))%nat
        as [|k] eqn:Ek; [lia|].
      replace (Chan.cap (Link.AudioOutChan sw)
               - (length (Chan.buf (Link.AudioOutChan sw)) + 1))%nat
        with k in * by lia.
      split; [|split; [|split]].
      * do 3 f_equal. rewrite <- app_assoc. reflexivity.
      * rewrite Hp, Hm1. reflexivity.
      * rewrite Hq, Hm3. reflexivity.
      * rewrite Hr, Hm2. reflexivity.
    + rewrite (routeAIToPhoneStep_full session sw x chunk latency Hc Hge).
      destruct (IH (setMetrics session (countAIToPhoneDropped (Metrics session)))
                  sw HF' Hc) as (s' & Hrun & Hp & Hq & Hr); simpl;
        try (rewrite i64_id; lia).
      exists s'. rewrite Hrun. simpl in *. subst room.
      replace (Chan.cap (Link.AudioOutChan sw)
               - length (Chan.buf (Link.AudioOutChan sw)))%nat
        with 0%nat in * by lia.
      rewrite i64_id in Hp, Hq by lia.
      split; [reflexivity|]. split; [|split].
      * rewrite Hp. lia.
      * rewrite Hq. lia.
      * exact Hr.
Qed.

End RouterMore.

(** X23.  The pipeline-to-phone router drops on overflow as well: when it
    forwards non-empty chunks to the link's [AudioOutChan] that nobody
    drains, the chunks that find room are queued in arrival order, every
    other chunk is dropped and counted once in [AIToPhonePacketsDropped]
    and once in [DroppedPackets], the phone-to-pipeline drop counter does
    not move, and the router never blocks. *)
Theorem routeAIToPhone_backpressure
    (session : Bridge.BridgeSession) (swSession : Link.SignalWireCallSession)
    (chunks : list (list Z * Z)) :
  Forall (fun c => fst c <> []) chunks ->
  Chan.closed (Link.AudioOutChan swSession) = false ->
  0 <= Bridge.AIToPhonePacketsDropped (Bridge.Metrics session) ->
  Bridge.AIToPhonePacketsDropped (Bridge.Metrics session)
    + Z.of_nat (length chunks) < 2 ^ 63 ->
  0 <= Bridge.DroppedPackets (Bridge.Metrics session) ->
  Bridge.DroppedPackets (Bridge.Metrics session)
    + Z.of_nat (length chunks) < 2 ^ 63 ->
  let room := (Chan.cap (Link.AudioOutChan swSession)
               - length (Chan.buf (Link.AudioOutChan swSession)))%nat in
  exists session' swSession',
    Registry.routeAIToPhoneRun session swSession chunks
      = Return (session', swSession') None /\
    Chan.buf (Link.AudioOutChan swSession')
      = Chan.buf (Link.AudioOutChan swSession) ++ take room (map fst chunks) /\
    Bridge.AIToPhonePacketsDropped (Bridge.Metrics session')
      = Bridge.AIToPhonePacketsDropped (Bridge.Metrics session)
        + Z.of_nat (length chunks - room) /\
    Bridge.DroppedPackets (Bridge.Metrics session')
      = Bridge.DroppedPackets (Bridge.Metrics session)
        + Z.of_nat (length chunks - room) /\
    Bridge.PhoneToAIPacketsDropped (Bridge.Metrics session')
      = Bridge.PhoneToAIPacketsDropped (Bridge.Metrics session).
Proof.
  intros HF Hc Hd1 Hb1 Hd2 Hb2 room.
  destruct (routeAIToPhoneRun_fill chunks session swSession HF Hc Hd1 Hb1 Hd2 Hb2)
    as (s' & Hrun & Hp & Hq & Hr).
  eexists s', _. split; [exact Hrun|]. simpl.
  split; [reflexivity|]. split; [exact Hp|]. split; [exact Hq|exact Hr].
Qed.

Lemma routeAIToPhone_backpressure_witness :
  exists session' swSession',
    Registry.routeAIToPhoneRun Fixtures.session4
      (Link.setAudioOutChan Fixtures.link0 (Chan.make 2))
      [([1], 0); ([2], 0); ([3], 0)] = Return (session', swSession') None /\
    Chan.buf (Link.AudioOutChan swSession') = [[1]; [2]] /\
    Bridge.AIToPhonePacketsDropped (Bridge.Metrics session') = 1.
Proof.
  destruct (routeAIToPhone_backpressure Fixtures.session4
              (Link.setAudioOutChan Fixtures.link0 (Chan.make 2))
              [([1], 0); ([2], 0); ([3], 0)])
    as (s' & sw' & H1 & H2 & H3 & _).
  - repeat constructor; discriminate.
  - reflexivity.
  - simpl. lia.
  - reflexivity.
  - simpl. lia.
  - reflexivity.
  - exists s', sw'. split; [exact H1|]. split; [exact H2|exact H3].
Defined.

(** X24.  The total drop counter stays the sum of the two directions'
    counters (in int64 arithmetic): the relation holds for a new session
    and is kept by every step of either router and by [updateLatency]. *)
Theorem dropped_packets_is_the_sum (session : Bridge.BridgeSession) :
  Registry.dropsAgree (Bridge.Metrics session) ->
  Registry.dropsAgree Bridge.zeroMetrics /\
  (forall chunk latency session' err,
     Bridge.routePhoneToAIStep session chunk latency = Return session' err ->
     Registry.dropsAgree (Bridge.Metrics session')) /\
  (forall swSession chunk latency session' swSession' err,
     Bridge.routeAIToPhoneStep session swSession chunk latency
       = Return (session', swSession') err ->
     Registry.dropsAgree (Bridge.Metrics session')) /\
  (forall latency,
     Registry.dropsAgree (Bridge.Metrics (Bridge.updateLatency session latency))).
Proof.
  intros Hinv. unfold Registry.dropsAgree in *.
  split; [reflexivity|]. split; [|split].
  - intros chunk latency s' err.
    unfold Bridge.routePhoneToAIStep, Bridge.processIncomingAudio,
      Bridge.sendPhoneToAI.
    destruct (length chunk =? 0)%nat.
    + intros H. injection H as <- _. exact Hinv.
    + destruct (Chan.trySend _ _) as [[c|]| |]; try discriminate;
        intros H; injection H as <- _; simpl.
      * exact Hinv.
      * rewrite Hinv, i64_add_l, i64_add_l. f_equal. lia.
  - intros sw chunk latency s' sw' err.
    unfold Bridge.routeAIToPhoneStep, Bridge.processOutgoingAudio.
    destruct (length chunk =? 0)%nat.
    + intros H. injection H as <- _. exact Hinv.
    + destruct (Chan.trySend _ _) as [[c|]| |]; try discriminate;
        intros H; injection H as <- _; simpl.
      * exact Hinv.
      * rewrite Hinv, i64_add_l, i64_add_r. f_equal. lia.
  - intros latency. simpl. exact Hinv.
Qed.

Lemma dropped_packets_is_the_sum_witness :
  Registry.dropsAgree
    (Bridge.Metrics (Bridge.updateLatency Fixtures.session4 5)).
Proof.
  apply (dropped_packets_is_the_sum Fixtures.session4). reflexivity.
Defined.

Section LatencyMore.

Import Bridge.

Lemma updateLatencyMetrics_order m x :
  0 <= AverageLatencyUs m <= MaxLatencyUs m ->
  MaxLatencyUs m <= SpecWords.latencyBound ->
  0 <= x <= SpecWords.latencyBound ->
  0 <= AverageLatencyUs (updateLatencyMetrics m x)
    <= MaxLatencyUs (updateLatencyMetrics m x) /\
  MaxLatencyUs (updateLatencyMetrics m x) <= SpecWords.latencyBound.
Proof.
  unfold SpecWords.latencyBound. intros Ha Hm Hx.
  rewrite updateLatencyMetrics_max.
  unfold updateLatencyMetrics. simpl.
  destruct (Z.eqb_spec (AverageLatencyUs m) 0) as [E|E]; [lia|].
  rewrite (i64_id (AverageLatencyUs m * 9)) by lia.
  rewrite (i64_id (AverageLatencyUs m * 9 + x)) by lia.
  rewrite Z.quot_div_nonneg by lia.
  assert (0 <= (AverageLatencyUs m * 9 + x) / 10
          <= Z.max (MaxLatencyUs m) x) as Hr.
  { split; [apply Z.div_pos; lia|].
    apply Z.div_le_upper_bound; lia. }
  rewrite i64_id by lia. lia.
Qed.

Lemma observe_order xs : forall m,
  0 <= AverageLatencyUs m <= MaxLatencyUs m ->
  MaxLatencyUs m <= SpecWords.latencyBound ->
  Forall (fun x => 0 <= x <= SpecWords.latencyBound) xs ->
  0 <= AverageLatencyUs (fold_left updateLatencyMetrics xs m)
    <= MaxLatencyUs (fold_left updateLatencyMetrics xs m) /\
  MaxLatencyUs (fold_left updateLatencyMetrics xs m)
    = fold_left Z.max xs (MaxLatencyUs m).
Proof.
  induction xs as [|x xs IH]; intros m Ha Hm HF.
  - split; [exact Ha|reflexivity].
  - inversion HF as [|? ? Hx HF']; subst. cbn [fold_left].
    destruct (updateLatencyMetrics_order m x Ha Hm Hx) as [Ho Hb].
    destruct (IH _ Ho Hb HF') as [H1 H2].
    split; [exact H1|]. rewrite H2, updateLatencyMetrics_max. reflexivity.
Qed.

End LatencyMore.

(** X25.  For non-negative latency observations (zeros included, each at
    most 922337203685477580 us) the stored average never exceeds the stored
    maximum, and the maximum is the largest observation so far. *)
Theorem latency_average_below_max (xs : list Z) :
  Forall (fun x => 0 <= x <= SpecWords.latencyBound) xs ->
  0 <= Bridge.AverageLatencyUs (SpecWords.observe xs)
    <= Bridge.MaxLatencyUs (SpecWords.observe xs) /\
  Bridge.MaxLatencyUs (SpecWords.observe xs) = fold_left Z.max xs 0.
Proof.
  intros HF. unfold SpecWords.observe.
  apply (observe_order xs Bridge.zeroMetrics); [simpl; lia| |exact HF].
  unfold SpecWords.latencyBound. simpl. lia.
Qed.

Lemma latency_average_below_max_witness :
  Bridge.AverageLatencyUs (SpecWords.observe [0; 100; 0; 7])
    <= Bridge.MaxLatencyUs (SpecWords.observe [0; 100; 0; 7]).
Proof.
  destruct (latency_average_below_max [0; 100; 0; 7]) as [[_ H] _].
  - unfold SpecWords.latencyBound. repeat constructor; lia.
  - exact H.
Defined.

Section AccountingFacts.

Import Bridge Registry.

Lemma routePhoneToAIRun_filter chunks : forall session,
  routePhoneToAIRun session chunks
    = sendAllPhoneToAI session (List.filter nonEmptyChunk chunks).
Proof.
  induction chunks as [|[chunk latency] rest IH]; intros session.
  - reflexivity.
  - cbn [routePhoneToAIRun List.filter]. unfold routePhoneToAIStep, nonEmptyChunk.
    cbn [fst]. destruct (length chunk =? 0)%nat; cbn [negb].
    + apply IH.
    + cbn [sendAllPhoneToAI]. unfold processIncomingAudio.
      destruct (sendPhoneToAI session chunk chunk latency); [apply IH|reflexivity].
Qed.

Lemma sendPhoneToAI_room_sent session chunk processed latency :
  Chan.closed (phoneToAIChan session) = false ->
  (length (Chan.buf (phoneToAIChan session))
     < Chan.cap (phoneToAIChan session))%nat ->
  exists session',
    sendPhoneToAI session chunk processed latency = Return session' None /\
    phoneToAIChan session' =
      Chan.Mk (Chan.buf (phoneToAIChan session) ++ [processed])
        (Chan.cap (phoneToAIChan session)) false /\
    PhoneToAIPacketsSent (Metrics session')
      = i64 (PhoneToAIPacketsSent (Metrics session) + 1) /\
    BytesReceived (Metrics session')
      = i64 (BytesReceived (Metrics session) + Z.of_nat (length chunk)).
Proof.
  intros Hc Hlt. unfold sendPhoneToAI, Chan.trySend. rewrite Hc.
  destruct (Nat.ltb_spec (length (Chan.buf (phoneToAIChan session)))
              (Chan.cap (phoneToAIChan session))); [|lia].
  eexists. split; [reflexivity|]. simpl. repeat split; reflexivity.
Qed.

Lemma sendAllPhoneToAI_sent frames : forall session,
  Chan.closed (phoneToAIChan session) = false ->
  0 <= PhoneToAIPacketsSent (Metrics session) ->
  PhoneToAIPacketsSent (Metrics session) + Z.of_nat (length frames) < 2 ^ 63 ->
  0 <= BytesReceived (Metrics session) ->
  BytesReceived (Metrics session)
    + Z.of_nat (length (concat (map fst frames))) < 2 ^ 63 ->
  let room := (Chan.cap (phoneToAIChan session)
               - length (Chan.buf (phoneToAIChan session)))%nat in
  exists session',
    sendAllPhoneToAI session frames = Return session' None /\
    PhoneToAIPacketsSent (Metrics session')
      = PhoneToAIPacketsSent (Metrics session)
        + Z.of_nat (length (take room frames)) /\
    BytesReceived (Metrics session')
      = BytesReceived (Metrics session)
        + Z.of_nat (length (concat (take room (map fst frames)))).
Proof.
  assert (2 ^ 63 = 9223372036854775808) as E63 by reflexivity.
  induction frames as [|[frame latency] rest IH];
    intros session Hc Hs Hsb Hb Hbb room.
  - exists session. cbn [sendAllPhoneToAI map]. rewrite !take_nil. simpl.
    split; [reflexivity|]. split; lia.
  - cbn [sendAllPhoneToAI]. cbn [map concat fst length] in Hsb, Hbb.
    rewrite length_app in Hbb.
    destruct (Nat.ltb_spec (length (Chan.buf (phoneToAIChan session)))
                (Chan.cap (phoneToAIChan session))) as [Hlt|Hge].
    + destruct (sendPhoneToAI_room_sent session frame frame latency Hc Hlt)
        as (s1 & Hs1 & Hch & Hm1 & Hm2).
      rewrite Hs1.
      destruct (IH s1) as (s' & Hrun & Hp & Hq).
      * rewrite Hch. reflexivity.
      * rewrite Hm1, i64_id; lia.
      * rewrite Hm1, i64_id; lia.
      * rewrite Hm2, i64_id; lia.
      * rewrite Hm2, i64_id; lia.
      * exists s'. split; [exact Hrun|].
        rewrite Hch in Hp, Hq. simpl in Hp, Hq.
        rewrite length_app in Hp, Hq. simpl in Hp, Hq. subst room.
        destruct (Chan.cap (phoneToAIChan session)
                  - length (Chan.buf (phoneToAIChan session)))%nat
          as [|k] eqn:Ek; [lia|].
        replace (Chan.cap (phoneToAIChan session)
                 - (length (Chan.buf (phoneToAIChan session)) + 1))%nat
          with k in Hp, Hq by lia.
        rewrite Hm1, i64_id in Hp by lia. rewrite Hm2, i64_id in Hq by lia.
        cbn [take map concat fst length]. rewrite length_app. split; lia.
    + rewrite (sendPhoneToAI_full session frame frame latency Hc Hge).
      destruct (IH (setMetrics session (countPhoneToAIDropped (Metrics session))))
        as (s' & Hrun & Hp & Hq); simpl; try assumption; try lia.
      exists s'. split; [exact Hrun|]. simpl in Hp, Hq. subst room.
      replace (Chan.cap (phoneToAIChan session)
               - length (Chan.buf (phoneToAIChan session)))%nat
        with 0%nat in * by lia.
      rewrite !take_0 in *. simpl in *. split; lia.
Qed.

Lemma filter_weight (chunks : list (list Z * Z)) :
  (length (List.filter nonEmptyChunk chunks) <= length chunks)%nat /\
  length (concat (map fst (List.filter nonEmptyChunk chunks)))
    = length (concat (map fst chunks)).
Proof.
  induction chunks as [|[chunk latency] rest [IH1 IH2]]; [split; reflexivity|].
  destruct chunk as [|x chunk].
  - change (List.filter nonEmptyChunk (([], latency) :: rest))
      with (List.filter nonEmptyChunk rest).
    cbn [map concat fst app length]. split; [lia|exact IH2].
  - change (List.filter nonEmptyChunk ((x :: chunk, latency) :: rest))
      with ((x :: chunk, latency) :: List.filter nonEmptyChunk rest).
    cbn [map concat fst length]. rewrite !length_app, IH2.
    split; [lia|reflexivity].
Qed.

End AccountingFacts.

(** X26.  The phone-to-pipeline router accounts for every chunk exactly
    once: empty chunks are skipped and counted nowhere; each non-empty chunk
    is either queued, adding one to [PhoneToAIPacketsSent] and its length
    to [BytesReceived], or dropped, adding one to
    [PhoneToAIPacketsDropped]; so sent plus dropped grows by the number of
    non-empty chunks and [BytesReceived] by the bytes actually queued. *)
Theorem routePhoneToAI_accounting
    (session : Bridge.BridgeSession) (chunks : list (list Z * Z)) :
  let m := Bridge.Metrics session in
  let total := Z.of_nat (length chunks) in
  Chan.closed (Bridge.phoneToAIChan session) = false ->
  0 <= Bridge.PhoneToAIPacketsSent m ->
  Bridge.PhoneToAIPacketsSent m + total < 2 ^ 63 ->
  0 <= Bridge.PhoneToAIPacketsDropped m ->
  Bridge.PhoneToAIPacketsDropped m + total < 2 ^ 63 ->
  0 <= Bridge.DroppedPackets m -> Bridge.DroppedPackets m + total < 2 ^ 63 ->
  0 <= Bridge.BytesReceived m ->
  Bridge.BytesReceived m + Z.of_nat (length (concat (map fst chunks))) < 2 ^ 63 ->
  let frames := List.filter Registry.nonEmptyChunk chunks in
  let room := (Chan.cap (Bridge.phoneToAIChan session)
               - length (Chan.buf (Bridge.phoneToAIChan session)))%nat in
  exists session',
    Bridge.routePhoneToAIRun session chunks = Return session' None /\
    Chan.buf (Bridge.phoneToAIChan session')
      = Chan.buf (Bridge.phoneToAIChan session) ++ take room (map fst frames) /\
    Bridge.PhoneToAIPacketsSent (Bridge.Metrics session')
      + Bridge.PhoneToAIPacketsDropped (Bridge.Metrics session')
      = Bridge.PhoneToAIPacketsSent m + Bridge.PhoneToAIPacketsDropped m
        + Z.of_nat (length frames) /\
    Bridge.BytesReceived (Bridge.Metrics session')
      = Bridge.BytesReceived m
        + Z.of_nat (length (concat (take room (map fst frames)))).
Proof.
  intros m total Hc Hs Hsb Hd Hdb Hg Hgb Hb Hbb frames room.
  destruct (filter_weight chunks) as [Hfl Hfb]. fold frames in Hfl, Hfb.
  rewrite routePhoneToAIRun_filter. fold frames.
  destruct (sendAllPhoneToAI_fill frames session Hc Hd ltac:(subst m total; lia)
              Hg ltac:(subst m total; lia))
    as (s1 & Hrun1 & _ & _ & Hbuf & Hdrop & _).
  destruct (sendAllPhoneToAI_sent frames session Hc Hs
              ltac:(subst m total; lia) Hb ltac:(subst m; lia))
    as (s2 & Hrun2 & Hsent & Hbytes).
  rewrite Hrun1 in Hrun2. injection Hrun2 as <-.
  exists s1. split; [exact Hrun1|]. split; [exact Hbuf|]. split.
  - fold room in Hdrop, Hsent. rewrite Hdrop, Hsent.
    rewrite length_take. subst m. lia.
  - exact Hbytes.
Qed.

Lemma routePhoneToAI_accounting_witness :
  exists session',
    Bridge.routePhoneToAIRun Fixtures.session4
      [([1; 2], 0); ([], 0); ([3], 0)] = Return session' None /\
    Bridge.PhoneToAIPacketsSent (Bridge.Metrics session') = 2 /\
    Bridge.BytesReceived (Bridge.Metrics session') = 3.
Proof.
  destruct (routePhoneToAI_accounting Fixtures.session4
              [([1; 2], 0); ([], 0); ([3], 0)])
    as (s' & H1 & _ & _ & H4);
    [reflexivity | simpl; lia | reflexivity | simpl; lia | reflexivity
    | simpl; lia | reflexivity | simpl; lia | reflexivity |].
  exists s'. split; [exact H1|].
  vm_compute in H1. injection H1 as <-. split; reflexivity.
Defined.

(** * Provider link, continued *)

Section LinkMore.

Import Link LinkRuns.

Lemma handleMediaEvent_error_keeps cs msg cs' e :
  handleMediaEvent cs msg = Return cs' (Some e) -> cs' = cs.
Proof.
  unfold handleMediaEvent.
  destruct (msg !! "media") as [[| | | | |media]|]; try (intros H; injection H as <- _; reflexivity).
  destruct (media !! "track") as [[| | |track| |]|]; try (intros H; injection H as <- _; reflexivity).
  destruct (negb (String.eqb track "inbound")); [discriminate|].
  destruct (media !! "payload") as [[| | |payload| |]|]; try (intros H; injection H as <- _; reflexivity).
  destruct (Base64.DecodeString payload) as [audioData|]; [|intros H; injection H as <- _; reflexivity].
  destruct (Chan.trySend _ _) as [[c|]| |]; discriminate.
Qed.

Lemma controlEvent_no_error cs name now cs' err :
  controlEvent cs name now = Return cs' err -> err = None.
Proof.
  unfold controlEvent. destruct (SendEvent _ _ _); [|discriminate].
  intros H. injection H as _ <-. reflexivity.
Qed.

Lemma controlEvent_closed cs name now :
  Closed cs = true -> controlEvent cs name now = Return cs None.
Proof. intros H. unfold controlEvent, SendEvent. rewrite H. reflexivity. Qed.

Lemma inbound_media p :
  inbound p !! "media"
    = Some (JObject (<["track" := JString "inbound"]>
                       (<["payload" := JString p]> ∅))).
Proof.
  unfold inbound. rewrite lookup_insert_ne by discriminate.
  apply lookup_insert_eq.
Qed.

Lemma handleMediaEvent_inbound cs p audioData :
  Base64.DecodeString p = Some audioData ->
  Chan.closed (AudioInChan cs) = false ->
  handleMediaEvent cs (inbound p)
    = Return
        (if (length (Chan.buf (AudioInChan cs)) <? Chan.cap (AudioInChan cs))%nat
         then setAudioInChan cs
                (Chan.Mk (Chan.buf (AudioInChan cs) ++ [audioData])
                   (Chan.cap (AudioInChan cs)) false)
         else cs) None.
Proof.
  intros Hd Hc. unfold handleMediaEvent. rewrite inbound_media.
  rewrite lookup_insert_eq. cbn [String.eqb negb].
  change (negb (String.eqb "inbound" "inbound")) with false. cbv iota.
  rewrite lookup_insert_ne by discriminate. rewrite lookup_insert_eq, Hd.
  unfold Chan.trySend. rewrite Hc.
  destruct (length (Chan.buf (AudioInChan cs)) <? Chan.cap (AudioInChan cs))%nat;
    reflexivity.
Qed.

Lemma handleMediaEvents_fill payloads : forall datas cs,
  Forall2 (fun p d => Base64.DecodeString p = Some d) payloads datas ->
  Chan.closed (AudioInChan cs) = false ->
  let room := (Chan.cap (AudioInChan cs)
               - length (Chan.buf (AudioInChan cs)))%nat in
  handleMediaEvents cs (map inbound payloads)
    = Return
        (setAudioInChan cs
           (Chan.Mk (Chan.buf (AudioInChan cs) ++ take room datas)
              (Chan.cap (AudioInChan cs)) false)) None.
Proof.
  induction payloads as [|p rest IH]; intros datas cs HF Hc room.
  - inversion HF; subst. cbn [map handleMediaEvents]. rewrite take_nil, app_nil_r.
    do 2 f_equal. destruct cs as [? ? ? ? [b c cl] ? ? ?]. simpl in *.
    subst cl. reflexivity.
  - inversion HF as [|? d ? ds Hd HF']; subst.
    cbn [map handleMediaEvents]. rewrite (handleMediaEvent_inbound cs p d Hd Hc).
    destruct (Nat.ltb_spec (length (Chan.buf (AudioInChan cs)))
                (Chan.cap (AudioInChan cs))) as [Hlt|Hge].
    + rewrite (IH ds _ HF') by reflexivity. simpl.
      rewrite length_app. simpl. subst room.
      destruct (Chan.cap (AudioInChan cs) - length (Chan.buf (AudioInChan cs)))%nat
        as [|k] eqn:Ek; [lia|].
      replace (Chan.cap (AudioInChan cs)
               - (length (Chan.buf (AudioInChan cs)) + 1))%nat with k by lia.
      cbn [take]. rewrite <- app_assoc. reflexivity.
    + rewrite (IH ds cs HF' Hc). subst room.
      replace (Chan.cap (AudioInChan cs) - length (Chan.buf (AudioInChan cs)))%nat
        with 0%nat by lia.
      rewrite !take_0. reflexivity.
Qed.

End LinkMore.

(** X27.  Whenever [handleSignalWireMessage] returns an error the session
    is exactly as before, and errors come only from a message that does not
    parse, that has no string [event], or that is a [media] event: the
    control events ([connected], [start], [stop], [closed]) and unknown
    events never return an error, even when their write fails. *)
Theorem message_errors_keep_session
    (cs cs' : Link.SignalWireCallSession) (parsed : option (gmap string json))
    (now : Z) (e : string) :
  Link.handleSignalWireMessage cs parsed now = Return cs' (Some e) ->
  cs' = cs /\
  (parsed = None \/
   exists msg, parsed = Some msg /\
     ((forall t, msg !! "event" <> Some (JString t)) \/
      msg !! "event" = Some (JString "media"))).
Proof.
  unfold Link.handleSignalWireMessage.
  destruct parsed as [msg|].
  2:{ intros H. injection H as <- _. split; [reflexivity|left; reflexivity]. }
  destruct (msg !! "event") as [[| | |msgType| |]|] eqn:Hev;
    try (intros H; injection H as <- _; split; [reflexivity|];
         right; exists msg; split; [reflexivity|]; left; intros t;
         rewrite Hev; discriminate).
  destruct (String.eqb_spec msgType "connected") as [->|_].
  { intros H. apply controlEvent_no_error in H. discriminate. }
  destruct (String.eqb_spec msgType "start") as [->|_].
  { intros H. apply controlEvent_no_error in H. discriminate. }
  destruct (String.eqb_spec msgType "media") as [->|_].
  { intros H. apply handleMediaEvent_error_keeps in H.
    split; [exact H|]. right. exists msg. split; [reflexivity|].
    right. exact Hev. }
  destruct (String.eqb_spec msgType "stop") as [->|_].
  { intros H. apply controlEvent_no_error in H. discriminate. }
  destruct (String.eqb_spec msgType "closed") as [->|_].
  { destruct (Link.Close cs); discriminate. }
  discriminate.
Qed.

Lemma message_errors_keep_session_witness :
  Link.handleSignalWireMessage Fixtures.link0
    (Some (Fixtures.mediaMsg "inbound" "not base64!")) 0
    = Return Fixtures.link0 (Some "failed to decode audio payload").
Proof.
  destruct (Link.handleSignalWireMessage Fixtures.link0
              (Some (Fixtures.mediaMsg "inbound" "not base64!")) 0)
    as [cs' [e|]|p] eqn:E; try (vm_compute in E; discriminate).
  destruct (message_errors_keep_session _ _ _ _ _ E) as [-> _].
  vm_compute in E. injection E as <-. reflexivity.
Defined.

(** X28.  Inbound media on an open link is queued in arrival order up to
    the capacity of [AudioInChan]; once the queue is full every further
    frame is dropped, and neither the drop nor the enqueue touches any other
    field of the session: no counter records a frame lost at the link. *)
Theorem inbound_media_fifo_and_silent_drop
    (cs : Link.SignalWireCallSession) (payloads : list string)
    (datas : list (list Z)) :
  Forall2 (fun p d => Base64.DecodeString p = Some d) payloads datas ->
  Chan.closed (Link.AudioInChan cs) = false ->
  let room := (Chan.cap (Link.AudioInChan cs)
               - length (Chan.buf (Link.AudioInChan cs)))%nat in
  exists cs',
    LinkRuns.handleMediaEvents cs (map LinkRuns.inbound payloads)
      = Return cs' None /\
    Chan.buf (Link.AudioInChan cs')
      = Chan.buf (Link.AudioInChan cs) ++ take room datas /\
    Chan.cap (Link.AudioInChan cs') = Chan.cap (Link.AudioInChan cs) /\
    Link.AudioOutChan cs' = Link.AudioOutChan cs /\
    Link.Conn cs' = Link.Conn cs /\
    Link.Closed cs' = Link.Closed cs /\
    Link.ClosedCount cs' = Link.ClosedCount cs.
Proof.
  intros HF Hc room. eexists. split; [apply (handleMediaEvents_fill _ _ _ HF Hc)|].
  simpl. repeat split; reflexivity.
Qed.

Lemma inbound_media_fifo_and_silent_drop_witness :
  exists cs',
    LinkRuns.handleMediaEvents
      (Link.setAudioInChan Fixtures.link0 (Chan.make 1))
      (map LinkRuns.inbound ["TWFu"; "AAAA"]) = Return cs' None /\
    Chan.buf (Link.AudioInChan cs') = [[77; 97; 110]].
Proof.
  destruct (inbound_media_fifo_and_silent_drop
              (Link.setAudioInChan Fixtures.link0 (Chan.make 1))
              ["TWFu"; "AAAA"] [[77; 97; 110]; [0; 0; 0]])
    as (cs' & H1 & H2 & _).
  - repeat constructor.
  - reflexivity.
  - exists cs'. split; [exact H1|exact H2].
Defined.

(** X29.  A [closed] event tears the link down: on an open session with a
    connection it closes both link queues and the connection (after a
    normal-closure frame if the connection still accepted writes), sets the
    flag and counts the close once; from then on every event other than
    [media] is accepted without an error and without any write or change. *)
Theorem closed_event_tears_link_down
    (cs : Link.SignalWireCallSession) (msg : gmap string json) (now : Z)
    (conn : Link.wsConn) :
  msg !! "event" = Some (JString "closed") ->
  Link.Closed cs = false ->
  Chan.closed (Link.AudioInChan cs) = false ->
  Chan.closed (Link.AudioOutChan cs) = false ->
  Link.Conn cs = Some conn ->
  exists cs',
    Link.handleSignalWireMessage cs (Some msg) now = Return cs' None /\
    Link.Closed cs' = true /\
    Link.ClosedCount cs' = i64 (Link.ClosedCount cs + 1) /\
    Chan.closed (Link.AudioInChan cs') = true /\
    Chan.closed (Link.AudioOutChan cs') = true /\
    Link.Conn cs'
      = Some (Link.MkConn
                (if Link.connClosed conn then Link.written conn
                 else Link.written conn ++ [Link.CloseMessage 1000 EmptyString])
                true) /\
    forall msg' t now',
      msg' !! "event" = Some (JString t) -> t <> "media" ->
      Link.handleSignalWireMessage cs' (Some msg') now' = Return cs' None.
Proof.
  intros Hev Hopen Hin Hout Hconn.
  unfold Link.handleSignalWireMessage at 1. rewrite Hev.
  cbn [String.eqb Ascii.eqb Bool.eqb andb].
  change (String.eqb "closed" "connected") with false.
  change (String.eqb "closed" "start") with false.
  change (String.eqb "closed" "media") with false.
  change (String.eqb "closed" "stop") with false.
  change (String.eqb "closed" "closed") with true. cbv iota.
  assert (exists cs', Link.Close cs = Return cs' None /\
            Link.Conn cs'
              = Some (Link.MkConn
                        (if Link.connClosed conn then Link.written conn
                         else Link.written conn
                              ++ [Link.CloseMessage 1000 EmptyString]) true))
    as (cs' & Hclose & Hc').
  { unfold Link.Close, Chan.close. rewrite Hopen. simpl.
    rewrite Hin. simpl. rewrite Hout. simpl. rewrite Hconn.
    eexists. split; [reflexivity|]. simpl. unfold Link.WriteMessage.
    destruct (Link.connClosed conn); reflexivity. }
  destruct (Close_open_inv _ _ _ Hopen Hclose) as (_ & Hcl & Hcnt & Hi & Ho & _).
  exists cs'. rewrite Hclose.
  split; [reflexivity|]. split; [exact Hcl|]. split; [exact Hcnt|].
  split; [exact Hi|]. split; [exact Ho|]. split; [exact Hc'|].
  intros msg' t now' Hev' Hne. unfold Link.handleSignalWireMessage.
  rewrite Hev'.
  destruct (String.eqb_spec t "connected");
    [apply controlEvent_closed; exact Hcl|].
  destruct (String.eqb_spec t "start");
    [apply controlEvent_closed; exact Hcl|].
  destruct (String.eqb_spec t "media"); [contradiction|].
  destruct (String.eqb_spec t "stop");
    [apply controlEvent_closed; exact Hcl|].
  destruct (String.eqb_spec t "closed"); [|reflexivity].
  rewrite (Close_closed_noop _ Hcl). reflexivity.
Qed.

Lemma closed_event_tears_link_down_witness :
  exists cs',
    Link.handleSignalWireMessage Fixtures.link0
      (Some (<["event" := JString "closed"]> ∅)) 0 = Return cs' None /\
    Link.Closed cs' = true.
Proof.
  destruct (closed_event_tears_link_down Fixtures.link0
              (<["event" := JString "closed"]> ∅) 0 (Link.MkConn [] false))
    as (cs' & H1 & H2 & _); try reflexivity.
  exists cs'. split; [exact H1|exact H2].
Defined.

(** * Status webhook *)

Section WebhookFacts.

Import Calls.

(** Whatever the visit order, the session found is a registered call
    session with the requested call SID. *)
Lemma GetCallSessionBySignalWireSID_found
    (calls : gmap string Link.SignalWireCallSession) visited sid swSession :
  visited ≡ₚ map_to_list calls ->
  GetCallSessionBySignalWireSID visited sid = Some swSession ->
  Link.SignalWireCallSID swSession = sid /\
  exists key, calls !! key = Some swSession.
Proof.
  intros Hp. unfold GetCallSessionBySignalWireSID. intros H.
  destruct (list_find _ visited) as [[i [key cs]]|] eqn:E; [|discriminate].
  simpl in H. injection H as ->.
  apply list_find_Some in E. destruct E as (Hi & Heq & _). simpl in Heq.
  split.
  - apply String.eqb_eq. destruct (String.eqb _ sid); [reflexivity|].
    exfalso. exact Heq.
  - exists key. apply elem_of_map_to_list. rewrite <- Hp.
    eapply list_elem_of_lookup_2. exact Hi.
Qed.

(** The statuses that end the call for the handler. *)
Lemma newStateOf_final callStatus :
  callStatus <> "ringing" -> callStatus <> "in-progress" ->
  callStatus <> "answered" ->
  bool_decide (newStateOf callStatus = StateCompleted)
  || bool_decide (newStateOf callStatus = StateFailed)
  || bool_decide (newStateOf callStatus = StateNoAnswer)
  || bool_decide (newStateOf callStatus = StateBusy)
  || bool_decide (newStateOf callStatus = StateCancelled) = true.
Proof.
  intros H1 H2 H3. unfold newStateOf.
  apply String.eqb_neq in H1, H2, H3. rewrite H1, H2, H3. cbn [orb].
  destruct (String.eqb callStatus "completed"); [reflexivity|].
  destruct (String.eqb callStatus "failed"); [reflexivity|].
  destruct (String.eqb callStatus "error"); [reflexivity|].
  destruct (String.eqb callStatus "no-answer"); [reflexivity|].
  destruct (String.eqb callStatus "busy"); [reflexivity|].
  destruct (String.eqb callStatus "canceled"); reflexivity.
Qed.

End WebhookFacts.

(** X30.  The status webhook, on a POST with a call SID.  If the update of
    the call record in the initiator panics, the handler ends with that
    panic and the bridge session stays registered.  If the update returns,
    with or without an error, the handler treats every status other than
    "ringing", "in-progress" and "answered" as the end of the call, unknown
    statuses included: whichever call session with that call SID the
    iteration over the call table finds, it is a registered one, and when
    its bridge session is in the registry with open queues the handler
    closes that bridge session (afterwards [GetSession] returns nil and
    both session queues are closed) and answers 200; for the three other
    statuses it answers 200 and leaves the registry untouched. *)
Theorem status_callback_closes_session
    (UpdateCallState : string -> Calls.CallState -> outcome unit)
    (calls : gmap string Link.SignalWireCallSession)
    (visited : list (string * Link.SignalWireCallSession))
    (streamBridge : Bridge.AudioStreamBridge) (callSID callStatus : string)
    (swSession : Link.SignalWireCallSession) (addr : nat)
    (session : Bridge.BridgeSession) :
  callSID <> EmptyString ->
  visited ≡ₚ map_to_list calls ->
  Calls.GetCallSessionBySignalWireSID visited callSID = Some swSession ->
  Bridge.sessions streamBridge !! Link.SessionID swSession = Some addr ->
  Bridge.objects streamBridge !! addr = Some session ->
  Chan.closed (Bridge.phoneToAIChan session) = false ->
  Chan.closed (Bridge.aiToPhoneChan session) = false ->
  (exists key, calls !! key = Some swSession) /\
  match UpdateCallState callSID (Calls.newStateOf callStatus) with
  | GoPanic p =>
      Calls.HandleCallStateChange UpdateCallState visited streamBridge
        "POST" callSID callStatus = Calls.HandlerPanic p
  | Ok _ | Err _ =>
      if bool_decide (callStatus = "ringing" \/ callStatus = "in-progress"
                      \/ callStatus = "answered")
      then Calls.HandleCallStateChange UpdateCallState visited streamBridge
             "POST" callSID callStatus = Calls.Response 200 streamBridge
      else exists streamBridge' session',
             Calls.HandleCallStateChange UpdateCallState visited streamBridge
               "POST" callSID callStatus = Calls.Response 200 streamBridge' /\
             Bridge.GetSession streamBridge' (Link.SessionID swSession) = None /\
             Bridge.objects streamBridge' !! addr = Some session' /\
             Bridge.Active session' = false /\
             Chan.closed (Bridge.phoneToAIChan session') = true /\
             Chan.closed (Bridge.aiToPhoneChan session') = true
  end.
Proof.
  intros Hsid Hperm Hfind Hs Ho Hc1 Hc2.
  destruct (GetCallSessionBySignalWireSID_found calls visited callSID swSession
              Hperm Hfind) as [_ Hreg].
  split; [exact Hreg|].
  pose proof (CloseSession_present _ _ _ _ Hs Ho Hc1 Hc2) as Hclose.
  unfold Calls.HandleCallStateChange.
  change (negb (String.eqb "POST" "POST")) with false. cbv iota.
  destruct (String.eqb_spec callSID EmptyString) as [|_]; [contradiction|].
  cbv zeta. rewrite Hfind, Hclose.
  assert (if bool_decide (callStatus = "ringing" \/ callStatus = "in-progress"
                          \/ callStatus = "answered")
          then bool_decide (Calls.newStateOf callStatus = Calls.StateCompleted)
               || bool_decide (Calls.newStateOf callStatus = Calls.StateFailed)
               || bool_decide (Calls.newStateOf callStatus = Calls.StateNoAnswer)
               || bool_decide (Calls.newStateOf callStatus = Calls.StateBusy)
               || bool_decide (Calls.newStateOf callStatus = Calls.StateCancelled)
               = false
          else bool_decide (Calls.newStateOf callStatus = Calls.StateCompleted)
               || bool_decide (Calls.newStateOf callStatus = Calls.StateFailed)
               || bool_decide (Calls.newStateOf callStatus = Calls.StateNoAnswer)
               || bool_decide (Calls.newStateOf callStatus = Calls.StateBusy)
               || bool_decide (Calls.newStateOf callStatus = Calls.StateCancelled)
               = true) as Hfinal.
  { case_bool_decide as Hd.
    - destruct Hd as [ -> | [ -> | -> ] ]; reflexivity.
    - apply newStateOf_final; tauto. }
  destruct (UpdateCallState callSID (Calls.newStateOf callStatus)) as [u|e|p];
    [| |reflexivity];
    (destruct (bool_decide (callStatus = "ringing" \/ callStatus = "in-progress"
                            \/ callStatus = "answered"));
     rewrite Hfinal; [reflexivity|];
     eexists _, _;
     split; [reflexivity|];
     split; [unfold Bridge.GetSession; simpl; apply lookup_delete_eq|];
     split; [simpl; apply lookup_insert_eq|];
     split; [reflexivity|]; split; reflexivity).
Qed.

Lemma status_callback_closes_session_witness :
  exists streamBridge',
    Calls.HandleCallStateChange
      (fun _ _ => Err "call not found: CA1") [("L1", Fixtures.link0)]
      Fixtures.bridge1 "POST" "CA1" "queued"
      = Calls.Response 200 streamBridge' /\
    Bridge.GetSession streamBridge' "S1" = None.
Proof.
  pose proof (status_callback_closes_session
                (fun _ _ => Err "call not found: CA1")
                {["L1" := Fixtures.link0]} [("L1", Fixtures.link0)]
                Fixtures.bridge1 "CA1" "queued" Fixtures.link0 0%nat
                (Bridge.MkBridgeSession "S1" "S1" None (Chan.make 500)
                   (Chan.make 500) Bridge.telephonyFormat
                   Bridge.telephonyFormat true false Bridge.zeroMetrics 0
                   None None false)
                ltac:(discriminate)
                ltac:(rewrite map_to_list_singleton; reflexivity)
                ltac:(reflexivity) ltac:(reflexivity) ltac:(reflexivity)
                ltac:(reflexivity) ltac:(reflexivity)) as [_ H].
  cbv beta iota in H.
  rewrite bool_decide_eq_false_2 in H
    by (intros [E|[E|E]]; discriminate).
  destruct H as (b' & s' & H1 & H2 & _).
  exists b'. split; [exact H1|exact H2].
Defined.
